(** * Segmented parallel search coordinator (batch_calculate/run.py)

    A shallow embedding of the coordinator script: the range partitioner
    of [main], the worker start-up, the polling loop over the per-worker
    output queues, and the shutdown phase with its final report.

    Python integers are unbounded, so they are modelled by [Z]; segment
    indices, which come from [range(NUM_SEGMENTS)], by [nat]; [str] by
    [string].  The module-level configuration constants are gathered in
    a record so that statements can range over configurations;
    [source_config] holds the values written in the script.

    [main] is a computation in a small monad that collects the events it
    performs (prints, thread starts, sleeps, dequeues, termination
    requests) and stops at the first uncaught exception.  The threads
    and child processes are the environment: a run is given by what the
    readers deliver before each tick of the loop, by the process registry
    as each tick reads it, and by the registry as the shutdown phase
    finds it together with the changes the worker threads make to it
    while the shutdown phase walks it.  The loop need not end, so a run is a
    finite list of ticks and [main_loop] says whether the loop was left
    within them.

    The last sections embed the two companion scripts,
    search_solution_near_known.py and analyze_data.py: the window test,
    the sampling loop, and the reading, filtering and writing of
    solution files.  Their plots and floating-point statistics are not
    modelled. *)

From Stdlib Require Import ZArith Lia Bool Ascii String DecimalString.
From Stdlib Require DecimalPos DecimalZ.
From stdpp Require Import base list sorting.

Open Scope Z_scope.

(** ** Configuration (lines 13-18) *)

Record Config : Type := {
  TOTAL_START : Z;
  TOTAL_END : Z;
  NUM_SEGMENTS : Z;
  OVERLAP : Z;
  CHECKPOINT_INTERVAL : Z;
  PROGRESS_THROTTLE : Z
}.

Definition source_config : Config := {|
  TOTAL_START := 1000560284742167;
  TOTAL_END := 2 * (10 ^ 15);
  NUM_SEGMENTS := 8;
  OVERLAP := 2004;
  CHECKPOINT_INTERVAL := 3600;
  PROGRESS_THROTTLE := 10
|}.

(** ** Exceptions, events and the trace monad *)

(** The exceptions the modelled statements can raise. *)
Inductive PyExn : Type :=
  | ZeroDivisionError
  | IndexError
  | OSError.

(** One segment as computed in the body of the start-up loop
    (lines 80-84).  [checkpoint] is the index [i] of the file name
    [checkpoint_{i}.bin]. *)
Record Segment : Type := {
  seg_index : nat;
  seg_start : Z;
  seg_end : Z;
  ext_start : Z;
  ext_end : Z;
  checkpoint : nat
}.

(** A child process as the coordinator sees it: [returncode] is what
    [poll()] returns, [terminate_raises] tells whether [terminate()]
    raises when it is called. *)
Record Proc : Type := {
  pid : nat;
  returncode : option Z;
  terminate_raises : bool
}.

(** A queue item is the pair [(seg_id, line.strip())] put by [reader]. *)
Definition Item : Type := (nat * string)%type.

(** The [print] calls of [main], one constructor per call site. *)
Inductive Message : Type :=
  | Rule                                   (* lines 68, 73 *)
  | Title                                  (* line 69 *)
  | TotalRange (lo hi : Z)                 (* line 70 *)
  | SegmentCount (n ov : Z)                (* line 71 *)
  | CheckpointEvery (secs : Z)             (* line 72 *)
  | SegmentLog (s : Segment)               (* line 85 *)
  | ProgressLog (seg_id : nat) (prime : string)   (* line 109 *)
  | SuccessLog (seg_id : nat) (n : string)        (* line 113 *)
  | InfoLog (seg_id : nat) (line : string)        (* line 120 *)
  | InterruptLog                           (* line 130 *)
  | ReportFound (n : string)               (* line 145 *)
  | ReportNone.                            (* line 147 *)

(** What [main] does to the outside world, in order. *)
Inductive Event : Type :=
  | EvPrint (m : Message)
  | EvSpawn (s : Segment)          (* Thread(target=worker, ...).start() *)
  | EvSleep (millis : Z)           (* time.sleep *)
  | EvGet (it : Item)              (* a successful q.get_nowait() *)
  | EvTerminate (p : Proc).        (* p.terminate() *)

Inductive Exc (A : Type) : Type :=
  | Ok (a : A)
  | Raise (e : PyExn).
Arguments Ok {A} a.
Arguments Raise {A} e.

(** A computation yields the events it performed and either a value or
    the exception that stopped it. *)
Definition M (A : Type) : Type := (list Event * Exc A)%type.

Definition ret {A} (a : A) : M A := ([], Ok a).
Definition raise {A} (e : PyExn) : M A := ([], Raise e).
Definition emit (e : Event) : M unit := ([e], Ok tt).
Definition bind {A B} (m : M A) (f : A -> M B) : M B :=
  match m with
  | (tr, Ok a) => let '(tr', r) := f a in (tr ++ tr', r)
  | (tr, Raise e) => (tr, Raise e)
  end.

Declare Scope py_scope.
Delimit Scope py_scope with py.
Notation "'let*' x ':=' c1 'in' c2" := (bind c1 (fun x => c2))
  (at level 10, x pattern, c1 at level 200, c2 at level 200) : py_scope.
Notation "c1 >> c2" := (bind c1 (fun _ => c2))
  (at level 100, c2 at level 200, right associativity) : py_scope.
Open Scope py_scope.

(** ** The range partitioner and worker start-up (lines 68-90) *)

(** [a // b]: floor division, raising on a zero divisor. *)
Definition floordiv (a b : Z) : M Z :=
  if b =? 0 then raise ZeroDivisionError else ret (a / b).

(** [range(n)]: empty when [n <= 0]. *)
Definition py_range (n : Z) : list nat := seq 0 (Z.to_nat n).

(** Lines 80-84: the bounds of segment [i]. *)
Definition make_segment (cfg : Config) (seg_len : Z) (i : nat) : Segment :=
  let seg_start := TOTAL_START cfg + Z.of_nat i * seg_len in
  let seg_end :=
    if Z.of_nat i <? NUM_SEGMENTS cfg - 1
    then TOTAL_START cfg + (Z.of_nat i + 1) * seg_len - 1
    else TOTAL_END cfg in
  let ext_start := Z.max (TOTAL_START cfg) (seg_start - OVERLAP cfg) in
  let ext_end := Z.min (TOTAL_END cfg) (seg_end + OVERLAP cfg) in
  {| seg_index := i; seg_start := seg_start; seg_end := seg_end;
     ext_start := ext_start; ext_end := ext_end; checkpoint := i |}.

(** Lines 75-76. *)
Definition segment_length (cfg : Config) : M Z :=
  let total_len := TOTAL_END cfg - TOTAL_START cfg in
  floordiv total_len (NUM_SEGMENTS cfg).

(** The segments alone, in index order. *)
Definition partition (cfg : Config) : M (list Segment) :=
  let* seg_len := segment_length cfg in
  ret (make_segment cfg seg_len <$> py_range (NUM_SEGMENTS cfg)).

(** Lines 79-90: one pass of the start-up loop per index. *)
Fixpoint start_workers (cfg : Config) (seg_len : Z) (idx : list nat)
  : M (list Segment) :=
  match idx with
  | [] => ret []
  | i :: rest =>
      let s := make_segment cfg seg_len i in
      emit (EvPrint (SegmentLog s)) >>
      emit (EvSpawn s) >>
      emit (EvSleep 200) >>
      let* segs := start_workers cfg seg_len rest in
      ret (s :: segs)
  end.

(** Lines 68-73. *)
Definition banner (cfg : Config) : M unit :=
  emit (EvPrint Rule) >>
  emit (EvPrint Title) >>
  emit (EvPrint (TotalRange (TOTAL_START cfg) (TOTAL_END cfg))) >>
  emit (EvPrint (SegmentCount (NUM_SEGMENTS cfg) (OVERLAP cfg))) >>
  emit (EvPrint (CheckpointEvery (CHECKPOINT_INTERVAL cfg))) >>
  emit (EvPrint Rule).

(** Lines 68-90: everything [main] does before its polling loop. *)
Definition startup (cfg : Config) : M (list Segment) :=
  banner cfg >>
  let* seg_len := segment_length cfg in
  start_workers cfg seg_len (py_range (NUM_SEGMENTS cfg)).


(** ** String operations used by the protocol (lines 29, 105-112) *)

Open Scope string_scope.
Open Scope Z_scope.
Open Scope list_scope.

(** [line.startswith(p)] *)
Definition startswith (p line : string) : bool := String.prefix p line.

(** [s.split(":")]: cut at every colon; the result is never empty. *)
Fixpoint split_colon (s : string) : list string :=
  match s with
  | EmptyString => [EmptyString]
  | String c rest =>
      if Ascii.eqb c ":"%char then EmptyString :: split_colon rest
      else match split_colon rest with
           | [] => [String c EmptyString]
           | h :: t => String c h :: t
           end
  end.

(** The whitespace that [str.strip()] removes, for characters below 128:
    tab, line feed, vertical tab, form feed, carriage return, the four
    separators 28-31 and the space. *)
Definition is_space (c : ascii) : bool :=
  let n := nat_of_ascii c in
  ((9 <=? n)%nat && (n <=? 13)%nat) || ((28 <=? n)%nat && (n <=? 32)%nat).

Fixpoint lstrip (s : string) : string :=
  match s with
  | EmptyString => EmptyString
  | String c rest => if is_space c then lstrip rest else s
  end.

Fixpoint rstrip (s : string) : string :=
  match s with
  | EmptyString => EmptyString
  | String c rest =>
      match rstrip rest with
      | EmptyString => if is_space c then EmptyString else String c EmptyString
      | r => String c r
      end
  end.

(** [s.strip()] *)
Definition strip (s : string) : string := rstrip (lstrip s).

(** [l[i]] for a non-negative index. *)
Definition getitem {A} (l : list A) (i : nat) : M A :=
  match l !! i with
  | Some x => ret x
  | None => raise IndexError
  end.

(** [l[i] = x] for a non-negative index. *)
Definition setitem {A} (l : list A) (i : nat) (x : A) : M (list A) :=
  if (i <? length l)%nat then ret (<[i := x]> l) else raise IndexError.

(** [a % b], raising on a zero divisor. *)
Definition pymod (a b : Z) : M Z :=
  if b =? 0 then raise ZeroDivisionError else ret (a mod b).

(** [min] over strings: the first element is kept until a strictly
    smaller one, in the lexicographic order of [str], is met. *)
Fixpoint py_min (best : string) (l : list string) : string :=
  match l with
  | [] => best
  | x :: rest => py_min (if String.ltb x best then x else best) rest
  end.

(** ** The reader thread and the queues (lines 26-30, 55-59) *)

(** [reader]: every line read from the pipe is stripped and put on the
    queue with the segment index. *)
Definition reader (seg_id : nat) (pipe : list string) (queue : list Item)
  : list Item :=
  queue ++ map (fun line => (seg_id, strip line)) pipe.

(** What the reader threads did since the previous tick: for each queue
    of [output_queues], in order, the segment index of its reader and the
    lines it read.  Entries beyond the known queues stand for queues that
    [worker] appended in the meantime (line 56). *)
Fixpoint deliver (arrivals : list (nat * list string))
  (queues : list (list Item)) : list (list Item) :=
  match arrivals, queues with
  | [], _ => queues
  | (seg_id, pipe) :: arr, [] => reader seg_id pipe [] :: deliver arr []
  | (seg_id, pipe) :: arr, q :: qs => reader seg_id pipe q :: deliver arr qs
  end.

(** ** The coordinator state and its polling loop (lines 21-24, 93-131) *)

Record State : Type := {
  results : list (option string);
  stop_event : bool;
  progress_counter : Z;
  output_queues : list (list Item)
}.

Definition initial_state (cfg : Config) : State := {|
  results := replicate (Z.to_nat (NUM_SEGMENTS cfg)) None;
  stop_event := false;
  progress_counter := 0;
  output_queues := []
|}.

Definition with_counter (st : State) (c : Z) : State :=
  {| results := results st; stop_event := stop_event st;
     progress_counter := c; output_queues := output_queues st |}.

Definition with_success (st : State) (res : list (option string)) : State :=
  {| results := res; stop_event := true;
     progress_counter := progress_counter st;
     output_queues := output_queues st |}.

Definition with_stop (st : State) : State :=
  {| results := results st; stop_event := true;
     progress_counter := progress_counter st;
     output_queues := output_queues st |}.

Definition with_queues (st : State) (qs : list (list Item)) : State :=
  {| results := results st; stop_event := stop_event st;
     progress_counter := progress_counter st; output_queues := qs |}.

Definition nonempty (s : string) : bool :=
  match s with EmptyString => false | _ => true end.

(** Lines 105-120: the classification of one dequeued item.  The boolean
    of the result tells whether the [break] of line 116 was taken. *)
Definition process_item (cfg : Config) (st : State) (it : Item)
  : M (State * bool) :=
  let '(seg_id, line) := it in
  if startswith "PROGRESS:" line then
    let st1 := with_counter st (progress_counter st + 1) in
    let* r := pymod (progress_counter st1) (PROGRESS_THROTTLE cfg) in
    if r =? 0 then
      let* prime := getitem (split_colon line) 1 in
      emit (EvPrint (ProgressLog seg_id prime)) >>
      ret (st1, false)
    else ret (st1, false)
  else if startswith "SUCCESS:" line then
    let* field := getitem (split_colon line) 1 in
    let n := strip field in
    emit (EvPrint (SuccessLog seg_id n)) >>
    let* res := setitem (results st) seg_id (Some n) in
    ret (with_success st res, true)
  else if nonempty line then
    emit (EvPrint (InfoLog seg_id line)) >>
    ret (st, false)
  else ret (st, false).

(** Lines 98-120: one pass over the queues.  An empty queue is skipped
    ([queue.Empty], [continue]); the pass stops at the [break].  The
    result carries the queues as the pass leaves them and
    [any_activity]. *)
Fixpoint drain (cfg : Config) (st : State) (queues : list (list Item))
  (any_activity : bool) : M (State * list (list Item) * bool) :=
  match queues with
  | [] => ret (st, [], any_activity)
  | [] :: rest =>
      let* (st', rest', act) := drain cfg st rest any_activity in
      ret (st', [] :: rest', act)
  | (it :: q) :: rest =>
      emit (EvGet it) >>
      let* (st1, broke) := process_item cfg st it in
      if broke then ret (st1, q :: rest, true)
      else
        let* (st2, rest', act) := drain cfg st1 rest true in
        ret (st2, q :: rest', act)
  end.

(** What the environment does around one evaluation of the loop
    condition: either the reader threads deliver lines and the process
    registry is as given when line 127 reads it, or the user interrupts.
    An interrupt is taken between two ticks. *)
Inductive Tick : Type :=
  | Poll (arrivals : list (nat * list string)) (processes : list Proc)
  | KeyboardInterrupt.

(** Line 127: [all(p.poll() is not None for p in processes)]. *)
Definition all_polled (processes : list Proc) : bool :=
  forallb (fun p => match returncode p with Some _ => true | None => false end)
          processes.

Inductive LoopStatus : Type :=
  | Running      (* the given ticks were used up inside the loop *)
  | Exited.      (* the loop was left *)

(** Lines 94-131. *)
Fixpoint main_loop (cfg : Config) (ticks : list Tick) (st : State)
  : M (State * LoopStatus) :=
  if stop_event st then ret (st, Exited)
  else
    match ticks with
    | [] => ret (st, Running)
    | KeyboardInterrupt :: _ =>
        emit (EvPrint InterruptLog) >>
        ret (with_stop st, Exited)
    | Poll arrivals processes :: rest =>
        let* (st1, queues, any_activity) :=
          drain cfg st (deliver arrivals (output_queues st)) false in
        let st2 := with_queues st1 queues in
        (if any_activity then ret tt else emit (EvSleep 10)) >>
        if all_polled processes then ret (st2, Exited)
        else main_loop cfg rest st2
    end.

(** ** Shutdown and final report (lines 133-147) *)

Definition terminate (p : Proc) : M unit :=
  emit (EvTerminate p) >>
  if terminate_raises p then raise OSError else ret tt.

(** [try: body  except: pass] *)
Definition try_except_pass (body : M unit) : M unit :=
  match body with
  | (tr, Ok _) => (tr, Ok tt)
  | (tr, Raise _) => (tr, Ok tt)
  end.

(** Lines 61-65 of [worker]: once the child has exited its handle is
    taken out of the registry. *)
Fixpoint reap (p : Proc) (processes : list Proc) : list Proc :=
  match processes with
  | [] => []
  | q :: rest => if (pid q =? pid p)%nat then rest else q :: reap p rest
  end.

(** Line 52: [processes.append(process)]. *)
Definition register (p : Proc) (processes : list Proc) : list Proc :=
  processes ++ [p].

(** What a worker thread does to the registry: it appends the handle of
    the child it has started (line 52) and removes it once the child
    has exited (lines 64-65). *)
Inductive RegistryOp : Type :=
  | Append (p : Proc)
  | Remove (p : Proc).

Definition apply_op (processes : list Proc) (op : RegistryOp) : list Proc :=
  match op with
  | Append p => register p processes
  | Remove p => reap p processes
  end.

(** The registry after the worker threads have made the given changes,
    one after the other. *)
Definition apply_ops (ops : list RegistryOp) (processes : list Proc)
  : list Proc :=
  foldl apply_op processes ops.

(** The body of the loop of lines 134-138 on each process of a list
    that no thread changes any more. *)
Fixpoint terminate_each (processes : list Proc) : M unit :=
  match processes with
  | [] => ret tt
  | p :: rest => try_except_pass (terminate p) >> terminate_each rest
  end.

(** Lines 134-138: [for p in processes] walks the global list itself,
    by position, while the worker threads go on changing it.  [steps]
    lists, for each pass of the loop in turn, the changes made between
    the [terminate()] call of that pass and the next look at the list;
    when it is used up the list changes no more.  [i] is the position
    of the list iterator, which is exhausted for good once it finds no
    element at its position. *)
Fixpoint terminate_all (steps : list (list RegistryOp)) (i : nat)
    (processes : list Proc) : M unit :=
  match steps with
  | [] => terminate_each (drop i processes)
  | ops :: steps' =>
      match processes !! i with
      | None => ret tt
      | Some p =>
          try_except_pass (terminate p) >>
          terminate_all steps' (S i) (apply_ops ops processes)
      end
  end.

(** Line 143: [[res for res in results if res is not None]]. *)
Definition found_of (res : list (option string)) : list string :=
  omap id res.

(** Lines 143-147. *)
Definition report (res : list (option string)) : M unit :=
  match found_of res with
  | [] => emit (EvPrint ReportNone)
  | v :: vs => emit (EvPrint (ReportFound (py_min v vs)))
  end.

Definition shutdown (st : State) (processes : list Proc)
    (steps : list (list RegistryOp)) : M unit :=
  terminate_all steps 0 processes >>
  emit (EvSleep 2000) >>
  report (results st).

(** The environment of one run: the ticks of the loop, the registry as
    the loop of line 134 finds it, and the changes the worker threads
    make to the registry while that loop runs. *)
Record World : Type := {
  ticks : list Tick;
  processes_at_shutdown : list Proc;
  registry_ops_at_shutdown : list (list RegistryOp)
}.

(** [main], lines 67-147. *)
Definition main (cfg : Config) (w : World) : M (State * LoopStatus) :=
  startup cfg >>
  let* (st, status) := main_loop cfg (ticks w) (initial_state cfg) in
  match status with
  | Running => ret (st, Running)
  | Exited =>
      shutdown st (processes_at_shutdown w) (registry_ops_at_shutdown w) >>
      ret (st, Exited)
  end.

(** ** Notions used to state the properties *)

(** The configuration of the worked example: range [100, 200], two
    segments, overlap 5. *)
Definition example_config : Config := {|
  TOTAL_START := 100; TOTAL_END := 200; NUM_SEGMENTS := 2; OVERLAP := 5;
  CHECKPOINT_INTERVAL := 3600; PROGRESS_THROTTLE := 10 |}.

(** A configuration the partitioner is meant for. *)
Definition valid_config (cfg : Config) : Prop :=
  TOTAL_END cfg > TOTAL_START cfg /\
  NUM_SEGMENTS cfg >= 1 /\
  0 <= OVERLAP cfg < (TOTAL_END cfg - TOTAL_START cfg) / NUM_SEGMENTS cfg.

Definition in_core (s : Segment) (x : Z) : Prop :=
  seg_start s <= x <= seg_end s.

Definition in_extended (s : Segment) (x : Z) : Prop :=
  ext_start s <= x <= ext_end s.

Definition core_length (s : Segment) : Z := seg_end s - seg_start s + 1.

Definition sum_core_lengths (segs : list Segment) : Z :=
  foldr (fun s acc => core_length s + acc) 0 segs.

(** Number of integers that lie in the extended ranges of both [s] and
    [s']: the size of the interval from the larger lower bound to the
    smaller upper bound. *)
Definition common_extended (s s' : Segment) : Z :=
  Z.max 0 (Z.min (ext_end s) (ext_end s')
           - Z.max (ext_start s) (ext_start s') + 1).

(** The segments handed to [worker], in start order. *)
Fixpoint spawned (tr : list Event) : list Segment :=
  match tr with
  | [] => []
  | EvSpawn s :: rest => s :: spawned rest
  | _ :: rest => spawned rest
  end.

(** The second field of a protocol line, [line.split(":")[1]]. *)
Definition field1 (line : string) : string :=
  default EmptyString (split_colon line !! 1%nat).

(** The value recorded for a [SUCCESS:] line (line 112). *)
Definition success_value (line : string) : string := strip (field1 line).

Definition is_get (e : Event) : bool :=
  match e with EvGet _ => true | _ => false end.

Definition is_success_get (e : Event) : bool :=
  match e with EvGet (_, line) => startswith "SUCCESS:" line | _ => false end.

Definition is_progress_get (e : Event) : bool :=
  match e with EvGet (_, line) => startswith "PROGRESS:" line | _ => false end.

Definition is_progress_log (e : Event) : bool :=
  match e with EvPrint (ProgressLog _ _) => true | _ => false end.

Definition count_events (f : Event -> bool) (tr : list Event) : nat :=
  length (List.filter f tr).

(** [ceil(a / b)] for a positive [b]. *)
Definition ceil_div (a b : Z) : Z := (a + b - 1) / b.

(** Reader threads are created with an index of [range(NUM_SEGMENTS)]
    (line 87), so every item carries a segment index below the length
    of [results]. *)
Definition arrivals_ok (n : nat) (arrivals : list (nat * list string)) : Prop :=
  Forall (fun a => (fst a < n)%nat) arrivals.

Definition tick_ok (n : nat) (t : Tick) : Prop :=
  match t with
  | Poll arrivals _ => arrivals_ok n arrivals
  | KeyboardInterrupt => True
  end.

Definition queues_ok (n : nat) (queues : list (list Item)) : Prop :=
  Forall (Forall (fun it : Item => (fst it < n)%nat)) queues.

(** The runs considered: start-up does not raise, the throttle is a
    positive constant, and items carry segment indices of the run. *)
Definition well_formed (cfg : Config) (w : World) : Prop :=
  NUM_SEGMENTS cfg <> 0 /\
  PROGRESS_THROTTLE cfg > 0 /\
  Forall (tick_ok (Z.to_nat (NUM_SEGMENTS cfg))) (ticks w).

(** No [SUCCESS:] line was dequeued along [tr], and the results are as
    they were. *)
Definition quiet (st st' : State) (tr : list Event) : Prop :=
  count_events is_success_get tr = 0%nat /\
  results st' = results st.

(** [tr] ends with the first [SUCCESS:] line dequeued and its log line;
    its value is recorded and the stop flag is set. *)
Definition found_by (st st' : State) (tr : list Event) : Prop :=
  exists tr0 seg_id line,
    tr = tr0 ++ [EvGet (seg_id, line);
                 EvPrint (SuccessLog seg_id (success_value line))] /\
    count_events is_success_get tr0 = 0%nat /\
    startswith "SUCCESS:" line = true /\
    (seg_id < length (results st))%nat /\
    results st' = <[seg_id := Some (success_value line)]> (results st) /\
    stop_event st' = true.

(** The value of a decimal numeral. *)
Definition numeric_value (s : string) : option Z :=
  option_map Z.of_int (NilZero.int_of_string s).

(** The values of the [SUCCESS:] lines the workers wrote, whether the
    coordinator dequeued them or not. *)
Definition emitted_success_values (ticks : list Tick) : list string :=
  flat_map (fun t =>
    match t with
    | Poll arrivals _ =>
        flat_map (fun a =>
          flat_map (fun line =>
            if startswith "SUCCESS:" (strip line)
            then [success_value (strip line)] else [])
          (snd a)) arrivals
    | KeyboardInterrupt => []
    end) ticks.

(** Events that are neither a dequeue nor a progress log line. *)
Definition silent (e : Event) : Prop :=
  is_get e = false /\ is_progress_log e = false.

(** The message of the final report for a results table. *)
Definition final_message (res : list (option string)) : Message :=
  match found_of res with
  | [] => ReportNone
  | v :: vs => ReportFound (py_min v vs)
  end.

(** What the final report may say of a results table: the no-result
    message only if no entry holds a value, and otherwise a value of the
    table that no value of the table is smaller than, as text. *)
Definition report_of_table (res : list (option string)) (m : Message) : Prop :=
  match m with
  | ReportNone => Forall (fun r => r = None) res
  | ReportFound v =>
      Some v ∈ res /\ forall x, Some x ∈ res -> String.ltb x v = false
  | _ => False
  end.

(** The handles the worker threads append. *)
Definition appended (ops : list RegistryOp) : list Proc :=
  flat_map (fun op => match op with Append p => [p] | Remove _ => [] end) ops.

(** The handles registered only while the shutdown phase walks the
    registry. *)
Definition late_registrations (steps : list (list RegistryOp)) : list Proc :=
  flat_map appended steps.

(** No worker thread changes the registry while the shutdown phase
    walks it. *)
Definition registry_at_rest (steps : list (list RegistryOp)) : Prop :=
  Forall (fun ops => ops = []) steps.

(** The [terminate()] calls of a trace, in order. *)
Fixpoint terminated (tr : list Event) : list Proc :=
  match tr with
  | [] => []
  | EvTerminate p :: rest => p :: terminated rest
  | _ :: rest => terminated rest
  end.

(** The first [SUCCESS:] item dequeued along a trace. *)
Fixpoint first_success_get (tr : list Event) : option Item :=
  match tr with
  | [] => None
  | EvGet (seg_id, line) :: rest =>
      if startswith "SUCCESS:" line then Some (seg_id, line)
      else first_success_get rest
  | _ :: rest => first_success_get rest
  end.

(** A worker process that is still running. *)
Definition running (i : nat) : Proc :=
  {| pid := i; returncode := None; terminate_raises := false |}.

(** A run of the example configuration: when the loop starts, worker 0
    has written a progress line and then [SUCCESS:120], worker 1 has
    written [SUCCESS:180]; both processes are still running. *)
Definition example_world : World := {|
  ticks := [Poll [(0%nat, ["PROGRESS:101"; "SUCCESS:120"]);
                  (1%nat, ["SUCCESS:180"])]
                 [running 0; running 1]];
  processes_at_shutdown := [running 0; running 1];
  registry_ops_at_shutdown := []
|}.

(** A worker process that has exited with the given code. *)
Definition exited (i : nat) (code : Z) : Proc :=
  {| pid := i; returncode := Some code; terminate_raises := false |}.

(** ** The worker thread (lines 32-65) *)

(** [str(n)] for an integer. *)
Definition py_str (n : Z) : string := NilZero.string_of_int (Z.to_int n).

(** Line 84: [f"checkpoint_{i}.bin"]. *)
Definition checkpoint_file (i : nat) : string :=
  ("checkpoint_" ++ py_str (Z.of_nat i) ++ ".bin")%string.

(** Lines 35-42: the command line of the child process. *)
Definition worker_command (cfg : Config) (seg_id : nat) (start stop : Z)
  (checkpoint_file : string) : list string :=
  let affinity_cmd := ["taskset"; "-c"; py_str (Z.of_nat seg_id mod 64)] in
  affinity_cmd ++ ["./prime_search"; py_str start; py_str stop;
                   checkpoint_file; py_str (CHECKPOINT_INTERVAL cfg)].

(** Line 87: the arguments [main] starts the worker of a segment with. *)
Definition spawn_command (cfg : Config) (s : Segment) : list string :=
  worker_command cfg (seg_index s) (ext_start s) (ext_end s)
                 (checkpoint_file (checkpoint s)).

(** The items of the successful [get_nowait()] calls of a trace. *)
Fixpoint dequeued (tr : list Event) : list Item :=
  match tr with
  | [] => []
  | EvGet it :: rest => it :: dequeued rest
  | _ :: rest => dequeued rest
  end.

Definition is_report (e : Event) : bool :=
  match e with
  | EvPrint (ReportFound _) | EvPrint ReportNone => true
  | _ => false
  end.

(** A string without a colon. *)
Fixpoint no_colon (s : string) : bool :=
  match s with
  | EmptyString => true
  | String c rest => negb (Ascii.eqb c ":"%char) && no_colon rest
  end.

(** Text made of characters below 128 only.  On such text
    [str.strip()], [\s] and [\d] see exactly what [is_space] and
    [is_digit] see, [mpz] reads every digit run, and reading the file
    cannot fail to decode; text beyond it is not described by the
    string functions of this file. *)
Fixpoint ascii_only (s : string) : bool :=
  match s with
  | EmptyString => true
  | String c rest => (nat_of_ascii c <? 128)%nat && ascii_only rest
  end.

(** A string of whitespace only. *)
Fixpoint all_space (s : string) : bool :=
  match s with
  | EmptyString => true
  | String c rest => is_space c && all_space rest
  end.

(** The log lines printed while an item is classified. *)
Definition is_item_print (e : Event) : bool :=
  match e with
  | EvPrint (ProgressLog _ _) | EvPrint (SuccessLog _ _)
  | EvPrint (InfoLog _ _) => true
  | _ => false
  end.

(** The events of the polling loop: dequeues, item log lines, the idle
    sleep and the interrupt message. *)
Definition loop_event (e : Event) : Prop :=
  match e with
  | EvGet _ => True
  | EvSleep millis => millis = 10
  | EvPrint (ProgressLog _ _) | EvPrint (SuccessLog _ _)
  | EvPrint (InfoLog _ _) | EvPrint InterruptLog => True
  | _ => False
  end.

(** The example configuration with the throttle set to zero. *)
Definition zero_throttle_config : Config := {|
  TOTAL_START := 100; TOTAL_END := 200; NUM_SEGMENTS := 2; OVERLAP := 5;
  CHECKPOINT_INTERVAL := 3600; PROGRESS_THROTTLE := 0 |}.

(** The events of start-up: the banner and segment lines, the thread
    starts and the pauses between them. *)
Definition startup_event (e : Event) : Prop :=
  match e with
  | EvPrint Rule | EvPrint Title | EvPrint (TotalRange _ _)
  | EvPrint (SegmentCount _ _) | EvPrint (CheckpointEvery _)
  | EvPrint (SegmentLog _) | EvSpawn _ => True
  | EvSleep millis => millis = 200
  | _ => False
  end.

(** Everything that can happen before the shutdown phase. *)
Definition pre_shutdown_event (e : Event) : Prop :=
  startup_event e \/ loop_event e.

(** ** The window test (search_solution_near_known.py, analyze_data.py)

    [gmpy2.is_prime] is a library function and is taken as a parameter;
    [mpz] values are arbitrary-precision integers, modelled by [Z]. *)

(** search_solution_near_known.py, lines 12-18: the loop of
    [count_primes_in_window] over the remaining indices, with the
    [break] once the count exceeds 12. *)
Fixpoint count_primes_loop (is_prime : Z -> bool) (start : Z) (idx : list nat)
  (count : Z) : Z :=
  match idx with
  | [] => count
  | i :: rest =>
      if is_prime (start + Z.of_nat i) then
        let count := count + 1 in
        if count >? 12 then count
        else count_primes_loop is_prime start rest count
      else count_primes_loop is_prime start rest count
  end.

Definition count_primes_in_window (is_prime : Z -> bool) (start : Z) : Z :=
  count_primes_loop is_prime start (py_range 2004) 0.

(** analyze_data.py, lines 24-25. *)
Definition WINDOW_LEN : Z := 2004.
Definition TARGET : Z := 12.

(** analyze_data.py, lines 53-58: the loop of [verify_solution]; [None]
    stands for the [return False] inside the loop. *)
Fixpoint verify_loop (is_prime : Z -> bool) (N : Z) (idx : list nat)
  (count : Z) : option Z :=
  match idx with
  | [] => Some count
  | i :: rest =>
      if is_prime (N + Z.of_nat i) then
        let count := count + 1 in
        if count >? TARGET then None
        else verify_loop is_prime N rest count
      else verify_loop is_prime N rest count
  end.

(** analyze_data.py, lines 51-59. *)
Definition verify_solution (is_prime : Z -> bool) (N : Z) : bool :=
  match verify_loop is_prime N (py_range WINDOW_LEN) 0 with
  | None => false
  | Some count => count =? TARGET
  end.

(** The number of indices of [idx] at which the window holds a prime. *)
Definition primes_among (is_prime : Z -> bool) (start : Z) (idx : list nat) : Z :=
  Z.of_nat (length (List.filter (fun i => is_prime (start + Z.of_nat i)) idx)).

(** ** The solution files (analyze_data.py, lines 34-49, 227-230, 260-262) *)

(** The line written for a solution: [f"N={N}\n"] (analyze_data.py line
    262, search_solution_near_known.py line 34). *)
Definition solution_line (N : Z) : string :=
  ("N=" ++ py_str N ++ String (ascii_of_nat 10) EmptyString)%string.

(** [\d], for characters below 128: the ten digits.  (Beyond 128 the
    pattern also matches the decimal digits of other scripts, which
    [mpz] refuses; see [ascii_only].) *)
Definition is_digit (c : ascii) : bool :=
  let n := nat_of_ascii c in (48 <=? n)%nat && (n <=? 57)%nat.

(** [\d*], greedy: the longest run of digits at the start. *)
Fixpoint take_digits (s : string) : string :=
  match s with
  | EmptyString => EmptyString
  | String c rest => if is_digit c then String c (take_digits rest) else EmptyString
  end.

(** The pattern [N\s*=\s*(\d+)] tried at the start of [s]; the result is
    group 1.  A whitespace run is followed by a character that is not
    whitespace and the digit run ends the pattern, so taking the longest
    runs loses no match. *)
Definition match_solution_here (s : string) : option string :=
  match s with
  | String c rest =>
      if Ascii.eqb c "N"%char then
        match lstrip rest with
        | String e rest' =>
            if Ascii.eqb e "="%char then
              match take_digits (lstrip rest') with
              | EmptyString => None
              | digits => Some digits
              end
            else None
        | EmptyString => None
        end
      else None
  | EmptyString => None
  end.

(** [pattern.search(line)]: the match at the leftmost position that has
    one. *)
Fixpoint search_solution (s : string) : option string :=
  match match_solution_here s with
  | Some digits => Some digits
  | None =>
      match s with
      | EmptyString => None
      | String _ rest => search_solution rest
      end
  end.

(** What reading a file can end in: the value returned, or the
    [ValueError] of [mpz] on text that is not a number. *)
Inductive Parsed (A : Type) : Type :=
  | Returned (a : A)
  | ValueError.
Arguments Returned {A} a.
Arguments ValueError {A}.

(** Lines 40-43: the values added to the set, in line order. *)
Fixpoint parse_lines (lines : list string) : Parsed (list Z) :=
  match lines with
  | [] => Returned []
  | line :: rest =>
      match search_solution line with
      | None => parse_lines rest
      | Some digits =>
          match numeric_value digits with
          | None => ValueError
          | Some n =>
              match parse_lines rest with
              | Returned ns => Returned (n :: ns)
              | ValueError => ValueError
              end
          end
      end
  end.

(** The two [print] calls of [parse_solutions]. *)
Inductive ParseMessage : Type :=
  | FileNotFound
  | ReadUnique (n : nat).

(** [parse_solutions], lines 34-49; [file] is [None] when [open] raises
    [FileNotFoundError], and otherwise the lines of the file, taken to
    be text of characters below 128 ([ascii_only]).
    [sorted(solutions)] of a set is the increasing list of its
    elements. *)
Definition parse_solutions (file : option (list string))
  : list ParseMessage * Parsed (list Z) :=
  match file with
  | None => ([FileNotFound], Returned [])
  | Some lines =>
      match parse_lines lines with
      | ValueError => ([], ValueError)
      | Returned ns =>
          let sol_list := merge_sort Z.le (remove_dups ns) in
          ([ReadUnique (length sol_list)], Returned sol_list)
      end
  end.

(** Lines 260-262: the lines written to [verified_solutions.txt]. *)
Definition write_solutions (verified : list Z) : list string :=
  solution_line <$> verified.

(** Lines 227-230: the gaps between consecutive verified solutions. *)
Definition gaps (verified : list Z) : list Z :=
  (fun i => nth i verified 0 - nth (i - 1) verified 0)
  <$> seq 1 (length verified - 1).

Definition sum_list (l : list Z) : Z := foldr Z.add 0 l.

Fixpoint all_digits (s : string) : bool :=
  match s with
  | EmptyString => true
  | String c rest => is_digit c && all_digits rest
  end.

(** The value [parse_solutions] adds for one line, if any. *)
Definition parse_line (line : string) : option Z :=
  match search_solution line with
  | Some digits => numeric_value digits
  | None => None
  end.

(** ** The analysis and the search (analyze_data.py lines 209-219,
    search_solution_near_known.py lines 20-42) *)

(** analyze_data.py, lines 22-23, and the same [KNOWN_N] at line 7 of
    search_solution_near_known.py. *)
Definition KNOWN_N : Z :=
  283652129125808400513278476301455085008845288816557395539337194639631785.
Definition RADIUS : Z := 10 ^ 9.

(** search_solution_near_known.py, lines 8-9. *)
Definition SEARCH_RADIUS : Z := 10 ^ 8.
Definition TOTAL_SAMPLES : Z := 50000.

(** analyze_data.py, lines 209-211 (the list; the message of line 212
    is not modelled). *)
Definition valid_sols (solutions : list Z) : list Z :=
  let low_bound := KNOWN_N - RADIUS in
  let high_bound := KNOWN_N + RADIUS in
  List.filter (fun N => (low_bound <=? N) && (N <=? high_bound)) solutions.

(** analyze_data.py, lines 215-219: the solutions that pass
    [verify_solution], in order (the list; the progress message of line
    217 is not modelled). *)
Fixpoint verified_sols (is_prime : Z -> bool) (valid : list Z) : list Z :=
  match valid with
  | [] => []
  | N :: rest =>
      if verify_solution is_prime N
      then N :: verified_sols is_prime rest
      else verified_sols is_prime rest
  end.

(** [analyze], lines 202-262, as far as [verified_solutions.txt] goes:
    the lines written to it at lines 260-262, or [None] when [analyze]
    returns before, at lines 205-206 for an empty list of solutions or
    at lines 222-224 for an empty list of verified ones.  The messages,
    the statistics of the report and the plots are not modelled. *)
Definition analyze (is_prime : Z -> bool) (file : option (list string))
  : Parsed (option (list string)) :=
  match snd (parse_solutions file) with
  | ValueError => ValueError
  | Returned solutions =>
      match solutions with
      | [] => Returned None
      | _ :: _ =>
          let verified := verified_sols is_prime (valid_sols solutions) in
          match verified with
          | [] => Returned None
          | _ :: _ => Returned (Some (write_solutions verified))
          end
      end
  end.

(** What the search does besides computing: the lines it appends to
    [local_solutions.txt] and its messages. *)
Inductive SearchEvent : Type :=
  | SearchStart                               (* line 21 *)
  | SearchWrite (line : string)               (* line 34 *)
  | SearchFound (found : Z) (candidate : Z)   (* line 37 *)
  | SearchProgress (i : nat)                  (* line 40 *)
  | SearchDone (found : Z).                   (* line 42 *)

(** search_solution_near_known.py, lines 24-40: the sampling loop over
    the remaining indices; [rand i] is the offset that
    [random.randint(-RADIUS, RADIUS)] returns in pass [i]. *)
Fixpoint search_loop (is_prime : Z -> bool) (rand : nat -> Z) (idx : list nat)
  (found : Z) : list SearchEvent * Z :=
  match idx with
  | [] => ([], found)
  | i :: rest =>
      let offset := rand i in
      let candidate := KNOWN_N + offset in
      if candidate <? 1 then search_loop is_prime rand rest found
      else
        let count := count_primes_in_window is_prime candidate in
        let '(ev1, found1) :=
          if count =? 12
          then ([SearchWrite (solution_line candidate);
                 SearchFound (found + 1) candidate], found + 1)
          else ([], found) in
        let ev2 :=
          if Z.of_nat i mod 100000 =? 0 then [SearchProgress i] else [] in
        let '(ev, found') := search_loop is_prime rand rest found1 in
        (ev1 ++ ev2 ++ ev, found')
  end.

(** search_solution_near_known.py, lines 20-42. *)
Definition search_main (is_prime : Z -> bool) (rand : nat -> Z)
  : list SearchEvent :=
  let '(ev, found) :=
    search_loop is_prime rand (py_range TOTAL_SAMPLES) 0 in
  SearchStart :: ev ++ [SearchDone found].

(** The lines a run of the search appends to its file. *)
Fixpoint written_lines (ev : list SearchEvent) : list string :=
  match ev with
  | [] => []
  | SearchWrite line :: rest => line :: written_lines rest
  | _ :: rest => written_lines rest
  end.

(** The candidates of the given passes that hold exactly 12 primes in
    their window. *)
Definition accepted (is_prime : Z -> bool) (rand : nat -> Z) (idx : list nat)
  : list Z :=
  List.filter (fun c => negb (c <? 1) && (count_primes_in_window is_prime c =? 12))
              ((fun i => KNOWN_N + rand i) <$> idx).

(** * Properties of the partitioner *)

Lemma segment_length_nonzero (cfg : Config) :
  NUM_SEGMENTS cfg <> 0 ->
  segment_length cfg
  = ([], Ok ((TOTAL_END cfg - TOTAL_START cfg) / NUM_SEGMENTS cfg)).
Proof.
  intros Hn. unfold segment_length, floordiv.
  destruct (Z.eqb_spec (NUM_SEGMENTS cfg) 0); [contradiction | reflexivity].
Qed.

Lemma partition_nonzero (cfg : Config) :
  NUM_SEGMENTS cfg <> 0 ->
  partition cfg
  = ([], Ok (make_segment cfg
               ((TOTAL_END cfg - TOTAL_START cfg) / NUM_SEGMENTS cfg)
             <$> py_range (NUM_SEGMENTS cfg))).
Proof.
  intros Hn. unfold partition. rewrite segment_length_nonzero by assumption.
  reflexivity.
Qed.

Lemma lookup_segments (cfg : Config) (len : Z) (n : Z) (i : nat) (s : Segment) :
  (make_segment cfg len <$> py_range n) !! i = Some s ->
  (Z.of_nat i < n) /\ s = make_segment cfg len i.
Proof.
  unfold py_range. rewrite list_lookup_fmap.
  destruct (seq 0 (Z.to_nat n) !! i) as [k|] eqn:Hk; simpl; [|discriminate].
  apply lookup_seq in Hk as [-> Hlt]. intros [= <-]. split; [lia | reflexivity].
Qed.

Lemma segments_lookup (cfg : Config) (len : Z) (n : Z) (i : nat) :
  Z.of_nat i < n ->
  (make_segment cfg len <$> py_range n) !! i = Some (make_segment cfg len i).
Proof.
  intros Hi. unfold py_range. rewrite list_lookup_fmap.
  rewrite (lookup_seq_lt 0 (Z.to_nat n) i) by lia. reflexivity.
Qed.

(** Under a valid configuration the segment length is at least one and
    the equal-length part fits in the total range. *)
Lemma valid_segment_length (cfg : Config) :
  valid_config cfg ->
  let len := (TOTAL_END cfg - TOTAL_START cfg) / NUM_SEGMENTS cfg in
  1 <= len /\ NUM_SEGMENTS cfg * len <= TOTAL_END cfg - TOTAL_START cfg.
Proof.
  intros (Hrange & Hn & Hov) len. split; [subst len; lia|].
  subst len. apply Z.mul_div_le. lia.
Qed.

Lemma core_bounds (cfg : Config) (len : Z) (i : nat) :
  seg_start (make_segment cfg len i) = TOTAL_START cfg + Z.of_nat i * len /\
  seg_end (make_segment cfg len i)
  = (if Z.of_nat i <? NUM_SEGMENTS cfg - 1
     then TOTAL_START cfg + (Z.of_nat i + 1) * len - 1
     else TOTAL_END cfg).
Proof. split; reflexivity. Qed.

Lemma sum_core_lengths_app (l1 l2 : list Segment) :
  sum_core_lengths (l1 ++ l2) = sum_core_lengths l1 + sum_core_lengths l2.
Proof.
  induction l1 as [|s l1 IH]; simpl; [reflexivity|].
  unfold sum_core_lengths in *. simpl. rewrite IH. lia.
Qed.

(** Every segment but the last has exactly [len] core values. *)
Lemma sum_inner_cores (cfg : Config) (len : Z) (k a : nat) :
  Z.of_nat (a + k) <= NUM_SEGMENTS cfg - 1 ->
  sum_core_lengths (make_segment cfg len <$> seq a k) = Z.of_nat k * len.
Proof.
  revert a. induction k as [|k IH]; intros a Hle; [reflexivity|].
  cbn [seq fmap list_fmap]. unfold sum_core_lengths in *. cbn [foldr].
  rewrite (IH (S a)) by lia.
  unfold core_length. destruct (core_bounds cfg len a) as [-> ->].
  destruct (Z.ltb_spec (Z.of_nat a) (NUM_SEGMENTS cfg - 1)); lia.
Qed.

(** C2. For every valid configuration the partitioner returns
    [NUM_SEGMENTS] segments whose core ranges are contiguous in index
    order (each one starts right after the previous one ends, the first
    at [TOTAL_START], the last ending at [TOTAL_END]); an integer lies in
    [TOTAL_START, TOTAL_END] exactly when it lies in some core range, no
    integer lies in two of them, and the core lengths add up to
    [TOTAL_END - TOTAL_START + 1]. *)
Theorem core_ranges_tile_total_range (cfg : Config) :
  valid_config cfg ->
  exists segs,
    partition cfg = ([], Ok segs) /\
    length segs = Z.to_nat (NUM_SEGMENTS cfg) /\
    (forall s, segs !! 0%nat = Some s -> seg_start s = TOTAL_START cfg) /\
    (forall i s s', segs !! i = Some s -> segs !! S i = Some s' ->
                    seg_start s' = seg_end s + 1) /\
    (forall s, last segs = Some s -> seg_end s = TOTAL_END cfg) /\
    (forall x, TOTAL_START cfg <= x <= TOTAL_END cfg <->
               exists i s, segs !! i = Some s /\ in_core s x) /\
    (forall i j s s' x, segs !! i = Some s -> segs !! j = Some s' ->
                        in_core s x -> in_core s' x -> i = j) /\
    sum_core_lengths segs = TOTAL_END cfg - TOTAL_START cfg + 1.
Proof.
  intros Hvalid.
  pose proof (valid_segment_length cfg Hvalid) as [Hlen Hfit].
  destruct Hvalid as (Hrange & Hn & Hov).
  set (len := (TOTAL_END cfg - TOTAL_START cfg) / NUM_SEGMENTS cfg) in *.
  set (n := NUM_SEGMENTS cfg) in *.
  exists (make_segment cfg len <$> py_range n).
  split; [apply partition_nonzero; fold n; lia|].
  split; [unfold py_range; rewrite length_fmap, length_seq; reflexivity|].
  split.
  { intros s Hs. apply lookup_segments in Hs as [_ ->]. simpl. lia. }
  split.
  { intros i s s' Hs Hs'.
    apply lookup_segments in Hs as [Hi ->].
    apply lookup_segments in Hs' as [Hi' ->].
    destruct (core_bounds cfg len i) as [_ ->].
    destruct (core_bounds cfg len (S i)) as [-> _]. fold n.
    destruct (Z.ltb_spec (Z.of_nat i) (n - 1)); lia. }
  split.
  { intros s Hs.
    assert (Hl : length (make_segment cfg len <$> py_range n) = Z.to_nat n)
      by (unfold py_range; rewrite length_fmap, length_seq; reflexivity).
    rewrite last_lookup, Hl in Hs.
    apply lookup_segments in Hs as [Hi ->].
    destruct (core_bounds cfg len (Nat.pred (Z.to_nat n))) as [_ ->]. fold n.
    destruct (Z.ltb_spec (Z.of_nat (Nat.pred (Z.to_nat n))) (n - 1)); lia. }
  split.
  { intros x. split.
    - intros Hx.
      set (q := (x - TOTAL_START cfg) / len).
      assert (Hq : 0 <= q) by (apply Z.div_pos; lia).
      assert (Hlo : len * q <= x - TOTAL_START cfg)
        by (apply Z.mul_div_le; lia).
      assert (Hhi : x - TOTAL_START cfg < len * (q + 1)).
      { replace (q + 1) with (Z.succ q) by lia.
        apply Z.mul_succ_div_gt. lia. }
      destruct (Z.ltb_spec q (n - 1)) as [Hin | Hlast].
      + exists (Z.to_nat q), (make_segment cfg len (Z.to_nat q)).
        split; [apply segments_lookup; lia|].
        unfold in_core.
        destruct (core_bounds cfg len (Z.to_nat q)) as [-> ->]. fold n.
        rewrite Z2Nat.id by lia.
        destruct (Z.ltb_spec q (n - 1)); lia.
      + exists (Z.to_nat (n - 1)), (make_segment cfg len (Z.to_nat (n - 1))).
        split; [apply segments_lookup; lia|].
        unfold in_core.
        destruct (core_bounds cfg len (Z.to_nat (n - 1))) as [-> ->]. fold n.
        rewrite Z2Nat.id by lia.
        destruct (Z.ltb_spec (n - 1) (n - 1)); [lia|]. nia.
    - intros (i & s & Hs & Hx).
      apply lookup_segments in Hs as [Hi ->].
      unfold in_core in Hx.
      destruct (core_bounds cfg len i) as [Hs He]. rewrite Hs, He in Hx.
      fold n in Hx.
      destruct (Z.ltb_spec (Z.of_nat i) (n - 1)); nia. }
  split.
  { assert (Hlt : forall i j x, Z.of_nat j < n -> (i < j)%nat ->
                    in_core (make_segment cfg len i) x ->
                    in_core (make_segment cfg len j) x -> False).
    { intros i j x Hj Hij Hx Hx'. unfold in_core in *.
      destruct (core_bounds cfg len i) as [_ He]. rewrite He in Hx.
      destruct (core_bounds cfg len j) as [Hs _]. rewrite Hs in Hx'.
      fold n in Hx.
      destruct (Z.ltb_spec (Z.of_nat i) (n - 1)); nia. }
    intros i j s s' x Hs Hs' Hx Hx'.
    apply lookup_segments in Hs as [Hi ->].
    apply lookup_segments in Hs' as [Hj ->].
    destruct (Nat.lt_trichotomy i j) as [Hij | [Hij | Hij]]; [|assumption|].
    - exfalso. exact (Hlt i j x Hj Hij Hx Hx').
    - exfalso. exact (Hlt j i x Hi Hij Hx' Hx). }
  unfold py_range.
  replace (Z.to_nat n) with (Z.to_nat (n - 1) + 1)%nat by lia.
  rewrite seq_app, fmap_app, sum_core_lengths_app.
  rewrite sum_inner_cores by (fold n; lia).
  cbn [seq fmap list_fmap]. unfold sum_core_lengths. cbn [foldr].
  unfold core_length.
  destruct (core_bounds cfg len (0 + Z.to_nat (n - 1))) as [-> ->]. fold n.
  destruct (Z.ltb_spec (Z.of_nat (0 + Z.to_nat (n - 1))) (n - 1)); [lia|].
  rewrite Nat.add_0_l, Z2Nat.id by lia. lia.
Qed.

(** The configuration written in the script is valid, so its core ranges
    tile the total range. *)
Lemma core_ranges_tile_total_range_witness :
  valid_config source_config /\
  exists segs,
    partition source_config = ([], Ok segs) /\
    length segs = Z.to_nat (NUM_SEGMENTS source_config) /\
    (forall s, segs !! 0%nat = Some s -> seg_start s = TOTAL_START source_config) /\
    (forall i s s', segs !! i = Some s -> segs !! S i = Some s' ->
                    seg_start s' = seg_end s + 1) /\
    (forall s, last segs = Some s -> seg_end s = TOTAL_END source_config) /\
    (forall x, TOTAL_START source_config <= x <= TOTAL_END source_config <->
               exists i s, segs !! i = Some s /\ in_core s x) /\
    (forall i j s s' x, segs !! i = Some s -> segs !! j = Some s' ->
                        in_core s x -> in_core s' x -> i = j) /\
    sum_core_lengths segs
    = TOTAL_END source_config - TOTAL_START source_config + 1.
Proof.
  split.
  - unfold valid_config; simpl. repeat split; try lia; vm_compute; congruence.
  - apply (core_ranges_tile_total_range source_config).
    unfold valid_config; simpl. repeat split; try lia; vm_compute; congruence.
Defined.

(** C4, as the claim states it, fails on the example configuration: the
    extended ranges of segments 0 and 1 are [100, 154] and [145, 200],
    neither the upper bound 154 nor the lower bound 145 was clipped, and
    they share the ten integers 145..154, which is neither the overlap 5
    nor fewer. *)
Lemma adjacent_extended_ranges_share_ten :
  exists s0 s1,
    partition example_config = ([], Ok [s0; s1]) /\
    (ext_start s0, ext_end s0) = (100, 154) /\
    (ext_start s1, ext_end s1) = (145, 200) /\
    ext_end s0 = seg_end s0 + OVERLAP example_config /\
    ext_start s1 = seg_start s1 - OVERLAP example_config /\
    common_extended s0 s1 = 10 /\
    OVERLAP example_config = 5 /\
    ~ common_extended s0 s1 <= OVERLAP example_config.
Proof.
  eexists _, _. split; [reflexivity|].
  repeat split; vm_compute; congruence.
Qed.

(** C4 (amended). For every valid configuration and every two
    consecutive segments, neither the upper extended bound of the first
    nor the lower extended bound of the second is clipped, the integers
    common to the two extended ranges are exactly those from
    [seg_start s' - OVERLAP] to [seg_end s + OVERLAP], and there are
    [2 * OVERLAP] of them. *)
Theorem adjacent_extended_ranges_share_twice_overlap
  (cfg : Config) (segs : list Segment) (i : nat) (s s' : Segment) :
  valid_config cfg ->
  partition cfg = ([], Ok segs) ->
  segs !! i = Some s ->
  segs !! S i = Some s' ->
  ext_end s = seg_end s + OVERLAP cfg /\
  ext_start s' = seg_start s' - OVERLAP cfg /\
  (forall x, in_extended s x /\ in_extended s' x <->
             seg_start s' - OVERLAP cfg <= x <= seg_end s + OVERLAP cfg) /\
  common_extended s s' = 2 * OVERLAP cfg.
Proof.
  intros Hvalid Hpart Hs Hs'.
  pose proof (valid_segment_length cfg Hvalid) as [Hlen Hfit].
  destruct Hvalid as (Hrange & Hn & Hov).
  rewrite partition_nonzero in Hpart by lia.
  injection Hpart as <-.
  set (len := (TOTAL_END cfg - TOTAL_START cfg) / NUM_SEGMENTS cfg) in *.
  set (n := NUM_SEGMENTS cfg) in *.
  apply lookup_segments in Hs as [Hi ->].
  apply lookup_segments in Hs' as [Hi' ->].
  unfold in_extended, common_extended, make_segment; cbn [ext_start ext_end seg_start seg_end].
  fold n.
  destruct (Z.ltb_spec (Z.of_nat i) (n - 1)); [|lia].
  assert (Hmul1 : (Z.of_nat i + 1) * len <= (n - 1) * len) by nia.
  assert (Hmul0 : 0 <= Z.of_nat i * len) by nia.
  assert (HS : Z.of_nat (S i) * len = (Z.of_nat i + 1) * len) by (f_equal; lia).
  destruct (Z.ltb_spec (Z.of_nat (S i)) (n - 1)).
  - assert (Hmul2 : (Z.of_nat (S i) + 1) * len <= (n - 1) * len) by nia.
    assert (HS2 : (Z.of_nat (S i) + 1) * len = (Z.of_nat i + 1) * len + len)
      by nia.
    repeat split; try lia.
  - repeat split; try lia.
Qed.

(** The example configuration is valid and its two segments are
    consecutive. *)
Lemma adjacent_extended_ranges_share_twice_overlap_witness :
  valid_config example_config /\
  common_extended (make_segment example_config 50 0)
                  (make_segment example_config 50 1)
  = 2 * OVERLAP example_config.
Proof.
  split.
  - unfold valid_config; simpl. repeat split; try lia; vm_compute; congruence.
  - apply (adjacent_extended_ranges_share_twice_overlap example_config
             [make_segment example_config 50 0; make_segment example_config 50 1]
             0%nat).
    + unfold valid_config; simpl. repeat split; try lia; vm_compute; congruence.
    + reflexivity.
    + reflexivity.
    + reflexivity.
Defined.

(** C5, as the claim states it, fails: the extended range of segment 0
    starts at 100, because line 82 clips it at [TOTAL_START], not at 95. *)
Lemma example_segment0_not_from_95 :
  ~ exists s0 s1,
      partition example_config = ([], Ok [s0; s1]) /\
      (seg_start s0, seg_end s0) = (100, 149) /\
      (ext_start s0, ext_end s0) = (95, 154) /\
      (seg_start s1, seg_end s1) = (150, 200) /\
      (ext_start s1, ext_end s1) = (145, 200).
Proof.
  intros (s0 & s1 & Hpart & _ & Hext & _).
  vm_compute in Hpart. injection Hpart as <- <-.
  vm_compute in Hext. discriminate.
Qed.

(** C5 (amended). With [TOTAL_START = 100], [TOTAL_END = 200], two
    segments and overlap 5, segment 0 has core [100, 149] and extended
    range [100, 154], segment 1 has core [150, 200] and extended range
    [145, 200]; these are the ranges the workers are started with. *)
Theorem example_partition :
  exists s0 s1,
    partition example_config = ([], Ok [s0; s1]) /\
    spawned (fst (startup example_config)) = [s0; s1] /\
    (seg_index s0, seg_index s1) = (0%nat, 1%nat) /\
    (seg_start s0, seg_end s0) = (100, 149) /\
    (ext_start s0, ext_end s0) = (100, 154) /\
    (seg_start s1, seg_end s1) = (150, 200) /\
    (ext_start s1, ext_end s1) = (145, 200).
Proof.
  eexists _, _. split; [reflexivity|].
  repeat split; vm_compute; reflexivity.
Qed.

Lemma start_workers_spec (cfg : Config) (len : Z) (idx : list nat) :
  exists tr,
    start_workers cfg len idx = (tr, Ok (make_segment cfg len <$> idx)) /\
    spawned tr = make_segment cfg len <$> idx.
Proof.
  induction idx as [|i idx (tr & Heq & Hsp)].
  - exists []. split; reflexivity.
  - cbn [start_workers]. rewrite Heq. unfold bind, emit, ret.
    eexists. split; [reflexivity|]. cbn. rewrite app_nil_r, Hsp. reflexivity.
Qed.

(** C6, as the claim states it, fails: with [TOTAL_END <= TOTAL_START]
    start-up raises nothing and starts both workers, and with a negative
    segment count it raises nothing either. *)
Lemma bad_bounds_are_not_rejected :
  let reversed := {| TOTAL_START := 200; TOTAL_END := 100; NUM_SEGMENTS := 2;
                     OVERLAP := 5; CHECKPOINT_INTERVAL := 3600;
                     PROGRESS_THROTTLE := 10 |} in
  let negative := {| TOTAL_START := 100; TOTAL_END := 200; NUM_SEGMENTS := -3;
                     OVERLAP := 5; CHECKPOINT_INTERVAL := 3600;
                     PROGRESS_THROTTLE := 10 |} in
  TOTAL_END reversed <= TOTAL_START reversed /\
  (exists s0 s1, snd (partition reversed) = Ok [s0; s1] /\
                 snd (startup reversed) = Ok [s0; s1] /\
                 spawned (fst (startup reversed)) = [s0; s1]) /\
  NUM_SEGMENTS negative < 1 /\
  snd (partition negative) = Ok [] /\
  snd (startup negative) = Ok [].
Proof.
  cbv zeta. split; [simpl; lia|]. split.
  - eexists _, _. repeat split; vm_compute; reflexivity.
  - split; [simpl; lia|]. split; vm_compute; reflexivity.
Qed.

(** C6 (amended). Start-up validates nothing.  It fails only when
    [NUM_SEGMENTS] is zero, with the [ZeroDivisionError] of line 76,
    raised before any worker is started.  For every other configuration,
    [TOTAL_END <= TOTAL_START] and negative segment counts included, it
    raises nothing and starts one worker per index of
    [range(NUM_SEGMENTS)], which is none when the count is negative. *)
Theorem startup_fails_only_on_zero_segments (cfg : Config) :
  let n := NUM_SEGMENTS cfg in
  let segs := make_segment cfg ((TOTAL_END cfg - TOTAL_START cfg) / n)
              <$> py_range n in
  snd (partition cfg)
  = (if n =? 0 then Raise ZeroDivisionError else Ok segs) /\
  snd (startup cfg)
  = (if n =? 0 then Raise ZeroDivisionError else Ok segs) /\
  spawned (fst (startup cfg)) = (if n =? 0 then [] else segs) /\
  length segs = Z.to_nat n.
Proof.
  cbv zeta. unfold startup, partition, segment_length, floordiv.
  destruct (Z.eqb_spec (NUM_SEGMENTS cfg) 0) as [Hz | Hnz].
  - rewrite Hz. repeat split.
  - destruct (start_workers_spec cfg
                ((TOTAL_END cfg - TOTAL_START cfg) / NUM_SEGMENTS cfg)
                (py_range (NUM_SEGMENTS cfg))) as (tr & Heq & Hsp).
    unfold banner, bind, emit, ret. cbn. rewrite Heq. cbn.
    repeat split; try assumption.
    unfold py_range. rewrite length_fmap, length_seq. reflexivity.
Qed.

(** * Properties of the line protocol *)

Lemma startswith_inv (p line : string) :
  startswith p line = true -> exists rest, line = (p ++ rest)%string.
Proof.
  unfold startswith. revert line.
  induction p as [|a p IH]; intros line H.
  - exists line. reflexivity.
  - destruct line as [|b line]; simpl in H; [discriminate|].
    destruct (ascii_dec a b) as [<- | ]; [|discriminate].
    destruct (IH line H) as [rest ->]. exists rest. reflexivity.
Qed.

Lemma split_colon_cons (s : string) : exists h t, split_colon s = h :: t.
Proof.
  induction s as [|c s (h & t & IH)]; simpl.
  - eauto.
  - destruct (Ascii.eqb c ":"); [eauto|]. rewrite IH. eauto.
Qed.

(** A line with one of the two tags has a second field, so the index of
    lines 108 and 112 is in range. *)
Lemma getitem_progress_field (line : string) :
  startswith "PROGRESS:" line = true ->
  getitem (split_colon line) 1 = ret (field1 line).
Proof.
  intros H. destruct (startswith_inv _ _ H) as [rest ->].
  unfold getitem, field1. cbn.
  destruct (split_colon_cons rest) as (h & t & ->). reflexivity.
Qed.

Lemma getitem_success_field (line : string) :
  startswith "SUCCESS:" line = true ->
  getitem (split_colon line) 1 = ret (field1 line).
Proof.
  intros H. destruct (startswith_inv _ _ H) as [rest ->].
  unfold getitem, field1. cbn.
  destruct (split_colon_cons rest) as (h & t & ->). reflexivity.
Qed.

(** The outcome of [process_item] when nothing can raise. *)
Lemma process_item_eq (cfg : Config) (st : State) (seg_id : nat) (line : string) :
  PROGRESS_THROTTLE cfg <> 0 ->
  (seg_id < length (results st))%nat ->
  process_item cfg st (seg_id, line)
  = if startswith "PROGRESS:" line then
      ((if (progress_counter st + 1) mod PROGRESS_THROTTLE cfg =? 0
        then [EvPrint (ProgressLog seg_id (field1 line))] else []),
       Ok (with_counter st (progress_counter st + 1), false))
    else if startswith "SUCCESS:" line then
      ([EvPrint (SuccessLog seg_id (success_value line))],
       Ok (with_success st
             (<[seg_id := Some (success_value line)]> (results st)), true))
    else if nonempty line then
      ([EvPrint (InfoLog seg_id line)], Ok (st, false))
    else ([], Ok (st, false)).
Proof.
  intros Ht Hseg. unfold process_item.
  destruct (startswith "PROGRESS:" line) eqn:Hp.
  - unfold pymod. destruct (Z.eqb_spec (PROGRESS_THROTTLE cfg) 0); [contradiction|].
    cbn. destruct (_ =? 0); [|reflexivity].
    rewrite getitem_progress_field by assumption. reflexivity.
  - destruct (startswith "SUCCESS:" line) eqn:Hs.
    + rewrite getitem_success_field by assumption.
      unfold setitem. apply Nat.ltb_lt in Hseg. cbn -[Nat.ltb].
      rewrite Hseg. reflexivity.
    + destruct (nonempty line); reflexivity.
Qed.

(** * Properties of the polling loop *)

Lemma count_events_app (f : Event -> bool) (a b : list Event) :
  count_events f (a ++ b) = (count_events f a + count_events f b)%nat.
Proof. unfold count_events. rewrite List.filter_app, length_app. reflexivity. Qed.

(** One more progress line moves the quotient by the throttle exactly
    when the new counter is a multiple of it. *)
Lemma throttle_step (t c : Z) :
  t > 0 ->
  (c + 1) / t = c / t + (if (c + 1) mod t =? 0 then 1 else 0).
Proof.
  intros Ht.
  pose proof (Z.div_mod c t ltac:(lia)) as Hc.
  pose proof (Z.mod_pos_bound c t ltac:(lia)) as Hr.
  pose proof (Z.div_mod (c + 1) t ltac:(lia)) as Hc1.
  pose proof (Z.mod_pos_bound (c + 1) t ltac:(lia)) as Hr1.
  destruct (Z.eqb_spec ((c + 1) mod t) 0) as [Hz | Hnz]; nia.
Qed.

Lemma count_events_cons (f : Event -> bool) (e : Event) (l : list Event) :
  count_events f (e :: l) = ((if f e then 1 else 0) + count_events f l)%nat.
Proof. unfold count_events. cbn. destruct (f e); reflexivity. Qed.

Lemma quiet_cons (st st1 st' : State) (e : Event) (tr : list Event) :
  is_success_get e = false ->
  results st1 = results st ->
  quiet st1 st' tr -> quiet st st' (e :: tr).
Proof.
  intros He Hres [Hc Hr]. split.
  - rewrite count_events_cons, He, Hc. reflexivity.
  - congruence.
Qed.

Lemma found_by_cons (st st1 st' : State) (e : Event) (tr : list Event) :
  is_success_get e = false ->
  results st1 = results st ->
  found_by st1 st' tr -> found_by st st' (e :: tr).
Proof.
  intros He Hres (tr0 & seg_id & line & -> & Hc & Hs & Hlt & Hr & Hstop).
  exists (e :: tr0), seg_id, line.
  split; [reflexivity|].
  split; [rewrite count_events_cons, He, Hc; reflexivity|].
  rewrite <- Hres. repeat split; assumption.
Qed.

Lemma quiet_or_found_cons (st st1 st' : State) (e : Event) (tr : list Event)
  (P Q : Prop) :
  is_success_get e = false ->
  results st1 = results st ->
  (quiet st1 st' tr /\ P) \/ (found_by st1 st' tr /\ Q) ->
  (quiet st st' (e :: tr) /\ P) \/ (found_by st st' (e :: tr) /\ Q).
Proof.
  intros He Hres [[Hq HP] | [Hf HQ]].
  - left. split; [eapply quiet_cons; eassumption | assumption].
  - right. split; [eapply found_by_cons; eassumption | assumption].
Qed.

Section PollingLoop.

Variable cfg : Config.
Hypothesis throttle_positive : PROGRESS_THROTTLE cfg > 0.

(** One pass over the queues raises nothing, counts the progress lines
    it dequeues, and either dequeues no [SUCCESS:] line or stops right
    after the first one. *)
Lemma drain_spec (queues : list (list Item)) :
  forall (st : State) (act : bool),
  queues_ok (length (results st)) queues ->
  exists tr st' queues' act',
    drain cfg st queues act = (tr, Ok (st', queues', act')) /\
    queues_ok (length (results st)) queues' /\
    length (results st') = length (results st) /\
    progress_counter st'
    = progress_counter st + Z.of_nat (count_events is_progress_get tr) /\
    Z.of_nat (count_events is_progress_log tr)
    = progress_counter st' / PROGRESS_THROTTLE cfg
      - progress_counter st / PROGRESS_THROTTLE cfg /\
    ((quiet st st' tr /\ stop_event st' = stop_event st) \/
     (found_by st st' tr /\ act' = true)).
Proof.
  pose proof throttle_positive as Ht.
  induction queues as [|q rest IH]; intros st act Hok.
  - exists [], st, [], act. cbn. repeat split; try lia; auto.
    left. repeat split.
  - apply Forall_cons in Hok as [Hq Hrest].
    destruct q as [|[seg_id line] q].
    + destruct (IH st act Hrest)
        as (tr & st' & qs' & act' & Heq & Hok' & Hlen & Hcnt & Hlog & Hcase).
      exists tr, st', ([] :: qs'), act'. cbn [drain]. rewrite Heq. cbn.
      rewrite app_nil_r. repeat split; auto.
      apply Forall_cons; split; [constructor | assumption].
    + apply Forall_cons in Hq as [Hseg Hq]. cbn [fst] in Hseg.
      cbn [drain]. rewrite process_item_eq by (assumption || lia).
      destruct (startswith "PROGRESS:" line) eqn:Hp;
        [|destruct (startswith "SUCCESS:" line) eqn:Hs].
      * (* PROGRESS: the counter moves, the pass goes on *)
        set (st1 := with_counter st (progress_counter st + 1)).
        destruct (IH st1 true Hrest)
          as (tr & st' & qs' & act' & Heq & Hok' & Hlen & Hcnt & Hlog & Hcase).
        assert (Hns : startswith "SUCCESS:" line = false).
        { destruct (startswith_inv _ _ Hp) as [r ->]. reflexivity. }
        pose proof (throttle_step (PROGRESS_THROTTLE cfg) (progress_counter st) Ht)
          as Hstep.
        change (progress_counter st1) with (progress_counter st + 1) in *.
        change (results st1) with (results st) in *.
        destruct ((progress_counter st + 1) mod PROGRESS_THROTTLE cfg =? 0);
          cbn; fold st1; rewrite Heq; cbn; rewrite ?app_nil_r;
          eexists _, st', (q :: qs'), act'; (split; [reflexivity|]);
          (split; [apply Forall_cons; split; assumption|]);
          (split; [assumption|]);
          rewrite !count_events_cons; cbn [is_progress_get is_progress_log];
          rewrite Hp;
          (split; [lia|]); (split; [lia|]);
          repeat (apply quiet_or_found_cons with (st1 := st1);
                  [cbn; try assumption; reflexivity | reflexivity |]);
          exact Hcase.
      * (* SUCCESS: the value is recorded and the pass stops *)
        cbn. eexists _, _, (q :: rest), true. split; [reflexivity|].
        split; [apply Forall_cons; split; assumption|].
        split; [cbn; apply length_insert|].
        rewrite !count_events_cons; cbn [is_progress_get is_progress_log].
        rewrite Hp, Z.sub_diag. cbn.
        split; [lia|]. split; [reflexivity|].
        right. split; [|reflexivity].
        exists [], seg_id, line. cbn. repeat split; auto.
      * (* any other line: logged when not empty *)
        destruct (IH st true Hrest)
          as (tr & st' & qs' & act' & Heq & Hok' & Hlen & Hcnt & Hlog & Hcase).
        destruct (nonempty line);
          cbn; rewrite Heq; cbn; rewrite ?app_nil_r;
          eexists _, st', (q :: qs'), act'; (split; [reflexivity|]);
          (split; [apply Forall_cons; split; assumption|]);
          (split; [assumption|]);
          rewrite !count_events_cons; cbn [is_progress_get is_progress_log];
          rewrite Hp;
          (split; [lia|]); (split; [lia|]);
          repeat (apply quiet_or_found_cons with (st1 := st);
                  [cbn; try assumption; reflexivity | reflexivity |]);
          exact Hcase.
Qed.

Lemma quiet_trans (st st1 st' : State) (tr1 tr2 : list Event) :
  quiet st st1 tr1 -> quiet st1 st' tr2 -> quiet st st' (tr1 ++ tr2).
Proof.
  intros [Hc1 Hr1] [Hc2 Hr2]. split.
  - rewrite count_events_app, Hc1, Hc2. reflexivity.
  - congruence.
Qed.

Lemma quiet_then_found (st st1 st' : State) (tr1 tr2 : list Event) :
  quiet st st1 tr1 -> found_by st1 st' tr2 -> found_by st st' (tr1 ++ tr2).
Proof.
  intros [Hc1 Hr1] (tr0 & seg_id & line & -> & Hc & Hs & Hlt & Hr & Hstop).
  exists (tr1 ++ tr0), seg_id, line.
  split; [rewrite app_assoc; reflexivity|].
  split; [rewrite count_events_app, Hc1, Hc; reflexivity|].
  rewrite <- Hr1. repeat split; assumption.
Qed.

Lemma main_loop_stopped (ticks : list Tick) (st : State) :
  stop_event st = true -> main_loop cfg ticks st = ([], Ok (st, Exited)).
Proof. intros H. destruct ticks; cbn; rewrite H; reflexivity. Qed.

Lemma deliver_ok (n : nat) (arrivals : list (nat * list string)) :
  arrivals_ok n arrivals ->
  forall queues, queues_ok n queues -> queues_ok n (deliver arrivals queues).
Proof.
  unfold arrivals_ok, queues_ok.
  induction 1 as [|[seg_id pipe] arr Hseg Harr IH]; intros queues Hq.
  - destruct queues; assumption.
  - assert (Hnew : Forall (fun it : Item => (it.1 < n)%nat)
                     ((fun line => (seg_id, strip line)) <$> pipe)).
    { apply Forall_fmap, Forall_forall. intros line _. exact Hseg. }
    destruct queues as [|q qs]; cbn [deliver]; unfold reader.
    + apply Forall_cons. split; [exact Hnew | apply IH; constructor].
    + apply Forall_cons in Hq as [Hq Hqs].
      apply Forall_cons. split; [|apply IH; assumption].
      apply Forall_app. split; assumption.
Qed.

(** What a run of the loop does, whatever the environment: it raises
    nothing, counts every dequeued progress line, logs one line each
    time the counter reaches a multiple of the throttle, and either
    dequeues no [SUCCESS:] line and leaves the results alone, or ends
    right after the first one it dequeues. *)
Lemma main_loop_spec (ticks : list Tick) :
  forall st : State,
  Forall (tick_ok (length (results st))) ticks ->
  queues_ok (length (results st)) (output_queues st) ->
  exists tr st' status,
    main_loop cfg ticks st = (tr, Ok (st', status)) /\
    length (results st') = length (results st) /\
    progress_counter st'
    = progress_counter st + Z.of_nat (count_events is_progress_get tr) /\
    Z.of_nat (count_events is_progress_log tr)
    = progress_counter st' / PROGRESS_THROTTLE cfg
      - progress_counter st / PROGRESS_THROTTLE cfg /\
    (quiet st st' tr \/ (found_by st st' tr /\ status = Exited)).
Proof.
  induction ticks as [|t rest IH]; intros st Hticks Hqs.
  - exists [], st. cbn. destruct (stop_event st); eexists;
      (split; [reflexivity|]); cbn; repeat split; try lia; left; split; reflexivity.
  - destruct (stop_event st) eqn:Hstop.
    { rewrite main_loop_stopped by assumption. exists [], st, Exited.
      cbn. repeat split; try lia. left; split; reflexivity. }
    apply Forall_cons in Hticks as [Ht0 Hrest].
    destruct t as [arrivals processes|]; cbn [main_loop]; rewrite Hstop.
    + cbn [tick_ok] in Ht0.
      pose proof (deliver_ok _ _ Ht0 _ Hqs) as Hdel.
      destruct (drain_spec _ st false Hdel)
        as (tr1 & st1 & qs1 & act1 & Heq & Hok1 & Hlen1 & Hcnt1 & Hlog1 & Hcase1).
      rewrite Heq. cbn [bind].
      set (st2 := with_queues st1 qs1).
      assert (Hsleep : forall act : bool, exists sl : list Event,
                (if act then ret tt else emit (EvSleep 10)) = (sl, Ok tt) /\
                count_events is_success_get sl = 0%nat /\
                count_events is_progress_get sl = 0%nat /\
                count_events is_progress_log sl = 0%nat /\
                (act = true -> sl = [])).
      { intros [|]; eexists; (split; [reflexivity|]); repeat split; discriminate. }
      destruct (Hsleep act1) as (sl & -> & Hs1 & Hs2 & Hs3 & Hs4). cbn [bind].
      destruct (all_polled processes).
      * cbn. rewrite app_nil_r. exists (tr1 ++ sl), st2, Exited.
        split; [reflexivity|]. split; [exact Hlen1|].
        rewrite !count_events_app, Hs2, Hs3, !Nat.add_0_r.
        split; [exact Hcnt1|]. split; [exact Hlog1|].
        destruct Hcase1 as [[Hq _] | [Hf Hact]].
        -- left. apply quiet_trans with (st1 := st1); [exact Hq|].
           split; [exact Hs1 | reflexivity].
        -- right. rewrite (Hs4 Hact), app_nil_r. split; [|reflexivity].
           destruct Hf as (tr0 & seg_id & line & H1 & H2 & H3 & H4 & H5 & H6).
           exists tr0, seg_id, line. repeat split; assumption.
      * destruct Hcase1 as [[Hq Hst] | [Hf Hact]].
        -- destruct (IH st2) as (tr2 & st' & status & Heq2 & Hlen2 & Hcnt2 & Hlog2 & Hcase2).
           { cbn. rewrite Hlen1. exact Hrest. }
           { cbn. rewrite Hlen1. exact Hok1. }
           rewrite Heq2. cbn. exists (tr1 ++ sl ++ tr2), st', status.
           split; [reflexivity|].
           change (results st2) with (results st1) in *.
           change (progress_counter st2) with (progress_counter st1) in *.
           split; [congruence|].
           rewrite !count_events_app, Hs2, Hs3, !Nat.add_0_l.
           split; [lia|]. split; [lia|].
           assert (Hq2 : quiet st st2 (tr1 ++ sl)).
           { apply quiet_trans with (st1 := st1); [exact Hq|].
             split; [exact Hs1 | reflexivity]. }
           rewrite app_assoc.
           destruct Hcase2 as [Hq' | [Hf' Hex]].
           ++ left. eapply quiet_trans; eassumption.
           ++ right. split; [|exact Hex]. eapply quiet_then_found; eassumption.
        -- assert (Hstop2 : stop_event st2 = true).
           { destruct Hf as (_ & _ & _ & _ & _ & _ & _ & _ & H6). exact H6. }
           rewrite (main_loop_stopped rest st2 Hstop2). cbn.
           rewrite (Hs4 Hact), !app_nil_r. exists tr1, st2, Exited.
           split; [reflexivity|]. split; [exact Hlen1|].
           split; [exact Hcnt1|]. split; [exact Hlog1|].
           right. split; [|reflexivity].
           destruct Hf as (tr0 & seg_id & line & H1 & H2 & H3 & H4 & H5 & H6).
           exists tr0, seg_id, line. repeat split; assumption.
    + exists [EvPrint InterruptLog], (with_stop st), Exited. cbn.
      repeat split; try lia. left. split; reflexivity.
Qed.

End PollingLoop.

(** * Properties of start-up and shutdown traces *)

Lemma silent_counts (tr : list Event) :
  Forall silent tr ->
  count_events is_get tr = 0%nat /\
  count_events is_success_get tr = 0%nat /\
  count_events is_progress_get tr = 0%nat /\
  count_events is_progress_log tr = 0%nat.
Proof.
  induction 1 as [|e tr [Hg Hl] _ (IH1 & IH2 & IH3 & IH4)].
  - repeat split.
  - rewrite !count_events_cons, IH1, IH2, IH3, IH4, Hg, Hl.
    destruct e as [| | |[seg_id line]|]; try discriminate; repeat split.
Qed.

Lemma start_workers_silent (cfg : Config) (len : Z) (idx : list nat) :
  Forall silent (fst (start_workers cfg len idx)).
Proof.
  induction idx as [|i idx IH]; [constructor|].
  cbn [start_workers].
  destruct (start_workers cfg len idx) as [tr [segs|e]]; cbn in *;
    repeat (constructor; [split; reflexivity|]);
    rewrite ?app_nil_r; assumption.
Qed.

Lemma startup_spec (cfg : Config) :
  NUM_SEGMENTS cfg <> 0 ->
  exists tr segs, startup cfg = (tr, Ok segs) /\ Forall silent tr.
Proof.
  intros Hn. unfold startup. rewrite segment_length_nonzero by assumption.
  pose proof (start_workers_silent cfg
                ((TOTAL_END cfg - TOTAL_START cfg) / NUM_SEGMENTS cfg)
                (py_range (NUM_SEGMENTS cfg))) as Hsil.
  destruct (start_workers_spec cfg
              ((TOTAL_END cfg - TOTAL_START cfg) / NUM_SEGMENTS cfg)
              (py_range (NUM_SEGMENTS cfg))) as (tr & Heq & _).
  rewrite Heq in Hsil. cbn [fst] in Hsil.
  unfold banner. cbn. rewrite Heq. eexists _, _. split; [reflexivity|].
  repeat (constructor; [split; reflexivity|]). assumption.
Qed.

Lemma terminate_each_spec (processes : list Proc) :
  terminate_each processes = (EvTerminate <$> processes, Ok tt).
Proof.
  induction processes as [|p rest IH]; [reflexivity|].
  cbn [terminate_each]. rewrite IH. unfold terminate.
  destruct (terminate_raises p); reflexivity.
Qed.

Lemma reap_sublist (p : Proc) (processes : list Proc) :
  reap p processes `sublist_of` processes.
Proof.
  induction processes as [|q rest IH]; cbn; [constructor|].
  destruct (pid q =? pid p)%nat.
  - apply sublist_cons. reflexivity.
  - apply sublist_skip. exact IH.
Qed.

Lemma apply_ops_sublist (ops : list RegistryOp) (processes : list Proc) :
  apply_ops ops processes `sublist_of` processes ++ appended ops.
Proof.
  revert processes. induction ops as [|op ops IH]; intros processes.
  - cbn. rewrite app_nil_r. reflexivity.
  - cbn [apply_ops foldl]. etrans; [apply IH|]. destruct op as [p|p]; cbn.
    + unfold register. rewrite <- app_assoc. reflexivity.
    + apply sublist_app; [apply reap_sublist | reflexivity].
Qed.

Lemma sublist_drop_mono (k : nat) (l1 l2 : list Proc) :
  l1 `sublist_of` l2 -> drop k l1 `sublist_of` drop k l2.
Proof.
  intros H. revert k. induction H as [|x l1 l2 H IH|x l1 l2 H IH]; intros k.
  - rewrite drop_nil. constructor.
  - destruct k as [|k]; cbn; [apply sublist_skip; exact H | apply IH].
  - destruct k as [|k]; cbn; [apply sublist_cons; exact H|].
    etrans; [|apply IH].
    replace (drop (S k) l1) with (drop 1 (drop k l1))
      by (rewrite drop_drop; f_equal; lia).
    apply sublist_drop.
Qed.

Lemma drop_app_sublist (k : nat) (l a : list Proc) :
  drop k (l ++ a) `sublist_of` drop k l ++ a.
Proof.
  rewrite drop_app. apply sublist_app; [reflexivity | apply sublist_drop].
Qed.

(** The loop of lines 134-138 never raises.  Whatever the worker
    threads do to the registry meanwhile, the processes it calls
    [terminate()] on are processes of the list from the position of the
    iterator on or processes appended meanwhile, in that order and none
    more often than it occurs there; the process at the position of the
    iterator comes first; and when the registry is at rest they are all
    the processes of the list from that position on. *)
Lemma terminate_all_spec (steps : list (list RegistryOp)) (i : nat)
    (processes : list Proc) :
  exists called,
    terminate_all steps i processes = (EvTerminate <$> called, Ok tt) /\
    called `sublist_of` drop i processes ++ late_registrations steps /\
    head called = processes !! i /\
    (registry_at_rest steps -> called = drop i processes).
Proof.
  revert i processes. induction steps as [|ops steps IH]; intros i processes.
  - exists (drop i processes). cbn [terminate_all].
    rewrite terminate_each_spec. split; [reflexivity|].
    split; [cbn; rewrite app_nil_r; reflexivity|]. split; [|reflexivity].
    rewrite head_lookup, lookup_drop. f_equal. lia.
  - cbn [terminate_all]. destruct (processes !! i) as [p|] eqn:Hp.
    + destruct (IH (S i) (apply_ops ops processes)) as (c & Heq & Hsub & _ & Hq).
      exists (p :: c). rewrite Heq. split.
      { unfold terminate. destruct (terminate_raises p); reflexivity. }
      rewrite (drop_S _ _ _ Hp). split.
      { cbn [app]. apply sublist_skip. etrans; [exact Hsub|].
        unfold late_registrations. cbn [flat_map]. rewrite app_assoc.
        apply sublist_app; [|reflexivity].
        etrans; [|apply drop_app_sublist].
        apply sublist_drop_mono, apply_ops_sublist. }
      split; [reflexivity|].
      intros Hall. inversion Hall as [|ops' steps' Hr Hrest]; subst.
      rewrite (Hq Hrest). reflexivity.
    + exists []. split; [reflexivity|]. split; [apply sublist_nil_l|].
      split; [reflexivity|]. intros _. symmetry. apply drop_ge.
      apply lookup_ge_None. exact Hp.
Qed.

Lemma report_spec (res : list (option string)) :
  report res = ([EvPrint (final_message res)], Ok tt).
Proof. unfold report, final_message. destruct (found_of res); reflexivity. Qed.

Lemma shutdown_spec (st : State) (processes : list Proc)
    (steps : list (list RegistryOp)) :
  exists called,
    shutdown st processes steps
    = ((EvTerminate <$> called)
       ++ [EvSleep 2000; EvPrint (final_message (results st))], Ok tt) /\
    called `sublist_of` processes ++ late_registrations steps /\
    head called = head processes /\
    (registry_at_rest steps -> called = processes).
Proof.
  destruct (terminate_all_spec steps 0 processes)
    as (called & Heq & Hsub & Hhead & Hq).
  exists called. unfold shutdown. rewrite Heq, report_spec.
  split; [reflexivity|]. split; [exact Hsub|].
  split; [rewrite (head_lookup processes); exact Hhead | exact Hq].
Qed.

Lemma final_message_silent (res : list (option string)) :
  silent (EvPrint (final_message res)).
Proof. unfold final_message. destruct (found_of res); split; reflexivity. Qed.

Lemma shutdown_silent (st : State) (processes : list Proc)
    (steps : list (list RegistryOp)) :
  Forall silent (fst (shutdown st processes steps)).
Proof.
  destruct (shutdown_spec st processes steps) as (called & -> & _).
  cbn [fst]. apply Forall_app. split.
  - apply Forall_fmap, Forall_forall. intros p _. split; reflexivity.
  - repeat constructor. apply final_message_silent.
Qed.

Lemma terminated_calls (called : list Proc) (rest : list Event) :
  terminated ((EvTerminate <$> called) ++ rest) = called ++ terminated rest.
Proof.
  induction called as [|p called IH]; [reflexivity|].
  cbn. f_equal. exact IH.
Qed.

Lemma terminated_shutdown (st : State) (processes : list Proc)
    (steps : list (list RegistryOp)) :
  terminated (fst (shutdown st processes steps))
    `sublist_of` processes ++ late_registrations steps /\
  head (terminated (fst (shutdown st processes steps))) = head processes /\
  (registry_at_rest steps ->
   terminated (fst (shutdown st processes steps)) = processes).
Proof.
  destruct (shutdown_spec st processes steps)
    as (called & -> & Hsub & Hhead & Hq).
  cbn [fst]. rewrite terminated_calls. cbn. rewrite app_nil_r.
  repeat split; assumption.
Qed.

(** The trace of [main] is the start-up trace, the loop trace and, once
    the loop is left, the shutdown trace; the loop part is as
    [main_loop_spec] describes, from the initial state. *)
Lemma main_spec (cfg : Config) (w : World) :
  well_formed cfg w ->
  exists tr0 tr st status,
    Forall silent tr0 /\
    main cfg w
    = (tr0 ++ tr ++ match status with
                    | Exited => fst (shutdown st (processes_at_shutdown w) (registry_ops_at_shutdown w))
                    | Running => []
                    end,
       Ok (st, status)) /\
    length (results st) = Z.to_nat (NUM_SEGMENTS cfg) /\
    progress_counter st = Z.of_nat (count_events is_progress_get tr) /\
    Z.of_nat (count_events is_progress_log tr)
    = progress_counter st / PROGRESS_THROTTLE cfg /\
    (quiet (initial_state cfg) st tr \/
     (found_by (initial_state cfg) st tr /\ status = Exited)).
Proof.
  intros (Hn & Ht & Hticks).
  destruct (startup_spec cfg Hn) as (tr0 & segs & Hstart & Hsil).
  destruct (main_loop_spec cfg Ht (ticks w) (initial_state cfg))
    as (tr & st & status & Hloop & Hlen & Hcnt & Hlog & Hcase).
  { cbn. rewrite length_replicate. exact Hticks. }
  { constructor. }
  exists tr0, tr, st, status.
  split; [assumption|]. split.
  { unfold main. rewrite Hstart. cbn [bind]. rewrite Hloop. cbn [bind].
    destruct status.
    - cbn. reflexivity.
    - destruct (shutdown_spec st (processes_at_shutdown w)
                  (registry_ops_at_shutdown w)) as (called & -> & _).
      cbn. rewrite app_nil_r. reflexivity. }
  cbn in Hlen, Hcnt, Hlog. rewrite length_replicate in Hlen.
  rewrite Z.sub_0_r in Hlog.
  repeat (split; [assumption|]). assumption.
Qed.

Lemma first_success_get_quiet (pre tr : list Event) :
  count_events is_success_get pre = 0%nat ->
  first_success_get (pre ++ tr) = first_success_get tr.
Proof.
  induction pre as [|e pre IH]; [reflexivity|].
  rewrite count_events_cons. intros H.
  destruct e as [| | |[seg_id line]|]; cbn in *;
    try (apply IH; lia).
  destruct (startswith "SUCCESS:" line); [discriminate | apply IH; lia].
Qed.

Lemma first_success_get_none (tr : list Event) :
  count_events is_success_get tr = 0%nat -> first_success_get tr = None.
Proof.
  intros H. rewrite <- (app_nil_r tr). rewrite first_success_get_quiet by assumption.
  reflexivity.
Qed.

Lemma silent_no_success (tr : list Event) :
  Forall silent tr -> count_events is_success_get tr = 0%nat.
Proof. intros H. apply silent_counts in H. tauto. Qed.

Lemma found_of_replicate_none (n : nat) : found_of (replicate n None) = [].
Proof. induction n; [reflexivity | assumption]. Qed.

Lemma found_of_single (n i : nat) (v : string) :
  (i < n)%nat -> found_of (<[i := Some v]> (replicate n None)) = [v].
Proof.
  revert i. induction n as [|n IH]; intros i Hi; [lia|].
  destruct i as [|i]; cbn.
  - change (omap id (replicate n None)) with (found_of (replicate n (@None string))).
    rewrite found_of_replicate_none. reflexivity.
  - apply IH. lia.
Qed.

Lemma process_progress_item (cfg : Config) (st : State) (seg_id : nat)
  (line : string) :
  PROGRESS_THROTTLE cfg <> 0 ->
  startswith "PROGRESS:" line = true ->
  process_item cfg st (seg_id, line)
  = ((if (progress_counter st + 1) mod PROGRESS_THROTTLE cfg =? 0
      then [EvPrint (ProgressLog seg_id (field1 line))] else []),
     Ok (with_counter st (progress_counter st + 1), false)).
Proof.
  intros Ht Hp. unfold process_item. rewrite Hp. unfold pymod.
  destruct (Z.eqb_spec (PROGRESS_THROTTLE cfg) 0); [contradiction|].
  cbn. destruct (_ =? 0); [|reflexivity].
  rewrite getitem_progress_field by assumption. reflexivity.
Qed.

(** * The coordinator claims *)

(** Well-formedness of a concrete run, by evaluation. *)
Ltac well_formed_by_evaluation :=
  split; [discriminate|]; split; [reflexivity|]; repeat constructor.

(** C7. Every dequeued [PROGRESS:] line adds exactly one to
    [progress_counter] and is logged exactly when the new counter is a
    multiple of the throttle.  Over a whole run that dequeues [N] such
    lines the counter ends at [N], [N / throttle] progress lines are
    logged, and that is at most [ceil(N / throttle)]. *)
Theorem progress_logging_is_throttled (cfg : Config) (w : World) :
  well_formed cfg w ->
  (forall st seg_id line,
     startswith "PROGRESS:" line = true ->
     exists tr st',
       process_item cfg st (seg_id, line) = (tr, Ok (st', false)) /\
       progress_counter st' = progress_counter st + 1 /\
       tr = if progress_counter st' mod PROGRESS_THROTTLE cfg =? 0
            then [EvPrint (ProgressLog seg_id (field1 line))] else []) /\
  exists tr st status,
    main cfg w = (tr, Ok (st, status)) /\
    progress_counter st = Z.of_nat (count_events is_progress_get tr) /\
    Z.of_nat (count_events is_progress_log tr)
    = Z.of_nat (count_events is_progress_get tr) / PROGRESS_THROTTLE cfg /\
    Z.of_nat (count_events is_progress_log tr)
    <= ceil_div (Z.of_nat (count_events is_progress_get tr))
                (PROGRESS_THROTTLE cfg).
Proof.
  intros Hwf. split.
  - intros st seg_id line Hp. destruct Hwf as (_ & Ht & _).
    eexists _, _. split; [apply process_progress_item; [lia | exact Hp]|].
    split; reflexivity.
  - destruct (main_spec cfg w Hwf)
      as (tr0 & tr & st & status & Hsil & Hmain & _ & Hcnt & Hlog & _).
    destruct Hwf as (_ & Ht & _).
    pose proof (silent_counts tr0 Hsil) as (_ & _ & Hg0 & Hl0).
    assert (Hshut : Forall silent
              match status with
              | Exited => fst (shutdown st (processes_at_shutdown w) (registry_ops_at_shutdown w))
              | Running => []
              end).
    { destruct status; [constructor | apply shutdown_silent]. }
    pose proof (silent_counts _ Hshut) as (_ & _ & Hg2 & Hl2).
    eexists _, st, status. split; [exact Hmain|].
    rewrite !count_events_app, Hg0, Hl0, Hg2, Hl2, !Nat.add_0_l, !Nat.add_0_r.
    rewrite <- Hcnt. split; [reflexivity|]. split; [exact Hlog|].
    rewrite Hlog. unfold ceil_div. apply Z.div_le_mono; lia.
Qed.

(** The example run is well formed. *)
Lemma progress_logging_is_throttled_witness :
  well_formed example_config example_world /\
  exists tr st status,
    main example_config example_world = (tr, Ok (st, status)) /\
    progress_counter st = Z.of_nat (count_events is_progress_get tr) /\
    Z.of_nat (count_events is_progress_log tr)
    = Z.of_nat (count_events is_progress_get tr)
      / PROGRESS_THROTTLE example_config /\
    Z.of_nat (count_events is_progress_log tr)
    <= ceil_div (Z.of_nat (count_events is_progress_get tr))
                (PROGRESS_THROTTLE example_config).
Proof.
  split.
  - well_formed_by_evaluation.
  - apply (progress_logging_is_throttled example_config example_world).
    well_formed_by_evaluation.
Defined.

Lemma last_shutdown (pre : list Event) (st : State) (processes : list Proc)
    (steps : list (list RegistryOp)) :
  last (pre ++ fst (shutdown st processes steps))
  = Some (EvPrint (final_message (results st))).
Proof.
  destruct (shutdown_spec st processes steps) as (called & -> & _).
  cbn [fst].
  change [EvSleep 2000; EvPrint (final_message (results st))]
    with ([EvSleep 2000] ++ [EvPrint (final_message (results st))]).
  rewrite !app_assoc. apply last_snoc.
Qed.

(** C3. In every run in which a [SUCCESS:] line is dequeued, the trace
    is: what happened before, the dequeue of that line (the first such
    line), its log line, and then the shutdown phase.  The value is
    recorded under the segment index of the item, the stop flag is set,
    the loop has been left, and nothing after the dequeue is another
    dequeue or a progress log line. *)
Theorem success_stops_the_run (cfg : Config) (w : World) :
  well_formed cfg w ->
  exists tr st status,
    main cfg w = (tr, Ok (st, status)) /\
    (count_events is_success_get tr <> 0%nat ->
     exists pre seg_id line,
       tr = pre ++ EvGet (seg_id, line)
                :: EvPrint (SuccessLog seg_id (success_value line))
                :: fst (shutdown st (processes_at_shutdown w) (registry_ops_at_shutdown w)) /\
       count_events is_success_get pre = 0%nat /\
       startswith "SUCCESS:" line = true /\
       results st !! seg_id = Some (Some (success_value line)) /\
       stop_event st = true /\
       status = Exited /\
       Forall silent (EvPrint (SuccessLog seg_id (success_value line))
                      :: fst (shutdown st (processes_at_shutdown w) (registry_ops_at_shutdown w)))).
Proof.
  intros Hwf.
  destruct (main_spec cfg w Hwf)
    as (tr0 & tr & st & status & Hsil & Hmain & _ & _ & _ & Hcase).
  eexists _, st, status. split; [exact Hmain|]. intros Hsome.
  assert (Hshut : Forall silent
            match status with
            | Exited => fst (shutdown st (processes_at_shutdown w) (registry_ops_at_shutdown w))
            | Running => []
            end).
  { destruct status; [constructor | apply shutdown_silent]. }
  destruct Hcase as [[Hq _] | [Hf ->]].
  - exfalso. apply Hsome.
    rewrite !count_events_app, Hq, (silent_no_success _ Hsil),
      (silent_no_success _ Hshut). reflexivity.
  - destruct Hf as (trA & seg_id & line & -> & Hc & Hs & Hlt & Hr & Hstop).
    exists (tr0 ++ trA), seg_id, line.
    split; [rewrite <- !app_assoc; reflexivity|].
    split; [rewrite count_events_app, (silent_no_success _ Hsil), Hc; reflexivity|].
    split; [exact Hs|].
    split; [rewrite Hr; apply list_lookup_insert_eq; exact Hlt|].
    split; [exact Hstop|]. split; [reflexivity|].
    constructor; [split; reflexivity | exact Hshut].
Qed.

(** In the example run a [SUCCESS:] line is dequeued. *)
Lemma success_stops_the_run_witness :
  well_formed example_config example_world /\
  exists tr st status,
    main example_config example_world = (tr, Ok (st, status)) /\
    (count_events is_success_get tr <> 0%nat ->
     exists pre seg_id line,
       tr = pre ++ EvGet (seg_id, line)
                :: EvPrint (SuccessLog seg_id (success_value line))
                :: fst (shutdown st (processes_at_shutdown example_world)
                              (registry_ops_at_shutdown example_world)) /\
       count_events is_success_get pre = 0%nat /\
       startswith "SUCCESS:" line = true /\
       results st !! seg_id = Some (Some (success_value line)) /\
       stop_event st = true /\
       status = Exited /\
       Forall silent (EvPrint (SuccessLog seg_id (success_value line))
                      :: fst (shutdown st (processes_at_shutdown example_world)
                              (registry_ops_at_shutdown example_world)))).
Proof.
  split.
  - well_formed_by_evaluation.
  - apply (success_stops_the_run example_config example_world).
    well_formed_by_evaluation.
Defined.

(** C9. In every run the results table holds at most one value when
    the shutdown phase reads it.  If a [SUCCESS:] line was dequeued, the
    loop has been left, the table holds the value of the first such line
    under the segment index of its item and nothing else, and the run
    ends by reporting that value; if none was dequeued the table is
    empty. *)
Theorem at_most_one_success_is_recorded (cfg : Config) (w : World) :
  well_formed cfg w ->
  exists tr st status,
    main cfg w = (tr, Ok (st, status)) /\
    (length (found_of (results st)) <= 1)%nat /\
    (forall seg_id line,
       first_success_get tr = Some (seg_id, line) ->
       status = Exited /\
       results st
       = <[seg_id := Some (success_value line)]>
           (replicate (Z.to_nat (NUM_SEGMENTS cfg)) None) /\
       found_of (results st) = [success_value line] /\
       last tr = Some (EvPrint (ReportFound (success_value line)))) /\
    (first_success_get tr = None -> found_of (results st) = []).
Proof.
  intros Hwf.
  destruct (main_spec cfg w Hwf)
    as (tr0 & tr & st & status & Hsil & Hmain & _ & _ & _ & Hcase).
  eexists _, st, status. split; [exact Hmain|].
  assert (Hshut : Forall silent
            match status with
            | Exited => fst (shutdown st (processes_at_shutdown w) (registry_ops_at_shutdown w))
            | Running => []
            end).
  { destruct status; [constructor | apply shutdown_silent]. }
  destruct Hcase as [[Hq Hres] | [Hf ->]].
  - cbn in Hres. rewrite Hres, found_of_replicate_none.
    split; [cbn; lia|]. split; [|reflexivity].
    intros seg_id line Hfirst. exfalso.
    rewrite first_success_get_none in Hfirst; [discriminate|].
    rewrite !count_events_app, Hq, (silent_no_success _ Hsil),
      (silent_no_success _ Hshut). reflexivity.
  - destruct Hf as (trA & seg_id & line & -> & Hc & Hs & Hlt & Hr & Hstop).
    cbn in Hr, Hlt. rewrite length_replicate in Hlt.
    assert (Hfound : found_of (results st) = [success_value line])
      by (rewrite Hr; apply found_of_single; exact Hlt).
    assert (Hfirst : first_success_get
              (tr0 ++ (trA ++ [EvGet (seg_id, line);
                               EvPrint (SuccessLog seg_id (success_value line))])
                   ++ fst (shutdown st (processes_at_shutdown w) (registry_ops_at_shutdown w)))
            = Some (seg_id, line)).
    { rewrite first_success_get_quiet by (apply silent_no_success; exact Hsil).
      rewrite <- app_assoc.
      rewrite first_success_get_quiet by exact Hc.
      cbn. rewrite Hs. reflexivity. }
    rewrite Hfirst, Hfound. split; [cbn; lia|]. split; [|discriminate].
    intros seg_id' line' [= <- <-].
    split; [reflexivity|]. split; [exact Hr|]. split; [reflexivity|].
    rewrite app_assoc, last_shutdown. unfold final_message. rewrite Hfound.
    reflexivity.
Qed.

(** The example run is well formed. *)
Lemma at_most_one_success_is_recorded_witness :
  well_formed example_config example_world /\
  exists tr st status,
    main example_config example_world = (tr, Ok (st, status)) /\
    (length (found_of (results st)) <= 1)%nat /\
    (forall seg_id line,
       first_success_get tr = Some (seg_id, line) ->
       status = Exited /\
       results st
       = <[seg_id := Some (success_value line)]>
           (replicate (Z.to_nat (NUM_SEGMENTS example_config)) None) /\
       found_of (results st) = [success_value line] /\
       last tr = Some (EvPrint (ReportFound (success_value line)))) /\
    (first_success_get tr = None -> found_of (results st) = []).
Proof.
  split.
  - well_formed_by_evaluation.
  - apply (at_most_one_success_is_recorded example_config example_world).
    well_formed_by_evaluation.
Defined.

(** C1, as the claim states it, fails, in the run and in the report.
    In the example run worker 0 writes [SUCCESS:120] and worker 1 writes
    [SUCCESS:180]; the coordinator dequeues the line of worker 1 first,
    records 180 alone and reports 180, which is not the smaller of the
    two values.  And for a table that holds the two values "9" and "10"
    the report is "10", because [min] compares the recorded text. *)
Lemma first_success_wins_over_smaller_value :
  (exists tr st,
     main example_config example_world = (tr, Ok (st, Exited)) /\
     emitted_success_values (ticks example_world) = ["120"; "180"] /\
     results st = [None; Some "180"] /\
     last tr = Some (EvPrint (ReportFound "180")) /\
     numeric_value "120" = Some 120 /\
     numeric_value "180" = Some 180 /\
     Z.min 120 180 <> 180) /\
  report [Some "9"; Some "10"] = ([EvPrint (ReportFound "10")], Ok tt) /\
  numeric_value "9" = Some 9 /\
  numeric_value "10" = Some 10 /\
  Z.min 9 10 <> 10.
Proof.
  split.
  - eexists _, _. split; [vm_compute; reflexivity|].
    repeat split; try (vm_compute; reflexivity). lia.
  - repeat split; try (vm_compute; reflexivity). lia.
Qed.

(** C1 (amended). For a results table without a value the report is
    the no-result message, and for a table with exactly one value it is
    that value.  After every run whose loop has been left the table is
    in one of these two cases, so the report is the single recorded
    value, whatever other workers wrote, or the no-result message. *)
Theorem report_is_the_single_recorded_value (cfg : Config) (w : World) :
  well_formed cfg w ->
  (forall res, found_of res = [] ->
               report res = ([EvPrint ReportNone], Ok tt)) /\
  (forall res v, found_of res = [v] ->
                 report res = ([EvPrint (ReportFound v)], Ok tt)) /\
  exists tr st status,
    main cfg w = (tr, Ok (st, status)) /\
    (status = Exited ->
     (found_of (results st) = [] /\ last tr = Some (EvPrint ReportNone)) \/
     (exists v, found_of (results st) = [v] /\
                last tr = Some (EvPrint (ReportFound v)))).
Proof.
  intros Hwf.
  split; [intros res H; unfold report; rewrite H; reflexivity|].
  split; [intros res v H; unfold report; rewrite H; reflexivity|].
  destruct (main_spec cfg w Hwf)
    as (tr0 & tr & st & status & Hsil & Hmain & _ & _ & _ & Hcase).
  eexists _, st, status. split; [exact Hmain|]. intros ->.
  rewrite app_assoc, last_shutdown. unfold final_message.
  destruct Hcase as [[_ Hres] | [Hf _]].
  - left. cbn in Hres. rewrite Hres, found_of_replicate_none.
    split; reflexivity.
  - right. destruct Hf as (trA & seg_id & line & _ & _ & _ & Hlt & Hr & _).
    cbn in Hr, Hlt. rewrite length_replicate in Hlt.
    exists (success_value line).
    rewrite Hr, found_of_single by exact Hlt. split; reflexivity.
Qed.

(** The example run is well formed and its loop is left. *)
Lemma report_is_the_single_recorded_value_witness :
  well_formed example_config example_world /\
  exists tr st status,
    main example_config example_world = (tr, Ok (st, status)) /\
    (status = Exited ->
     (found_of (results st) = [] /\ last tr = Some (EvPrint ReportNone)) \/
     (exists v, found_of (results st) = [v] /\
                last tr = Some (EvPrint (ReportFound v)))).
Proof.
  split.
  - well_formed_by_evaluation.
  - apply (report_is_the_single_recorded_value example_config example_world).
    well_formed_by_evaluation.
Defined.

Lemma found_by_counts (st st' : State) (tr : list Event) :
  found_by st st' tr -> count_events is_success_get tr <> 0%nat.
Proof.
  intros (tr0 & seg_id & line & -> & _ & Hs & _).
  rewrite count_events_app, !count_events_cons. cbn. rewrite Hs. lia.
Qed.

Lemma all_polled_exited (processes : list Proc) :
  Forall (fun p => returncode p <> None) processes ->
  all_polled processes = true.
Proof.
  induction 1 as [|p rest Hp _ IH]; [reflexivity|].
  cbn. destruct (returncode p); [exact IH | contradiction].
Qed.

(** Taking an exited process out of the registry (lines 64-65) leaves a
    registry of exited processes. *)
Lemma reap_exited (p : Proc) (processes : list Proc) :
  Forall (fun q => returncode q <> None) processes ->
  Forall (fun q => returncode q <> None) (reap p processes).
Proof.
  induction 1 as [|q rest Hq Hrest IH]; cbn; [constructor|].
  destruct (pid q =? pid p)%nat; [assumption | constructor; assumption].
Qed.

(** C8. When the loop is running and every process in the registry has
    exited at the check of line 127 (exited workers that were already
    taken out of the registry are not in it), the loop is left at the end
    of that tick, whatever would have come next.  If no [SUCCESS:] line
    was dequeued in the tick, the results are untouched, the stop flag is
    still clear, and a table that held no value is reported as no
    result. *)
Theorem loop_exits_when_all_workers_exited
  (cfg : Config) (st : State) (arrivals : list (nat * list string))
  (processes : list Proc) :
  PROGRESS_THROTTLE cfg > 0 ->
  arrivals_ok (length (results st)) arrivals ->
  queues_ok (length (results st)) (output_queues st) ->
  stop_event st = false ->
  Forall (fun p => returncode p <> None) processes ->
  exists tr st',
    (forall rest,
       main_loop cfg (Poll arrivals processes :: rest) st
       = (tr, Ok (st', Exited))) /\
    (count_events is_success_get tr = 0%nat ->
     results st' = results st /\
     stop_event st' = false /\
     (found_of (results st) = [] -> final_message (results st') = ReportNone)).
Proof.
  intros Ht Harr Hqs Hstop Hexit.
  pose proof (deliver_ok _ _ Harr _ Hqs) as Hdel.
  destruct (drain_spec cfg Ht _ st false Hdel)
    as (tr1 & st1 & qs1 & act1 & Heq & _ & _ & _ & _ & Hcase).
  exists (tr1 ++ if act1 then [] else [EvSleep 10]), (with_queues st1 qs1).
  split.
  - intros rest. cbn [main_loop]. rewrite Hstop, Heq. cbn [bind].
    rewrite (all_polled_exited _ Hexit).
    destruct act1; cbn; rewrite ?app_nil_r; reflexivity.
  - rewrite count_events_app. intros Hnone.
    destruct Hcase as [[[_ Hres] Hst] | [Hf _]].
    + cbn. split; [exact Hres|]. split; [congruence|].
      intros Hempty. unfold final_message. rewrite Hres, Hempty. reflexivity.
    + exfalso. apply (found_by_counts _ _ _ Hf). lia.
Qed.

(** From the initial state of the example, with both workers exited,
    the first tick leaves the loop. *)
Lemma loop_exits_when_all_workers_exited_witness :
  exists tr st',
    (forall rest,
       main_loop example_config
         (Poll [(0%nat, ["PROGRESS:101"])] [exited 0 0; exited 1 1] :: rest)
         (initial_state example_config)
       = (tr, Ok (st', Exited))) /\
    (count_events is_success_get tr = 0%nat ->
     results st' = results (initial_state example_config) /\
     stop_event st' = false /\
     (found_of (results (initial_state example_config)) = [] ->
      final_message (results st') = ReportNone)).
Proof.
  apply (loop_exits_when_all_workers_exited example_config
           (initial_state example_config)
           [(0%nat, ["PROGRESS:101"])] [exited 0 0; exited 1 1]).
  - reflexivity.
  - repeat constructor.
  - constructor.
  - reflexivity.
  - repeat constructor; discriminate.
Defined.

(** * The order used by [min] *)

Lemma string_compare_refl (s : string) : String.compare s s = Eq.
Proof.
  pose proof (String.compare_antisym s s) as H.
  destruct (String.compare s s); [reflexivity | discriminate | discriminate].
Qed.

Lemma string_compare_lt_trans (a b c : string) :
  String.compare a b = Lt -> String.compare b c = Lt ->
  String.compare a c = Lt.
Proof.
  revert b c. induction a as [|x a IH]; intros [|y b] [|z c]; cbn;
    try discriminate; try reflexivity.
  unfold Ascii.compare.
  destruct (N.compare_spec (N_of_ascii x) (N_of_ascii y)) as [Hxy | Hxy | Hxy];
    try discriminate;
    destruct (N.compare_spec (N_of_ascii y) (N_of_ascii z)) as [Hyz | Hyz | Hyz];
    try discriminate; intros H1 H2.
  - rewrite Hxy, Hyz, N.compare_refl. eapply IH; eassumption.
  - rewrite Hxy. apply N.compare_lt_iff in Hyz. rewrite Hyz. reflexivity.
  - rewrite <- Hyz. apply N.compare_lt_iff in Hxy. rewrite Hxy. reflexivity.
  - assert (Hxz : (N_of_ascii x < N_of_ascii z)%N) by lia.
    apply N.compare_lt_iff in Hxz. rewrite Hxz. reflexivity.
Qed.

Lemma string_ltb_irrefl (s : string) : String.ltb s s = false.
Proof. unfold String.ltb. rewrite string_compare_refl. reflexivity. Qed.

(** Nothing below a lower bound: if [m] is not above [b] and [x] is
    below [m], then [x] is below [b]. *)
Lemma string_ltb_below (x m b : string) :
  String.ltb b m = false -> String.ltb x m = true -> String.ltb x b = true.
Proof.
  unfold String.ltb. intros Hbm Hxm.
  destruct (String.compare x m) eqn:Hcxm; try discriminate.
  rewrite String.compare_antisym in Hbm.
  destruct (String.compare m b) eqn:Hcmb; cbn in Hbm; try discriminate.
  - apply String.compare_eq_iff in Hcmb. subst b. rewrite Hcxm. reflexivity.
  - rewrite (string_compare_lt_trans x m b Hcxm Hcmb). reflexivity.
Qed.

Lemma string_ltb_trans (a b c : string) :
  String.ltb a b = true -> String.ltb b c = true -> String.ltb a c = true.
Proof.
  unfold String.ltb. intros Hab Hbc.
  destruct (String.compare a b) eqn:H1; try discriminate.
  destruct (String.compare b c) eqn:H2; try discriminate.
  rewrite (string_compare_lt_trans a b c H1 H2). reflexivity.
Qed.

(** [min] returns an element that no element is smaller than. *)
Lemma py_min_least (l : list string) (best : string) :
  py_min best l ∈ best :: l /\
  Forall (fun x => String.ltb x (py_min best l) = false) (best :: l).
Proof.
  revert best. induction l as [|x l IH]; intros best; cbn [py_min].
  - split; [apply list_elem_of_here|].
    constructor; [apply string_ltb_irrefl | constructor].
  - destruct (IH (if String.ltb x best then x else best)) as [Hin Hall].
    set (m := py_min (if String.ltb x best then x else best) l) in *.
    apply Forall_cons in Hall as [Hhd Htl].
    destruct (String.ltb x best) eqn:Hxb.
    + split.
      * apply list_elem_of_further. exact Hin.
      * constructor; [|constructor; assumption].
        destruct (String.ltb best m) eqn:Hbm; [|reflexivity].
        pose proof (string_ltb_trans x best m Hxb Hbm). congruence.
    + split.
      * apply elem_of_cons in Hin as [-> | Hin].
        -- apply list_elem_of_here.
        -- apply list_elem_of_further, list_elem_of_further. exact Hin.
      * constructor; [assumption|]. constructor; [|assumption].
        destruct (String.ltb x m) eqn:Hxm; [|reflexivity].
        pose proof (string_ltb_below x m best Hhd Hxm). congruence.
Qed.

(** The final report, read off the results table itself: it is the
    no-result message only for a table without a value, and otherwise a
    value of the table that no value of the table is smaller than. *)
Lemma final_message_results (res : list (option string)) :
  report_of_table res (final_message res).
Proof.
  unfold final_message.
  assert (Hmem : forall v, v ∈ found_of res <-> Some v ∈ res).
  { intros v. unfold found_of. rewrite list_elem_of_omap. split.
    - intros ([x|] & Hr & Hid); cbn in Hid; [|discriminate].
      injection Hid as ->. exact Hr.
    - intros H. exists (Some v). split; [exact H | reflexivity]. }
  destruct (found_of res) as [|v vs]; cbn.
  - apply Forall_forall. intros [v|] Hin; [|reflexivity].
    apply Hmem in Hin. inversion Hin.
  - destruct (py_min_least vs v) as [Hin Hall]. split; [apply Hmem; exact Hin|].
    intros x Hx. apply Hmem in Hx. rewrite Forall_forall in Hall.
    apply Hall. exact Hx.
Qed.

(** C10. The shutdown phase does not reach every process of the
    registry when a worker thread takes its handle out of the registry
    while the loop of line 134 walks it.  The two workers of the example
    run are registered and running.  [terminate()] is called on the
    first; its child exits and its worker thread removes it (lines
    64-65) before the loop looks at the list again.  The iterator is at
    position 1 and the list now holds one element: the loop ends, and
    the second process, still registered and still running, is passed
    over.  Nothing is raised and the final report is printed, in the
    shutdown phase alone and in the whole example run.  Without the
    removal both processes are terminated. *)
Theorem shutdown_skips_a_process_after_a_removal :
  let st := initial_state example_config in
  let registry := [running 0; running 1] in
  let steps := [[Remove (running 0)]] in
  let w := {| ticks := ticks example_world;
              processes_at_shutdown := registry;
              registry_ops_at_shutdown := steps |} in
  shutdown st registry steps
  = ([EvTerminate (running 0); EvSleep 2000; EvPrint ReportNone], Ok tt) /\
  apply_ops [Remove (running 0)] registry = [running 1] /\
  running 1 ∈ registry /\
  returncode (running 1) = None /\
  ~ (running 1 ∈ terminated (fst (shutdown st registry steps))) /\
  well_formed example_config w /\
  terminated (fst (main example_config w)) = [running 0] /\
  last (fst (main example_config w)) = Some (EvPrint (ReportFound "180")) /\
  shutdown st registry []
  = ([EvTerminate (running 0); EvTerminate (running 1);
      EvSleep 2000; EvPrint ReportNone], Ok tt).
Proof.
  cbv zeta.
  split; [reflexivity|]. split; [reflexivity|].
  split; [apply list_elem_of_further, list_elem_of_here|].
  split; [reflexivity|]. split.
  { intros H. change (running 1 ∈ [running 0]) in H.
    rewrite !elem_of_cons, elem_of_nil in H.
    destruct H as [H | []]; discriminate H. }
  split; [well_formed_by_evaluation|].
  repeat split; reflexivity.
Qed.

(** * Further properties of the partitioner *)

(** X1. For a valid configuration every segment satisfies
    [TOTAL_START <= ext_start <= seg_start <= seg_end <= ext_end
    <= TOTAL_END]: a worker scans all of its core range, the core range
    is not empty, and no worker is sent outside the total range. *)
Theorem extended_range_brackets_core
  (cfg : Config) (segs : list Segment) (i : nat) (s : Segment) :
  valid_config cfg ->
  partition cfg = ([], Ok segs) ->
  segs !! i = Some s ->
  TOTAL_START cfg <= ext_start s /\
  ext_start s <= seg_start s /\
  seg_start s <= seg_end s /\
  seg_end s <= ext_end s /\
  ext_end s <= TOTAL_END cfg.
Proof.
  intros Hvalid Hpart Hs.
  pose proof (valid_segment_length cfg Hvalid) as [Hlen Hfit].
  destruct Hvalid as (Hrange & Hn & Hov).
  rewrite partition_nonzero in Hpart by lia.
  injection Hpart as <-.
  set (len := (TOTAL_END cfg - TOTAL_START cfg) / NUM_SEGMENTS cfg) in *.
  set (n := NUM_SEGMENTS cfg) in *.
  apply lookup_segments in Hs as [Hi ->].
  unfold make_segment; cbn [ext_start ext_end seg_start seg_end]. fold n.
  assert (H0 : 0 <= Z.of_nat i * len) by nia.
  destruct (Z.ltb_spec (Z.of_nat i) (n - 1)).
  - assert (H1 : (Z.of_nat i + 1) * len <= (n - 1) * len) by nia.
    repeat split; nia.
  - assert (H1 : Z.of_nat i * len <= (n - 1) * len) by nia.
    repeat split; nia.
Qed.

(** The script's own configuration, segment 3. *)
Lemma extended_range_brackets_core_witness :
  valid_config source_config /\
  let s := make_segment source_config 124929964407229 3 in
  TOTAL_START source_config <= ext_start s /\
  ext_start s <= seg_start s /\
  seg_start s <= seg_end s /\
  seg_end s <= ext_end s /\
  ext_end s <= TOTAL_END source_config.
Proof.
  assert (Hv : valid_config source_config).
  { unfold valid_config; simpl. repeat split; try lia; vm_compute; congruence. }
  split; [exact Hv|].
  apply (extended_range_brackets_core source_config
           (make_segment source_config 124929964407229 <$> py_range 8) 3%nat).
  - exact Hv.
  - vm_compute. reflexivity.
  - reflexivity.
Defined.

(** X2. With at least one segment and a total range that is not
    reversed ([TOTAL_START <= TOTAL_END]), every segment but the last
    has exactly [total_len // NUM_SEGMENTS] core values, and the last
    one has that many plus [total_len % NUM_SEGMENTS + 1]: it takes the
    division remainder and the closing bound of the inclusive range.
    The count is not negative, and the core values are the integers
    from [seg_start] on, that many of them. *)
Theorem last_segment_takes_the_remainder
  (cfg : Config) (segs : list Segment) (i : nat) (s : Segment) :
  NUM_SEGMENTS cfg >= 1 ->
  TOTAL_START cfg <= TOTAL_END cfg ->
  partition cfg = ([], Ok segs) ->
  segs !! i = Some s ->
  let total_len := TOTAL_END cfg - TOTAL_START cfg in
  core_length s
  = (if Z.of_nat i <? NUM_SEGMENTS cfg - 1
     then total_len / NUM_SEGMENTS cfg
     else total_len / NUM_SEGMENTS cfg + total_len mod NUM_SEGMENTS cfg + 1) /\
  0 <= core_length s /\
  forall x, in_core s x <-> seg_start s <= x < seg_start s + core_length s.
Proof.
  intros Hn Hrange Hpart Hs total_len.
  rewrite partition_nonzero in Hpart by lia.
  injection Hpart as <-.
  apply lookup_segments in Hs as [Hi ->].
  pose proof (Z.div_mod total_len (NUM_SEGMENTS cfg) ltac:(lia)) as Hdm.
  pose proof (Z.mod_pos_bound total_len (NUM_SEGMENTS cfg) ltac:(lia)) as Hmod.
  assert (Hdiv : 0 <= total_len / NUM_SEGMENTS cfg)
    by (apply Z.div_pos; unfold total_len; lia).
  unfold in_core, core_length, make_segment; cbn [seg_start seg_end].
  fold total_len in Hdm, Hdiv |- *.
  destruct (Z.ltb_spec (Z.of_nat i) (NUM_SEGMENTS cfg - 1)).
  - split; [lia|]. split; [lia|]. intros x. lia.
  - assert (Hi' : Z.of_nat i = NUM_SEGMENTS cfg - 1) by lia.
    rewrite Hi'. split; [nia|]. split; [nia|]. intros x. lia.
Qed.

(** In the example configuration the last segment has 50 + 0 + 1 core
    values, the integers from 150 to 200. *)
Lemma last_segment_takes_the_remainder_witness :
  NUM_SEGMENTS example_config >= 1 /\
  TOTAL_START example_config <= TOTAL_END example_config /\
  let s := make_segment example_config 50 1 in
  core_length s = 50 + 0 + 1 /\
  0 <= core_length s /\
  forall x, in_core s x <-> 150 <= x < 150 + core_length s.
Proof.
  split; [simpl; lia|]. split; [simpl; lia|].
  apply (last_segment_takes_the_remainder example_config
           [make_segment example_config 50 0; make_segment example_config 50 1]
           1%nat).
  - simpl; lia.
  - simpl; lia.
  - reflexivity.
  - reflexivity.
Defined.

(** * Properties of the worker thread *)

Lemma py_str_round_trip (n : Z) : numeric_value (py_str n) = Some n.
Proof.
  unfold numeric_value, py_str. rewrite NilZero.isi.
  - cbn. rewrite DecimalZ.of_to. reflexivity.
  - destruct n; cbn; try discriminate.
    intros [= H]. exact (DecimalPos.Unsigned.to_uint_nonnil _ H).
  - destruct n; cbn; try discriminate.
    intros [= H]. exact (DecimalPos.Unsigned.to_uint_nonnil _ H).
Qed.

Lemma py_str_inj (n m : Z) : py_str n = py_str m -> n = m.
Proof.
  intros H. pose proof (py_str_round_trip n) as Hn.
  rewrite H, py_str_round_trip in Hn. congruence.
Qed.

Lemma string_length_append (a b : string) :
  String.length (a ++ b)%string = (String.length a + String.length b)%nat.
Proof. induction a as [|c a IH]; cbn; [reflexivity | rewrite IH; reflexivity]. Qed.

Lemma string_append_inv_tail (a b t : string) :
  (a ++ t)%string = (b ++ t)%string -> a = b.
Proof.
  revert b. induction a as [|c a IH]; intros [|d b] H; cbn in H.
  - reflexivity.
  - apply (f_equal String.length) in H. cbn in H.
    rewrite string_length_append in H. lia.
  - apply (f_equal String.length) in H. cbn in H.
    rewrite string_length_append in H. lia.
  - injection H as -> H. f_equal. apply IH. exact H.
Qed.

Lemma checkpoint_file_inj (i j : nat) :
  checkpoint_file i = checkpoint_file j -> i = j.
Proof.
  unfold checkpoint_file. intros H.
  cbn in H. injection H as H.
  apply string_append_inv_tail, py_str_inj in H. lia.
Qed.

Lemma startup_segments (cfg : Config) (segs : list Segment) :
  snd (startup cfg) = Ok segs ->
  segs = make_segment cfg
           ((TOTAL_END cfg - TOTAL_START cfg) / NUM_SEGMENTS cfg)
         <$> py_range (NUM_SEGMENTS cfg).
Proof.
  unfold startup, segment_length, floordiv.
  destruct (NUM_SEGMENTS cfg =? 0); [discriminate|].
  destruct (start_workers_spec cfg
              ((TOTAL_END cfg - TOTAL_START cfg) / NUM_SEGMENTS cfg)
              (py_range (NUM_SEGMENTS cfg))) as (tr & Heq & _).
  unfold banner. cbn. rewrite Heq. cbn. congruence.
Qed.

(** X3. No two workers of a run are given the same checkpoint file:
    segments started at different positions have different file
    names. *)
Theorem workers_get_distinct_checkpoint_files
  (cfg : Config) (segs : list Segment) (i j : nat) (s s' : Segment) :
  snd (startup cfg) = Ok segs ->
  segs !! i = Some s ->
  segs !! j = Some s' ->
  i <> j ->
  checkpoint_file (checkpoint s) <> checkpoint_file (checkpoint s').
Proof.
  intros Hstart Hs Hs' Hij Heq.
  apply startup_segments in Hstart. subst segs.
  apply lookup_segments in Hs as [_ ->].
  apply lookup_segments in Hs' as [_ ->].
  apply checkpoint_file_inj in Heq. cbn in Heq. contradiction.
Qed.

(** The two workers of the example configuration. *)
Lemma workers_get_distinct_checkpoint_files_witness :
  checkpoint_file (checkpoint (make_segment example_config 50 0))
  <> checkpoint_file (checkpoint (make_segment example_config 50 1)).
Proof.
  apply (workers_get_distinct_checkpoint_files example_config
           [make_segment example_config 50 0; make_segment example_config 50 1]
           0%nat 1%nat).
  - reflexivity.
  - reflexivity.
  - reflexivity.
  - lia.
Defined.

(** X4. The processor a worker is pinned to is its segment index
    modulo 64, a number from 0 to 63, so two workers are pinned to the
    same processor exactly when their indices agree modulo 64. *)
Theorem workers_share_a_cpu_iff_congruent_mod_64
  (cfg : Config) (i j : nat) (start stop start' stop' : Z) (ck ck' : string) :
  worker_command cfg i start stop ck !! 2%nat
  = Some (py_str (Z.of_nat i mod 64)) /\
  0 <= Z.of_nat i mod 64 < 64 /\
  (worker_command cfg i start stop ck !! 2%nat
   = worker_command cfg j start' stop' ck' !! 2%nat
   <-> Z.of_nat i mod 64 = Z.of_nat j mod 64).
Proof.
  split; [reflexivity|]. split; [apply Z.mod_pos_bound; lia|].
  cbn. split.
  - intros [= H]. apply py_str_inj in H. exact H.
  - intros ->. reflexivity.
Qed.

(** X5. The command line of the worker of a segment has eight
    arguments; the range it hands to the engine reads back as the
    extended bounds of the segment, the processor as the segment index
    modulo 64 and the interval as [CHECKPOINT_INTERVAL]. *)
Theorem spawn_command_decodes_to_extended_range (cfg : Config) (s : Segment) :
  exists cpu lo hi interval,
    spawn_command cfg s
    = ["taskset"; "-c"; cpu; "./prime_search"; lo; hi;
       checkpoint_file (checkpoint s); interval] /\
    numeric_value cpu = Some (Z.of_nat (seg_index s) mod 64) /\
    numeric_value lo = Some (ext_start s) /\
    numeric_value hi = Some (ext_end s) /\
    numeric_value interval = Some (CHECKPOINT_INTERVAL cfg).
Proof.
  eexists _, _, _, _. split; [reflexivity|].
  repeat split; apply py_str_round_trip.
Qed.

Lemma reap_absent (p : Proc) (processes : list Proc) :
  Forall (fun q => pid q <> pid p) processes -> reap p processes = processes.
Proof.
  induction 1 as [|q rest Hq _ IH]; cbn; [reflexivity|].
  destruct (Nat.eqb_spec (pid q) (pid p)); [contradiction | rewrite IH; reflexivity].
Qed.

(** X6. The registry of processes, when process identifiers are
    distinct: taking a process out removes it and nothing else, keeping
    the order of the others; taking out a process that is not registered
    changes nothing; and registering a new process and taking it out
    again gives back the registry. *)
Theorem registry_reap_removes_exactly_one (p : Proc) (processes : list Proc) :
  NoDup (pid <$> processes) ->
  reap p processes
  = List.filter (fun q => negb (pid q =? pid p)%nat) processes /\
  Forall (fun q => pid q <> pid p) (reap p processes) /\
  (Forall (fun q => pid q <> pid p) processes ->
   reap p processes = processes /\
   reap p (register p processes) = processes).
Proof.
  intros Hnd.
  assert (Hfilter : reap p processes
            = List.filter (fun q => negb (pid q =? pid p)%nat) processes).
  { induction processes as [|q rest IH]; [reflexivity|].
    cbn in Hnd. apply NoDup_cons in Hnd as [Hq Hrest]. cbn.
    destruct (Nat.eqb_spec (pid q) (pid p)) as [Heq | Hne]; cbn.
    - rewrite <- (IH Hrest). symmetry. apply reap_absent.
      apply Forall_forall. intros r Hr Hpid. apply Hq.
      rewrite Heq, <- Hpid. apply list_elem_of_fmap_2. exact Hr.
    - f_equal. apply IH. exact Hrest. }
  split; [exact Hfilter|]. split.
  - rewrite Hfilter. apply Forall_forall. intros q Hq.
    apply list_elem_of_In, List.filter_In in Hq as [_ Hq].
    apply negb_true_iff, Nat.eqb_neq in Hq. exact Hq.
  - intros Habs. split; [apply reap_absent; exact Habs|].
    unfold register. clear Hnd Hfilter.
    induction Habs as [|q rest Hq _ IH]; cbn.
    + rewrite Nat.eqb_refl. reflexivity.
    + destruct (Nat.eqb_spec (pid q) (pid p)); [contradiction|].
      rewrite IH. reflexivity.
Qed.

(** A registry of two running processes. *)
Lemma registry_reap_removes_exactly_one_witness :
  NoDup (pid <$> [running 0; running 1]) /\
  reap (running 1) [running 0; running 1] = [running 0].
Proof.
  assert (Hnd : NoDup (pid <$> [running 0; running 1])).
  { cbn. repeat constructor; cbn; intros H;
      repeat (apply elem_of_cons in H as [H | H]; [discriminate|]);
      inversion H. }
  split; [exact Hnd|].
  destruct (registry_reap_removes_exactly_one (running 1)
              [running 0; running 1] Hnd) as [H _].
  rewrite H. reflexivity.
Defined.

(** * Further properties of the polling loop *)

Lemma process_item_prints (cfg : Config) (st : State) (it : Item) :
  Forall (fun e => is_item_print e = true) (fst (process_item cfg st it)).
Proof.
  destruct it as [seg_id line].
  unfold process_item, pymod, getitem, setitem, bind, emit, ret, raise.
  repeat match goal with
         | |- context [if ?b then _ else _] => destruct b
         | |- context [match ?x with Some _ => _ | None => _ end] => destruct x
         end;
    cbn; repeat constructor.
Qed.

(** Only a [SUCCESS:] line takes the [break]. *)
Lemma process_item_break (cfg : Config) (st st' : State) (seg_id : nat)
  (line : string) (tr : list Event) (broke : bool) :
  process_item cfg st (seg_id, line) = (tr, Ok (st', broke)) ->
  if broke
  then startswith "SUCCESS:" line = true
  else startswith "SUCCESS:" line = false /\ results st' = results st /\
       stop_event st' = stop_event st.
Proof.
  unfold process_item, pymod, getitem, setitem.
  destruct (startswith "PROGRESS:" line) eqn:Hp.
  - assert (Hns : startswith "SUCCESS:" line = false).
    { destruct (startswith_inv _ _ Hp) as [r ->]. reflexivity. }
    destruct (PROGRESS_THROTTLE cfg =? 0); cbn; [discriminate|].
    destruct (_ =? 0); cbn.
    + destruct (split_colon line !! 1%nat); cbn; [|discriminate].
      intros [= <- <- <-]. auto.
    + intros [= <- <- <-]. auto.
  - destruct (startswith "SUCCESS:" line).
    + destruct (split_colon line !! 1%nat); cbn -[Nat.ltb]; [|discriminate].
      destruct (seg_id <? length (results st))%nat; cbn; [|discriminate].
      intros [= <- <- <-]. reflexivity.
    + destruct (nonempty line); cbn; intros [= <- <- <-]; auto.
Qed.

Lemma dequeued_app (a b : list Event) :
  dequeued (a ++ b) = dequeued a ++ dequeued b.
Proof.
  induction a as [|e a IH]; [reflexivity|].
  destruct e; cbn; rewrite IH; reflexivity.
Qed.

Lemma dequeued_item_prints (tr : list Event) :
  Forall (fun e => is_item_print e = true) tr -> dequeued tr = [].
Proof.
  induction 1 as [|e tr He _ IH]; [reflexivity|].
  destruct e; try discriminate. exact IH.
Qed.

Lemma zip_with_no_pick (queues : list (list Item)) :
  zip_with (fun (o : option Item) q => option_list o ++ q)
           (replicate (length queues) None) queues = queues.
Proof. induction queues as [|q qs IH]; cbn; [reflexivity | rewrite IH; reflexivity]. Qed.

Lemma omap_no_pick (n : nat) :
  omap id (replicate n (@None Item)) = [].
Proof. induction n; [reflexivity | assumption]. Qed.

(** What one pass does to the queues, when it raises nothing. *)
Lemma drain_picks (cfg : Config) (queues : list (list Item)) :
  forall st act tr st' queues' act',
  drain cfg st queues act = (tr, Ok (st', queues', act')) ->
  exists picks : list (option Item),
    length picks = length queues /\
    length queues' = length queues /\
    queues = zip_with (fun o q => option_list o ++ q) picks queues' /\
    dequeued tr = omap id picks /\
    act' = match dequeued tr with [] => act | _ => true end.
Proof.
  induction queues as [|q rest IH]; intros st act tr st' queues' act'.
  - cbn. intros [= <- <- <- <-]. exists []. repeat split.
  - destruct q as [|it q]; cbn [drain].
    + destruct (drain cfg st rest act) as [tr2 [[[st2 rest2] act2]|e]] eqn:Hd;
        cbn; [|discriminate].
      rewrite app_nil_r. intros [= <- <- <- <-].
      destruct (IH _ _ _ _ _ _ Hd) as (picks & Hl1 & Hl2 & Hz & Hdq & Hact).
      exists (None :: picks). cbn. rewrite Hl1, Hl2, <- Hz.
      repeat split; assumption.
    + pose proof (process_item_prints cfg st it) as Hev.
      destruct (process_item cfg st it) as [ev [[st1 broke]|e]] eqn:Hp;
        cbn in Hev |- *; [|discriminate].
      apply dequeued_item_prints in Hev.
      destruct broke.
      * cbn. rewrite app_nil_r. intros [= <- <- <- <-].
        exists (Some it :: replicate (length rest) None).
        cbn. rewrite length_replicate, zip_with_no_pick, omap_no_pick, Hev.
        repeat split.
      * destruct (drain cfg st1 rest true) as [tr2 [[[st2 rest2] act2]|e]] eqn:Hd;
          cbn; [|discriminate].
        rewrite app_nil_r. intros [= <- <- <- <-].
        destruct (IH _ _ _ _ _ _ Hd) as (picks & Hl1 & Hl2 & Hz & Hdq & Hact).
        exists (Some it :: picks). cbn.
        rewrite Hl1, Hl2, <- Hz, dequeued_app, Hev. cbn.
        repeat split; [rewrite Hdq; reflexivity|].
        rewrite Hact. destruct (dequeued tr2); reflexivity.
Qed.

(** X7. A pass over the queues that raises nothing takes at most one
    item from each queue, always from the front: the queues before the
    pass are the queues after it with the taken items put back in front,
    no queue appears or disappears, and the items dequeued are exactly
    the taken ones, in queue order. *)
Theorem drain_takes_at_most_one_item_per_queue
  (cfg : Config) (st st' : State) (queues queues' : list (list Item))
  (act act' : bool) (tr : list Event) :
  drain cfg st queues act = (tr, Ok (st', queues', act')) ->
  exists picks : list (option Item),
    length picks = length queues /\
    length queues' = length queues /\
    queues = zip_with (fun o q => option_list o ++ q) picks queues' /\
    dequeued tr = omap id picks.
Proof.
  intros H. destruct (drain_picks cfg queues _ _ _ _ _ _ H)
    as (picks & H1 & H2 & H3 & H4 & _).
  exists picks. auto.
Qed.

(** A pass over three queues, the middle one empty. *)
Lemma drain_takes_at_most_one_item_per_queue_witness :
  exists picks : list (option Item),
    length picks = 3%nat /\
    length [[(0%nat, "b")]; []; []] = 3%nat /\
    [[(0%nat, "a"); (0%nat, "b")]; []; [(2%nat, "PROGRESS:7")]]
    = zip_with (fun o q => option_list o ++ q) picks [[(0%nat, "b")]; []; []] /\
    dequeued [EvGet (0%nat, "a"); EvPrint (InfoLog 0 "a");
              EvGet (2%nat, "PROGRESS:7")]
    = omap id picks.
Proof.
  apply (drain_takes_at_most_one_item_per_queue example_config
           (initial_state example_config)
           (with_counter (initial_state example_config) 1)
           [[(0%nat, "a"); (0%nat, "b")]; []; [(2%nat, "PROGRESS:7")]]
           [[(0%nat, "b")]; []; []] false true).
  reflexivity.
Defined.

Lemma pre_shutdown_events (tr : list Event) :
  Forall pre_shutdown_event tr ->
  terminated tr = [] /\ count_events is_report tr = 0%nat.
Proof.
  induction 1 as [|e tr He _ [IH1 IH2]]; [split; reflexivity|].
  rewrite count_events_cons, IH2.
  destruct He as [He | He]; destruct e as [[]| | | |]; cbn in *;
    try contradiction; split; (assumption || reflexivity).
Qed.

Lemma start_workers_events (cfg : Config) (len : Z) (idx : list nat) :
  Forall startup_event (fst (start_workers cfg len idx)).
Proof.
  induction idx as [|i idx IH]; [constructor|].
  cbn [start_workers].
  destruct (start_workers cfg len idx) as [tr [segs|e]]; cbn in *;
    repeat (constructor; [exact I || reflexivity|]);
    rewrite ?app_nil_r; assumption.
Qed.

Lemma startup_events (cfg : Config) :
  Forall startup_event (fst (startup cfg)).
Proof.
  unfold startup, segment_length, floordiv, banner.
  destruct (NUM_SEGMENTS cfg =? 0); cbn.
  - repeat constructor.
  - pose proof (start_workers_events cfg
                  ((TOTAL_END cfg - TOTAL_START cfg) / NUM_SEGMENTS cfg)
                  (py_range (NUM_SEGMENTS cfg))) as H.
    destruct (start_workers _ _ _) as [tr r]. cbn in *.
    repeat (constructor; [exact I|]). exact H.
Qed.

Lemma item_prints_loop_events (tr : list Event) :
  Forall (fun e => is_item_print e = true) tr -> Forall loop_event tr.
Proof.
  intros H. eapply Forall_impl; [exact H|].
  intros [[]| | | |]; cbn; intros He; try discriminate; exact I.
Qed.

Lemma drain_events (cfg : Config) (queues : list (list Item)) :
  forall st act,
  Forall (fun e => is_get e = true \/ is_item_print e = true)
         (fst (drain cfg st queues act)).
Proof.
  induction queues as [|q rest IH]; intros st act; [constructor|].
  destruct q as [|it q]; cbn [drain].
  - specialize (IH st act).
    destruct (drain cfg st rest act) as [tr [[[st2 rest2] act2]|e]]; cbn in *;
      rewrite ?app_nil_r; exact IH.
  - pose proof (process_item_prints cfg st it) as Hev.
    destruct (process_item cfg st it) as [ev [[st1 broke]|e]]; cbn in *.
    + assert (Hev' : Forall (fun e => is_get e = true \/ is_item_print e = true) ev)
        by (eapply Forall_impl; [exact Hev | intros e He; right; exact He]).
      destruct broke; cbn.
      * rewrite app_nil_r. constructor; [left; reflexivity | exact Hev'].
      * specialize (IH st1 true).
        destruct (drain cfg st1 rest true) as [tr [[[st2 rest2] act2]|e]];
          cbn in *; rewrite ?app_nil_r;
          (constructor; [left; reflexivity|]);
          apply Forall_app; split; assumption.
    + constructor; [left; reflexivity|].
      eapply Forall_impl; [exact Hev | intros x Hx; right; exact Hx].
Qed.

Lemma drain_loop_events (cfg : Config) (queues : list (list Item))
  (st : State) (act : bool) :
  Forall loop_event (fst (drain cfg st queues act)).
Proof.
  eapply Forall_impl; [apply drain_events|].
  intros [[]| | |it|]; cbn; intros [H | H]; try discriminate; exact I.
Qed.

Lemma main_loop_events (cfg : Config) (ticks : list Tick) :
  forall st, Forall loop_event (fst (main_loop cfg ticks st)).
Proof.
  induction ticks as [|t rest IH]; intros st; cbn [main_loop].
  - destruct (stop_event st); constructor.
  - destruct (stop_event st); [constructor|].
    destruct t as [arrivals processes|]; [|repeat constructor].
    pose proof (drain_loop_events cfg (deliver arrivals (output_queues st)) st false)
      as Hd.
    destruct (drain _ _ _ _) as [tr1 [[[st1 qs1] act1]|e]]; cbn in *;
      [|exact Hd].
    specialize (IH (with_queues st1 qs1)).
    destruct act1, (all_polled processes); cbn;
      try destruct (main_loop cfg rest _) as [tr2 [[st2 status]|e]]; cbn in *;
      rewrite ?app_nil_r;
      repeat (apply Forall_app; split); try assumption;
      repeat constructor; try assumption.
Qed.

(** The trace of [main]: before the shutdown phase nothing but start-up
    and loop events happen, and the shutdown phase is entered exactly
    when the loop is left without an exception. *)
Lemma main_shape (cfg : Config) (w : World) :
  match snd (main cfg w) with
  | Ok (st, Exited) =>
      exists pre, Forall pre_shutdown_event pre /\
                  fst (main cfg w)
                  = pre ++ fst (shutdown st (processes_at_shutdown w) (registry_ops_at_shutdown w))
  | _ => Forall pre_shutdown_event (fst (main cfg w))
  end.
Proof.
  unfold main.
  pose proof (startup_events cfg) as H0.
  destruct (startup cfg) as [tr0 [segs|e]]; cbn in *.
  - pose proof (main_loop_events cfg (ticks w) (initial_state cfg)) as H1.
    assert (H0' : Forall pre_shutdown_event tr0)
      by (eapply Forall_impl; [exact H0 | intros x Hx; left; exact Hx]).
    assert (H1' : Forall pre_shutdown_event
                    (fst (main_loop cfg (ticks w) (initial_state cfg))))
      by (eapply Forall_impl; [exact H1 | intros x Hx; right; exact Hx]).
    destruct (main_loop _ _ _) as [tr [[st status]|e]]; cbn in *.
    + destruct status; cbn.
      * rewrite app_nil_r. apply Forall_app; split; assumption.
      * destruct (shutdown_spec st (processes_at_shutdown w)
                    (registry_ops_at_shutdown w)) as (called & Heq & _).
        rewrite Heq. cbn. rewrite app_nil_r.
        exists (tr0 ++ tr). split; [apply Forall_app; split; assumption|].
        rewrite <- app_assoc, ?Heq. reflexivity.
    + apply Forall_app; split; assumption.
  - eapply Forall_impl; [exact H0 | intros x Hx; left; exact Hx].
Qed.

Lemma terminated_app (a b : list Event) :
  terminated (a ++ b) = terminated a ++ terminated b.
Proof.
  induction a as [|e a IH]; [reflexivity|].
  destruct e; cbn; rewrite IH; reflexivity.
Qed.

Lemma shutdown_reports_once (st : State) (processes : list Proc)
    (steps : list (list RegistryOp)) :
  count_events is_report (fst (shutdown st processes steps)) = 1%nat.
Proof.
  destruct (shutdown_spec st processes steps) as (called & -> & _).
  cbn [fst]. rewrite count_events_app.
  assert (H : count_events is_report (EvTerminate <$> called) = 0%nat).
  { induction called as [|p rest IH]; [reflexivity|].
    cbn [fmap list_fmap]. rewrite count_events_cons. exact IH. }
  rewrite H, !count_events_cons. unfold final_message.
  destruct (found_of (results st)); reflexivity.
Qed.

(** X8. A run that ends with an uncaught exception never reaches the
    shutdown phase: no [terminate()] is called on any worker process and
    no final report is printed. *)
Theorem failed_run_terminates_no_worker (cfg : Config) (w : World) (e : PyExn) :
  snd (main cfg w) = Raise e ->
  terminated (fst (main cfg w)) = [] /\
  count_events is_report (fst (main cfg w)) = 0%nat.
Proof.
  intros H. pose proof (main_shape cfg w) as Hshape. rewrite H in Hshape.
  apply pre_shutdown_events. exact Hshape.
Qed.

(** With a throttle of zero the first progress line of the example run
    raises [ZeroDivisionError]. *)
Lemma failed_run_terminates_no_worker_witness :
  snd (main zero_throttle_config example_world) = Raise ZeroDivisionError /\
  terminated (fst (main zero_throttle_config example_world)) = [] /\
  count_events is_report (fst (main zero_throttle_config example_world)) = 0%nat.
Proof.
  split; [reflexivity|].
  apply (failed_run_terminates_no_worker zero_throttle_config example_world
           ZeroDivisionError).
  reflexivity.
Defined.

Lemma exited_run_facts (cfg : Config) (w : World) (st : State) :
  snd (main cfg w) = Ok (st, Exited) ->
  terminated (fst (main cfg w))
    `sublist_of` processes_at_shutdown w
                 ++ late_registrations (registry_ops_at_shutdown w) /\
  head (terminated (fst (main cfg w))) = head (processes_at_shutdown w) /\
  (registry_at_rest (registry_ops_at_shutdown w) ->
   terminated (fst (main cfg w)) = processes_at_shutdown w) /\
  count_events is_report (fst (main cfg w)) = 1%nat /\
  last (fst (main cfg w)) = Some (EvPrint (final_message (results st))) /\
  report_of_table (results st) (final_message (results st)).
Proof.
  intros H. pose proof (main_shape cfg w) as Hshape. rewrite H in Hshape.
  destruct Hshape as (pre & Hpre & ->).
  apply pre_shutdown_events in Hpre as [Ht Hr].
  rewrite terminated_app, count_events_app, Ht, Hr, shutdown_reports_once,
    last_shutdown. cbn [app].
  destruct (terminated_shutdown st (processes_at_shutdown w)
              (registry_ops_at_shutdown w)) as (Hsub & Hhead & Hq).
  repeat (split; [assumption || reflexivity|]).
  apply final_message_results.
Qed.

(** X9. In a run that leaves the loop without an exception, whatever
    the worker threads do to the registry while the shutdown phase walks
    it, the [terminate()] calls of the whole run are made on processes
    of the registry as the shutdown phase finds it or on processes
    registered meanwhile, in that order and on none more often than it
    occurs there; the first process of the registry gets the first call;
    when the registry is at rest while it is walked, the calls are
    exactly the processes of the registry.  Exactly one final report is
    printed, it is the last event of the run, and it is the no-result
    message only if the results table holds no value, and otherwise a
    value of the table that no value of the table is smaller than. *)
Theorem completed_run_terminates_within_registry_and_reports_once
  (cfg : Config) (w : World) (st : State) :
  snd (main cfg w) = Ok (st, Exited) ->
  terminated (fst (main cfg w))
    `sublist_of` processes_at_shutdown w
                 ++ late_registrations (registry_ops_at_shutdown w) /\
  head (terminated (fst (main cfg w))) = head (processes_at_shutdown w) /\
  (registry_at_rest (registry_ops_at_shutdown w) ->
   terminated (fst (main cfg w)) = processes_at_shutdown w) /\
  count_events is_report (fst (main cfg w)) = 1%nat /\
  exists m, last (fst (main cfg w)) = Some (EvPrint m) /\
            report_of_table (results st) m.
Proof.
  intros H. pose proof (main_shape cfg w) as Hshape. rewrite H in Hshape.
  destruct Hshape as (pre & Hpre & ->).
  apply pre_shutdown_events in Hpre as [Ht Hr].
  rewrite terminated_app, count_events_app, Ht, Hr, shutdown_reports_once,
    last_shutdown. cbn [app].
  destruct (terminated_shutdown st (processes_at_shutdown w)
              (registry_ops_at_shutdown w)) as (Hsub & Hhead & Hq).
  repeat (split; [assumption || reflexivity|]).
  exists (final_message (results st)).
  split; [reflexivity | apply final_message_results].
Qed.

(** The example run leaves the loop; the first of its two workers is
    removed while the registry is walked. *)
Lemma completed_run_terminates_within_registry_and_reports_once_witness :
  let w := {| ticks := ticks example_world;
              processes_at_shutdown := [running 0; running 1];
              registry_ops_at_shutdown := [[Remove (running 0)]] |} in
  let st := {| results := [None; Some "180"]; stop_event := true;
               progress_counter := 1;
               output_queues := [[(0%nat, "SUCCESS:120")]; []] |} in
  snd (main example_config w) = Ok (st, Exited) /\
  terminated (fst (main example_config w))
    `sublist_of` processes_at_shutdown w
                 ++ late_registrations (registry_ops_at_shutdown w) /\
  head (terminated (fst (main example_config w)))
  = head (processes_at_shutdown w) /\
  (registry_at_rest (registry_ops_at_shutdown w) ->
   terminated (fst (main example_config w)) = processes_at_shutdown w) /\
  count_events is_report (fst (main example_config w)) = 1%nat /\
  exists m, last (fst (main example_config w)) = Some (EvPrint m) /\
            report_of_table (results st) m.
Proof.
  cbv zeta. split; [reflexivity|].
  apply (completed_run_terminates_within_registry_and_reports_once
           example_config).
  reflexivity.
Defined.

Lemma main_loop_interrupt_exits (cfg : Config) (ticks : list Tick) :
  forall st tr st' status,
  main_loop cfg ticks st = (tr, Ok (st', status)) ->
  KeyboardInterrupt ∈ ticks ->
  status = Exited.
Proof.
  induction ticks as [|t rest IH]; intros st tr st' status Heq Hin.
  - inversion Hin.
  - cbn [main_loop] in Heq. destruct (stop_event st).
    { injection Heq as _ _ <-. reflexivity. }
    destruct t as [arrivals processes|].
    + apply elem_of_cons in Hin as [Hin | Hin]; [discriminate|].
      destruct (drain _ _ _ _) as [tr1 [[[st1 qs1] act1]|e]]; cbn in Heq;
        [|discriminate].
      destruct act1, (all_polled processes); cbn in Heq;
        try (injection Heq as _ _ <-; reflexivity);
        destruct (main_loop cfg rest (with_queues st1 qs1))
          as [tr2 [[st2 status2]|e]] eqn:Hrec; cbn in Heq; try discriminate;
        injection Heq as _ _ <-; eapply IH; eassumption.
    + injection Heq as _ _ <-. reflexivity.
Qed.

(** X10. In a well-formed run whose environment interrupts the
    coordinator at some tick, the loop is left and the shutdown phase is
    entered and carried through: [terminate()] is called on processes of
    the registry, or registered meanwhile, only, in that order and on
    none more often than it occurs there, starting with the first
    process of the registry, and on exactly the processes of the
    registry when the registry is at rest meanwhile; the final report is
    printed last and reads the results table as it is. *)
Theorem interrupt_leads_to_shutdown_and_report (cfg : Config) (w : World) :
  well_formed cfg w ->
  KeyboardInterrupt ∈ ticks w ->
  exists tr st,
    main cfg w = (tr, Ok (st, Exited)) /\
    terminated tr
      `sublist_of` processes_at_shutdown w
                   ++ late_registrations (registry_ops_at_shutdown w) /\
    head (terminated tr) = head (processes_at_shutdown w) /\
    (registry_at_rest (registry_ops_at_shutdown w) ->
     terminated tr = processes_at_shutdown w) /\
    exists m, last tr = Some (EvPrint m) /\ report_of_table (results st) m.
Proof.
  intros Hwf Hin.
  destruct (main_spec cfg w Hwf)
    as (tr0 & tr & st & status & _ & Hmain & _).
  assert (Hstatus : status = Exited).
  { unfold main in Hmain.
    destruct (startup cfg) as [tr0' [segs|e]]; cbn in Hmain; [|discriminate].
    destruct (main_loop cfg (ticks w) (initial_state cfg))
      as [tr' [[st' status']|e]] eqn:Hloop; cbn in Hmain; [|discriminate].
    pose proof (main_loop_interrupt_exits _ _ _ _ _ _ Hloop Hin) as ->.
    destruct (shutdown_spec st' (processes_at_shutdown w)
                (registry_ops_at_shutdown w)) as (called & Heq & _).
    cbn in Hmain. rewrite Heq in Hmain. cbn in Hmain.
    injection Hmain as _ _ <-. reflexivity. }
  subst status. eexists _, st. split; [exact Hmain|].
  destruct (exited_run_facts cfg w st) as (Hs & Hh & Hq & _ & Hl & Hrep).
  { rewrite Hmain. reflexivity. }
  rewrite Hmain in Hs, Hh, Hq, Hl. cbn [fst] in Hs, Hh, Hq, Hl.
  repeat (split; [assumption|]).
  exists (final_message (results st)). split; assumption.
Qed.

(** The example run with an interrupt as second tick, and with the
    first worker removed while the registry is walked. *)
Lemma interrupt_leads_to_shutdown_and_report_witness :
  let w := {| ticks := [Poll [(0%nat, ["PROGRESS:101"])] [running 0; running 1];
                        KeyboardInterrupt];
              processes_at_shutdown := [running 0; running 1];
              registry_ops_at_shutdown := [[Remove (running 0)]] |} in
  well_formed example_config w /\
  KeyboardInterrupt ∈ ticks w /\
  exists tr st,
    main example_config w = (tr, Ok (st, Exited)) /\
    terminated tr
      `sublist_of` processes_at_shutdown w
                   ++ late_registrations (registry_ops_at_shutdown w) /\
    head (terminated tr) = head (processes_at_shutdown w) /\
    (registry_at_rest (registry_ops_at_shutdown w) ->
     terminated tr = processes_at_shutdown w) /\
    exists m, last tr = Some (EvPrint m) /\ report_of_table (results st) m.
Proof.
  cbv zeta. split; [well_formed_by_evaluation|].
  split; [cbn; apply list_elem_of_further, list_elem_of_here|].
  apply (interrupt_leads_to_shutdown_and_report example_config).
  - well_formed_by_evaluation.
  - cbn; apply list_elem_of_further, list_elem_of_here.
Defined.

Lemma drain_idle (cfg : Config) (queues : list (list Item)) :
  forall st act tr st' queues' act',
  drain cfg st queues act = (tr, Ok (st', queues', act')) ->
  dequeued tr = [] ->
  tr = [] /\ st' = st /\ queues' = queues /\ act' = act.
Proof.
  induction queues as [|q rest IH]; intros st act tr st' queues' act'.
  - cbn. intros [= <- <- <- <-] _. repeat split.
  - destruct q as [|it q]; cbn [drain].
    + destruct (drain cfg st rest act) as [tr2 [[[st2 rest2] act2]|e]] eqn:Hd;
        cbn; [|discriminate].
      rewrite app_nil_r. intros [= <- <- <- <-] Hdq.
      destruct (IH _ _ _ _ _ _ Hd Hdq) as (-> & -> & -> & ->). repeat split.
    + destruct (process_item cfg st it) as [ev [[st1 broke]|e]];
        cbn; [|discriminate].
      destruct broke; cbn.
      * intros [= <- <- <- <-]. discriminate.
      * destruct (drain cfg st1 rest true) as [tr2 [[[st2 rest2] act2]|e]];
          cbn; [|discriminate].
        intros [= <- <- <- <-]. discriminate.
Qed.

(** X11. The idle sleep of the loop is taken exactly in the ticks that
    dequeue nothing: such a tick does nothing but sleep 10 ms and leaves
    the state as the deliveries made it, and a tick that dequeues an item
    never sleeps. *)
Theorem loop_sleeps_exactly_on_idle_ticks
  (cfg : Config) (st st' : State) (arrivals : list (nat * list string))
  (processes : list Proc) (tr : list Event) (status : LoopStatus) :
  stop_event st = false ->
  main_loop cfg [Poll arrivals processes] st = (tr, Ok (st', status)) ->
  (dequeued tr = [] ->
   tr = [EvSleep 10] /\
   st' = with_queues st (deliver arrivals (output_queues st))) /\
  (dequeued tr <> [] -> Forall (fun e => e <> EvSleep 10) tr).
Proof.
  intros Hstop Heq. cbn [main_loop] in Heq. rewrite Hstop in Heq.
  pose proof (drain_events cfg (deliver arrivals (output_queues st)) st false)
    as Hev.
  destruct (drain cfg st (deliver arrivals (output_queues st)) false)
    as [tr1 [[[st1 qs1] act1]|e]] eqn:Hd; cbn in Heq, Hev; [|discriminate].
  destruct (drain_picks cfg _ _ _ _ _ _ _ Hd) as (_ & _ & _ & _ & _ & Hact).
  assert (Htr : tr = tr1 ++ (if act1 then [] else [EvSleep 10]) /\
                st' = with_queues st1 qs1).
  { destruct act1, (all_polled processes), (stop_event st1); cbn in Heq;
      rewrite ?app_nil_r in Heq;
      injection Heq as <- <- _; rewrite ?app_nil_r; split; reflexivity. }
  destruct Htr as [-> ->]. split.
  - rewrite dequeued_app. intros Hdq.
    apply app_eq_nil in Hdq as [Hdq _].
    destruct (drain_idle cfg _ _ _ _ _ _ _ Hd Hdq) as (-> & -> & -> & ->).
    split; reflexivity.
  - rewrite dequeued_app. intros Hdq.
    assert (Hne : dequeued tr1 <> []).
    { intros H0. apply Hdq. rewrite H0. destruct act1; reflexivity. }
    destruct (dequeued tr1) eqn:Hq; [contradiction|]. subst act1.
    rewrite app_nil_r. eapply Forall_impl; [exact Hev|].
    intros x [Hx | Hx] ->; discriminate.
Qed.

(** A tick in which nothing was delivered. *)
Lemma loop_sleeps_exactly_on_idle_ticks_witness :
  (dequeued [EvSleep 10] = [] ->
   [EvSleep 10] = [EvSleep 10] /\
   with_queues (initial_state example_config) [[]]
   = with_queues (initial_state example_config)
       (deliver [(0%nat, [])] (output_queues (initial_state example_config)))) /\
  (dequeued [EvSleep 10] <> [] -> Forall (fun e => e <> EvSleep 10) [EvSleep 10]).
Proof.
  apply (loop_sleeps_exactly_on_idle_ticks example_config
           (initial_state example_config)
           (with_queues (initial_state example_config) [[]])
           [(0%nat, [])] [running 0] [EvSleep 10] Running).
  - reflexivity.
  - reflexivity.
Defined.

Lemma drain_quiet_tails (cfg : Config) (queues : list (list Item)) :
  forall st act tr st' queues' act',
  drain cfg st queues act = (tr, Ok (st', queues', act')) ->
  Forall (fun q : list Item =>
            match q with
            | (_, line) :: _ => startswith "SUCCESS:" line = false
            | [] => True
            end) queues ->
  queues' = tail <$> queues /\
  results st' = results st /\
  stop_event st' = stop_event st.
Proof.
  induction queues as [|q rest IH]; intros st act tr st' queues' act' Heq Hh.
  - cbn in Heq. injection Heq as _ <- <- _. repeat split.
  - apply Forall_cons in Hh as [Hq Hrest].
    destruct q as [|[seg_id line] q]; cbn [drain] in Heq.
    + destruct (drain cfg st rest act) as [tr2 [[[st2 rest2] act2]|e]] eqn:Hd;
        cbn in Heq; [|discriminate].
      injection Heq as _ <- <- _.
      destruct (IH _ _ _ _ _ _ Hd Hrest) as (-> & Hr & Hs). repeat split; assumption.
    + destruct (process_item cfg st (seg_id, line)) as [ev [[st1 broke]|e]] eqn:Hp;
        cbn in Heq; [|discriminate].
      pose proof (process_item_break _ _ _ _ _ _ _ Hp) as Hb.
      destruct broke; [congruence|]. destruct Hb as (_ & Hr1 & Hs1).
      destruct (drain cfg st1 rest true) as [tr2 [[[st2 rest2] act2]|e]] eqn:Hd;
        cbn in Heq; [|discriminate].
      injection Heq as _ <- <- _.
      destruct (IH _ _ _ _ _ _ Hd Hrest) as (-> & Hr & Hs).
      repeat split; congruence.
Qed.

(** X12. When every worker process has exited, the loop is left after
    reading at most the first line of each queue.  If none of these first
    lines is a [SUCCESS:] line, nothing is recorded, and whatever stands
    behind them, [SUCCESS:] lines included, stays in the queues and is
    never read. *)
Theorem lines_behind_queue_heads_are_never_read_at_exit
  (cfg : Config) (st : State) (arrivals : list (nat * list string))
  (processes : list Proc) :
  PROGRESS_THROTTLE cfg > 0 ->
  arrivals_ok (length (results st)) arrivals ->
  queues_ok (length (results st)) (output_queues st) ->
  stop_event st = false ->
  Forall (fun p => returncode p <> None) processes ->
  Forall (fun q : list Item =>
            match q with
            | (_, line) :: _ => startswith "SUCCESS:" line = false
            | [] => True
            end) (deliver arrivals (output_queues st)) ->
  exists tr st',
    (forall rest,
       main_loop cfg (Poll arrivals processes :: rest) st
       = (tr, Ok (st', Exited))) /\
    results st' = results st /\
    output_queues st' = tail <$> deliver arrivals (output_queues st).
Proof.
  intros Ht Harr Hqs Hstop Hexit Hheads.
  pose proof (deliver_ok _ _ Harr _ Hqs) as Hdel.
  destruct (drain_spec cfg Ht _ st false Hdel)
    as (tr1 & st1 & qs1 & act1 & Heq & _).
  destruct (drain_quiet_tails cfg _ _ _ _ _ _ _ Heq Hheads) as (-> & Hr & _).
  exists (tr1 ++ if act1 then [] else [EvSleep 10]),
         (with_queues st1 (tail <$> deliver arrivals (output_queues st))).
  split; [|split; [exact Hr | reflexivity]].
  intros rest. cbn [main_loop]. rewrite Hstop, Heq. cbn [bind].
  rewrite (all_polled_exited _ Hexit).
  destruct act1; cbn; rewrite ?app_nil_r; reflexivity.
Qed.

(** Worker 0 wrote a progress line and then [SUCCESS:120]; both workers
    have exited when the first tick checks the registry. *)
Lemma lines_behind_queue_heads_are_never_read_at_exit_witness :
  exists tr st',
    (forall rest,
       main_loop example_config
         (Poll [(0%nat, ["PROGRESS:101"; "SUCCESS:120"])]
               [exited 0 0; exited 1 0] :: rest)
         (initial_state example_config)
       = (tr, Ok (st', Exited))) /\
    results st' = results (initial_state example_config) /\
    output_queues st'
    = tail <$> deliver [(0%nat, ["PROGRESS:101"; "SUCCESS:120"])]
                       (output_queues (initial_state example_config)).
Proof.
  apply (lines_behind_queue_heads_are_never_read_at_exit example_config
           (initial_state example_config)
           [(0%nat, ["PROGRESS:101"; "SUCCESS:120"])] [exited 0 0; exited 1 0]).
  - reflexivity.
  - repeat constructor.
  - constructor.
  - reflexivity.
  - repeat constructor; discriminate.
  - repeat constructor.
Defined.

(** * Further properties of the line protocol *)

Lemma split_colon_no_colon (a : string) :
  no_colon a = true -> split_colon a = [a].
Proof.
  induction a as [|c a IH]; cbn; [reflexivity|].
  destruct (Ascii.eqb c ":"); cbn; [discriminate|].
  intros H. rewrite (IH H). reflexivity.
Qed.

Lemma split_colon_at_colon (a b : string) :
  no_colon a = true ->
  split_colon (a ++ String ":" b)%string = a :: split_colon b.
Proof.
  induction a as [|c a IH]; cbn; [reflexivity|].
  destruct (Ascii.eqb c ":"); cbn; [discriminate|].
  intros H. rewrite (IH H). reflexivity.
Qed.

Lemma startswith_append (p x : string) : startswith p (p ++ x)%string = true.
Proof.
  unfold startswith. induction p as [|a p IH]; cbn.
  - destruct x; reflexivity.
  - destruct (ascii_dec a a); [exact IH | contradiction].
Qed.

(** X13. The value taken from a [SUCCESS:] line is the text between
    the first colon and the second one, or the end of the line, stripped
    of surrounding whitespace: for a value of characters below 128, where
    [strip] is [str.strip()], a line with more text after a second colon
    records and logs the same value as the line cut before it. *)
Theorem success_value_stops_at_second_colon
  (cfg : Config) (st : State) (seg_id : nat) (value rest : string) :
  ascii_only value = true ->
  no_colon value = true ->
  (seg_id < length (results st))%nat ->
  process_item cfg st (seg_id, ("SUCCESS:" ++ value)%string)
  = ([EvPrint (SuccessLog seg_id (strip value))],
     Ok (with_success st (<[seg_id := Some (strip value)]> (results st)), true)) /\
  process_item cfg st (seg_id, ("SUCCESS:" ++ value ++ String ":" rest)%string)
  = process_item cfg st (seg_id, ("SUCCESS:" ++ value)%string).
Proof.
  intros _ Hv Hseg. apply Nat.ltb_lt in Hseg.
  assert (H1 : split_colon ("SUCCESS:" ++ value)%string = ["SUCCESS"; value]).
  { cbn. rewrite (split_colon_no_colon value Hv). reflexivity. }
  assert (H2 : split_colon ("SUCCESS:" ++ value ++ String ":" rest)%string
               = "SUCCESS" :: value :: split_colon rest).
  { cbn. rewrite (split_colon_at_colon value rest Hv). reflexivity. }
  pose proof (startswith_append "SUCCESS:" value) as Hs1.
  pose proof (startswith_append "SUCCESS:" (value ++ String ":" rest)) as Hs2.
  unfold process_item, getitem, setitem.
  rewrite H1, H2, Hs1, Hs2.
  change (startswith "PROGRESS:" ("SUCCESS:" ++ value)) with false.
  change (startswith "PROGRESS:" ("SUCCESS:" ++ value ++ String ":" rest))
    with false.
  cbn -[Nat.ltb]. rewrite Hseg. split; reflexivity.
Qed.

(** A value followed by a remark. *)
Lemma success_value_stops_at_second_colon_witness :
  ascii_only " 180 " = true /\
  no_colon " 180 " = true /\
  process_item example_config (initial_state example_config)
    (1%nat, ("SUCCESS:" ++ " 180 ")%string)
  = ([EvPrint (SuccessLog 1 "180")],
     Ok (with_success (initial_state example_config) [None; Some "180"], true)) /\
  process_item example_config (initial_state example_config)
    (1%nat, ("SUCCESS:" ++ " 180 " ++ String ":" " found")%string)
  = process_item example_config (initial_state example_config)
      (1%nat, ("SUCCESS:" ++ " 180 ")%string).
Proof.
  split; [reflexivity|]. split; [reflexivity|].
  apply (success_value_stops_at_second_colon example_config
           (initial_state example_config) 1 " 180 " " found").
  - reflexivity.
  - reflexivity.
  - vm_compute. repeat constructor.
Defined.

Lemma lstrip_all_space (s : string) :
  all_space s = true -> lstrip s = EmptyString.
Proof.
  induction s as [|c s IH]; cbn; [reflexivity|].
  destruct (is_space c); cbn; [exact IH | discriminate].
Qed.

(** X14. A line without a tag never raises and never changes the
    state, whatever the configuration and the segment index: it is logged
    once, verbatim, when it is not empty.  A line that the engine wrote
    with nothing but whitespace reaches the queue as the empty string and
    leaves no trace at all. *)
Theorem untagged_lines_are_harmless
  (cfg : Config) (st : State) (seg_id : nat) :
  (forall line,
     startswith "PROGRESS:" line = false ->
     startswith "SUCCESS:" line = false ->
     process_item cfg st (seg_id, line)
     = ((if nonempty line then [EvPrint (InfoLog seg_id line)] else []),
        Ok (st, false))) /\
  (forall raw queue,
     all_space raw = true ->
     reader seg_id [raw] queue = queue ++ [(seg_id, EmptyString)] /\
     process_item cfg st (seg_id, strip raw) = ([], Ok (st, false))).
Proof.
  split.
  - intros line Hp Hs. unfold process_item. rewrite Hp, Hs.
    destruct (nonempty line); reflexivity.
  - intros raw queue Hraw. unfold reader, strip. cbn [map].
    rewrite (lstrip_all_space raw Hraw). split; reflexivity.
Qed.

(** Two untagged lines, one of them blank. *)
Lemma untagged_lines_are_harmless_witness :
  process_item zero_throttle_config (initial_state zero_throttle_config)
    (7%nat, "loading sieve")
  = ([EvPrint (InfoLog 7 "loading sieve")],
     Ok (initial_state zero_throttle_config, false)) /\
  reader 7 ["  "] [] = [(7%nat, EmptyString)] /\
  process_item zero_throttle_config (initial_state zero_throttle_config)
    (7%nat, strip "  ")
  = ([], Ok (initial_state zero_throttle_config, false)).
Proof.
  destruct (untagged_lines_are_harmless zero_throttle_config
              (initial_state zero_throttle_config) 7) as [H1 H2].
  split.
  - apply (H1 "loading sieve"); reflexivity.
  - apply (H2 "  " []). reflexivity.
Defined.

(** * The window test *)

Lemma primes_among_cons (is_prime : Z -> bool) (start : Z) (i : nat)
  (idx : list nat) :
  primes_among is_prime start (i :: idx)
  = (if is_prime (start + Z.of_nat i) then 1 else 0)
    + primes_among is_prime start idx.
Proof.
  unfold primes_among. cbn. destruct (is_prime _); cbn [length]; lia.
Qed.

Lemma primes_among_nonneg (is_prime : Z -> bool) (start : Z) (idx : list nat) :
  0 <= primes_among is_prime start idx.
Proof. unfold primes_among. lia. Qed.

Lemma count_primes_loop_spec (is_prime : Z -> bool) (start : Z) (idx : list nat) :
  forall count, count <= 12 ->
  count_primes_loop is_prime start idx count
  = Z.min (count + primes_among is_prime start idx) 13.
Proof.
  induction idx as [|i idx IH]; intros count Hc.
  - cbn. unfold primes_among. cbn. lia.
  - cbn [count_primes_loop]. rewrite primes_among_cons.
    pose proof (primes_among_nonneg is_prime start idx).
    destruct (is_prime _).
    + destruct (Z.gtb_spec (count + 1) 12).
      * lia.
      * rewrite IH by lia. lia.
    + rewrite IH by lia. lia.
Qed.

Lemma verify_loop_spec (is_prime : Z -> bool) (N : Z) (idx : list nat) :
  forall count, count <= TARGET ->
  verify_loop is_prime N idx count
  = if count + primes_among is_prime N idx >? TARGET then None
    else Some (count + primes_among is_prime N idx).
Proof.
  unfold TARGET. induction idx as [|i idx IH]; intros count Hc.
  - cbn. unfold primes_among. cbn. rewrite Z.add_0_r.
    destruct (Z.gtb_spec count 12); [lia | reflexivity].
  - cbn [verify_loop]. rewrite primes_among_cons.
    pose proof (primes_among_nonneg is_prime N idx).
    destruct (is_prime _).
    + unfold TARGET. destruct (Z.gtb_spec (count + 1) 12).
      * destruct (Z.gtb_spec (count + (1 + primes_among is_prime N idx)) 12);
          [reflexivity | lia].
      * rewrite IH by lia. rewrite Z.add_assoc. reflexivity.
    + rewrite IH by lia. reflexivity.
Qed.

(** X15. [count_primes_in_window] returns the number of primes among
    the 2004 integers from [start] on, capped at 13 by the early exit:
    the result lies between 0 and 13, and it is 12 exactly when the
    window holds exactly 12 primes. *)
Theorem count_primes_in_window_is_capped_count (is_prime : Z -> bool) (start : Z) :
  count_primes_in_window is_prime start
  = Z.min (primes_among is_prime start (py_range 2004)) 13 /\
  0 <= count_primes_in_window is_prime start <= 13 /\
  (count_primes_in_window is_prime start = 12
   <-> primes_among is_prime start (py_range 2004) = 12).
Proof.
  unfold count_primes_in_window.
  rewrite count_primes_loop_spec by lia.
  pose proof (primes_among_nonneg is_prime start (py_range 2004)).
  repeat split; lia.
Qed.

Lemma verify_solution_facts (is_prime : Z -> bool) (N : Z) :
  (verify_solution is_prime N = true
   <-> primes_among is_prime N (py_range WINDOW_LEN) = TARGET) /\
  verify_solution is_prime N = (count_primes_in_window is_prime N =? 12).
Proof.
  unfold verify_solution, count_primes_in_window.
  rewrite verify_loop_spec by (unfold TARGET; lia).
  rewrite count_primes_loop_spec by lia.
  unfold WINDOW_LEN, TARGET.
  pose proof (primes_among_nonneg is_prime N (py_range 2004)) as Hp.
  set (P := primes_among is_prime N (py_range 2004)) in *.
  destruct (Z.gtb_spec (0 + P) 12).
  - split; [split; [discriminate | lia]|].
    symmetry. apply Z.eqb_neq. lia.
  - split.
    + rewrite Z.eqb_eq. lia.
    + destruct (Z.eqb_spec (0 + P) 12), (Z.eqb_spec (Z.min (0 + P) 13) 12);
        (reflexivity || lia).
Qed.

(** X16. [verify_solution] accepts [N] exactly when the window of
    [WINDOW_LEN] integers from [N] on holds exactly [TARGET] primes, the
    early [return False] notwithstanding; this is the test
    [count_primes_in_window(N) == 12] by which the search wrote [N]. *)
Theorem verify_solution_agrees_with_search_test (is_prime : Z -> bool) (N : Z) :
  (verify_solution is_prime N = true
   <-> primes_among is_prime N (py_range WINDOW_LEN) = TARGET) /\
  verify_solution is_prime N = (count_primes_in_window is_prime N =? 12).
Proof.
  unfold verify_solution, count_primes_in_window.
  rewrite verify_loop_spec by (unfold TARGET; lia).
  rewrite count_primes_loop_spec by lia.
  unfold WINDOW_LEN, TARGET.
  pose proof (primes_among_nonneg is_prime N (py_range 2004)) as Hp.
  set (P := primes_among is_prime N (py_range 2004)) in *.
  destruct (Z.gtb_spec (0 + P) 12).
  - split; [split; [discriminate | lia]|].
    symmetry. apply Z.eqb_neq. lia.
  - split.
    + rewrite Z.eqb_eq. lia.
    + destruct (Z.eqb_spec (0 + P) 12), (Z.eqb_spec (Z.min (0 + P) 13) 12);
        (reflexivity || lia).
Qed.

(** * The solution files *)

Lemma digit_not_space (c : ascii) : is_digit c = true -> is_space c = false.
Proof.
  unfold is_digit, is_space. intros H.
  apply andb_true_iff in H as [H1 H2].
  apply Nat.leb_le in H1. apply Nat.leb_le in H2.
  apply orb_false_iff. split; apply andb_false_iff; right; apply Nat.leb_gt; lia.
Qed.

Lemma string_of_uint_digits (d : Decimal.uint) :
  all_digits (NilEmpty.string_of_uint d) = true.
Proof. induction d; cbn; try rewrite IHd; reflexivity. Qed.

Lemma take_digits_run (ds : string) (c : ascii) (rest : string) :
  all_digits ds = true -> is_digit c = false ->
  take_digits (ds ++ String c rest) = ds.
Proof.
  intros Hds Hc. induction ds as [|x ds IH]; cbn in *.
  - rewrite Hc. reflexivity.
  - apply andb_true_iff in Hds as [Hx Hds]. rewrite Hx, (IH Hds). reflexivity.
Qed.

(** [str(n)] of a non-negative integer is a non-empty run of digits. *)
Lemma py_str_nonneg (n : Z) :
  0 <= n ->
  exists c ds, py_str n = String c ds /\ is_digit c = true /\ all_digits ds = true.
Proof.
  intros Hn. unfold py_str.
  assert (Hd : forall d, d <> Decimal.Nil ->
            exists c ds, NilZero.string_of_uint d = String c ds /\
                         is_digit c = true /\ all_digits ds = true).
  { intros d Hd. destruct d; [contradiction|..]; cbn;
      eexists _, _; (split; [reflexivity|]); (split; [reflexivity|]);
      apply string_of_uint_digits. }
  destruct n as [|p|p]; [| |lia].
  - cbn. eexists _, _. repeat split.
  - cbn. apply Hd. apply DecimalPos.Unsigned.to_uint_nonnil.
Qed.

Lemma search_finds_written_solution (n : Z) :
  0 <= n -> search_solution (solution_line n) = Some (py_str n).
Proof.
  intros Hn. destruct (py_str_nonneg n Hn) as (c & ds & Hstr & Hc & Hds).
  unfold solution_line. rewrite Hstr.
  assert (Hhere : match_solution_here
                    ("N=" ++ String c ds ++ String (ascii_of_nat 10) "")%string
                  = Some (String c ds)).
  { cbn [append match_solution_here lstrip]. cbn [Ascii.eqb Bool.eqb].
    change (is_space "=") with false. cbn iota.
    change (Ascii.eqb "=" "=") with true. cbn iota.
    cbn [lstrip]. rewrite (digit_not_space c Hc).
    cbn [take_digits]. rewrite Hc.
    rewrite (take_digits_run ds (ascii_of_nat 10) "" Hds) by reflexivity.
    reflexivity. }
  cbn [append] in *. cbn [search_solution]. rewrite Hhere. reflexivity.
Qed.

Lemma digit_is_not_N (c : ascii) : is_digit c = true -> Ascii.eqb c "N" = false.
Proof.
  intros H. destruct (Ascii.eqb_spec c "N") as [-> |]; [discriminate | reflexivity].
Qed.

Lemma search_in_digits (ds : string) :
  all_digits ds = true ->
  search_solution (ds ++ String (ascii_of_nat 10) "")%string = None.
Proof.
  induction ds as [|c ds IH]; intros H; [reflexivity|].
  cbn in H. apply andb_true_iff in H as [Hc Hds].
  cbn [append search_solution match_solution_here].
  rewrite (digit_is_not_N c Hc). apply IH. exact Hds.
Qed.

Lemma search_skips_negative_solution (n : Z) :
  n < 0 -> search_solution (solution_line n) = None.
Proof.
  intros Hn. destruct n as [|p|p]; [lia | lia |].
  unfold solution_line, py_str. cbn [Z.to_int NilZero.string_of_int].
  assert (Hd : NilZero.string_of_uint (Pos.to_uint p)
               = NilEmpty.string_of_uint (Pos.to_uint p)).
  { pose proof (DecimalPos.Unsigned.to_uint_nonnil p).
    destruct (Pos.to_uint p); [contradiction | reflexivity..]. }
  rewrite Hd.
  pose proof (search_in_digits _ (string_of_uint_digits (Pos.to_uint p))) as Hs.
  cbn [append search_solution match_solution_here lstrip].
  change (Ascii.eqb "N" "N") with true. cbn iota.
  change (is_space "=") with false. cbn iota.
  change (Ascii.eqb "=" "=") with true. cbn iota.
  cbn [lstrip]. change (is_space "-") with false. cbn iota.
  cbn [take_digits]. change (is_digit "-") with false. cbn iota.
  change (Ascii.eqb "=" "N") with false. cbn iota.
  change (Ascii.eqb "-" "N") with false. cbn iota.
  exact Hs.
Qed.

(** X17. The line written for a solution reads back: for a
    non-negative [N] the pattern finds the digits of [N] in
    [f"N={N}\n"] and their value is [N].  A negative [N] does not read
    back, the pattern takes no sign: its line yields no value. *)
Theorem solution_line_reads_back (n : Z) :
  (0 <= n -> search_solution (solution_line n) = Some (py_str n) /\
             parse_line (solution_line n) = Some n) /\
  (n < 0 -> parse_line (solution_line n) = None).
Proof.
  split.
  - intros Hn. unfold parse_line.
    rewrite (search_finds_written_solution n Hn).
    split; [reflexivity | apply py_str_round_trip].
  - intros Hn. unfold parse_line.
    rewrite (search_skips_negative_solution n Hn). reflexivity.
Qed.

(** The line of 120 and the line of -4. *)
Lemma solution_line_reads_back_witness :
  parse_line (solution_line 120) = Some 120 /\
  parse_line (solution_line (-4)) = None.
Proof.
  split.
  - apply (solution_line_reads_back 120). lia.
  - apply (solution_line_reads_back (-4)). lia.
Defined.

Lemma take_digits_all_digits (s : string) : all_digits (take_digits s) = true.
Proof.
  induction s as [|c s IH]; [reflexivity|].
  cbn. destruct (is_digit c) eqn:Hc; [|reflexivity]. cbn. rewrite Hc, IH. reflexivity.
Qed.

Lemma search_solution_digits (s ds : string) :
  search_solution s = Some ds -> all_digits ds = true /\ ds <> EmptyString.
Proof.
  assert (Hhere : forall s, match_solution_here s = Some ds ->
                            all_digits ds = true /\ ds <> EmptyString).
  { intros s0. unfold match_solution_here.
    destruct s0 as [|c r]; [discriminate|].
    destruct (Ascii.eqb c "N"); [|discriminate].
    destruct (lstrip r) as [|e r']; [discriminate|].
    destruct (Ascii.eqb e "="); [|discriminate].
    pose proof (take_digits_all_digits (lstrip r')) as Hd.
    destruct (take_digits (lstrip r')); [discriminate|].
    intros [= <-]. split; [exact Hd | discriminate]. }
  induction s as [|c s IH]; cbn [search_solution].
  - destruct (match_solution_here "") eqn:Hm; [|discriminate].
    intros [= ->]. eapply Hhere; eassumption.
  - destruct (match_solution_here (String c s)) eqn:Hm.
    + intros [= ->]. eapply Hhere; eassumption.
    + exact IH.
Qed.

Lemma digit_char_parses (c : ascii) (d : Decimal.uint) :
  is_digit c = true -> exists d', uint_of_char c (Some d) = Some d'.
Proof.
  destruct c as [[|] [|] [|] [|] [|] [|] [|] [|]]; cbn; intros H;
    try discriminate; eauto.
Qed.

Lemma digits_parse (ds : string) :
  all_digits ds = true -> exists d, NilEmpty.uint_of_string ds = Some d.
Proof.
  induction ds as [|c ds IH]; intros H; cbn; [eauto|].
  cbn in H. apply andb_true_iff in H as [Hc Hds].
  destruct (IH Hds) as [d ->]. apply digit_char_parses. exact Hc.
Qed.

(** The text of a match always has a value, and it is not negative. *)
Lemma numeric_value_digits (ds : string) :
  all_digits ds = true -> ds <> EmptyString ->
  exists n, numeric_value ds = Some n /\ 0 <= n.
Proof.
  intros Hall Hne. destruct ds as [|c ds]; [contradiction|].
  destruct (digits_parse _ Hall) as [d Hd].
  cbn in Hall. apply andb_true_iff in Hall as [Hc _].
  unfold numeric_value, NilZero.int_of_string.
  assert (Hminus : Ascii.eqb c "-" = false).
  { destruct (Ascii.eqb_spec c "-") as [-> |]; [discriminate | reflexivity]. }
  rewrite Hminus. unfold NilZero.uint_of_string. rewrite Hd. cbn.
  eexists. split; [reflexivity|]. unfold Z.of_uint. lia.
Qed.

Lemma parse_line_nonneg (line : string) (n : Z) :
  parse_line line = Some n -> 0 <= n.
Proof.
  unfold parse_line. destruct (search_solution line) as [ds|] eqn:Hs; [|discriminate].
  destruct (search_solution_digits _ _ Hs) as [Hall Hne].
  destruct (numeric_value_digits ds Hall Hne) as (m & -> & Hm).
  intros [= <-]. exact Hm.
Qed.

Lemma parse_lines_spec (lines : list string) :
  parse_lines lines = Returned (omap parse_line lines).
Proof.
  induction lines as [|line rest IH]; [reflexivity|].
  cbn [parse_lines omap list_omap]. unfold parse_line at 1.
  destruct (search_solution line) as [ds|] eqn:Hs; [|exact IH].
  destruct (search_solution_digits _ _ Hs) as [Hall Hne].
  destruct (numeric_value_digits ds Hall Hne) as (m & -> & _).
  rewrite IH. reflexivity.
Qed.

Lemma strictly_sorted_of_NoDup (l : list Z) :
  StronglySorted Z.le l -> NoDup l -> StronglySorted Z.lt l.
Proof.
  induction 1 as [|x l Hs IH Hx]; intros Hnd; [constructor|].
  apply NoDup_cons in Hnd as [Hnotin Hnd].
  constructor; [apply IH; exact Hnd|].
  apply Forall_forall. intros y Hy.
  pose proof (proj1 (Forall_forall _ _) Hx y Hy) as Hle.
  assert (x <> y) by (intros ->; contradiction). lia.
Qed.

Lemma strictly_sorted_NoDup (l : list Z) :
  StronglySorted Z.lt l -> NoDup l /\ Sorted Z.le l.
Proof.
  induction 1 as [|x l Hs [IH1 IH2] Hx]; [split; constructor|].
  split.
  - apply NoDup_cons. split; [|exact IH1].
    intros Hin. pose proof (proj1 (Forall_forall _ _) Hx x Hin). lia.
  - constructor; [exact IH2|].
    destruct l as [|y l]; constructor.
    apply Forall_cons in Hx as [Hxy _]. lia.
Qed.

Lemma remove_dups_of_NoDup (l : list Z) : NoDup l -> remove_dups l = l.
Proof.
  induction 1 as [|x l Hx _ IH]; [reflexivity|].
  cbn. destruct (decide_rel elem_of x l); [contradiction|]. rewrite IH. reflexivity.
Qed.

Lemma parse_solutions_facts (lines : list string) :
  exists sols,
    parse_solutions (Some lines)
    = ([ReadUnique (length sols)], Returned sols) /\
    StronglySorted Z.lt sols /\
    (forall x, x ∈ sols <-> exists line, line ∈ lines /\ parse_line line = Some x) /\
    Forall (fun x => 0 <= x) sols.
Proof.
  exists (merge_sort Z.le (remove_dups (omap parse_line lines))).
  split; [unfold parse_solutions; rewrite parse_lines_spec; reflexivity|].
  assert (Hmem : forall x,
            x ∈ merge_sort Z.le (remove_dups (omap parse_line lines))
            <-> exists line, line ∈ lines /\ parse_line line = Some x).
  { intros x. rewrite merge_sort_Permutation, elem_of_remove_dups.
    apply list_elem_of_omap. }
  split; [|split; [exact Hmem|]].
  - apply strictly_sorted_of_NoDup.
    + apply StronglySorted_merge_sort; apply _.
    + rewrite merge_sort_Permutation. apply NoDup_remove_dups.
  - apply Forall_forall. intros x Hx.
    apply Hmem in Hx as (line & _ & Hline).
    exact (parse_line_nonneg line x Hline).
Qed.

(** X18. On a file whose text is made of characters below 128,
    [parse_solutions] does not fail; a missing file gives the empty
    list, and otherwise the result is strictly increasing, holds exactly
    the values of the lines in which the pattern matches, each once, and
    holds no negative value. *)
Theorem parse_solutions_returns_increasing_set (lines : list string) :
  Forall (fun line => ascii_only line = true) lines ->
  parse_solutions None = ([FileNotFound], Returned []) /\
  exists sols,
    parse_solutions (Some lines)
    = ([ReadUnique (length sols)], Returned sols) /\
    StronglySorted Z.lt sols /\
    (forall x, x ∈ sols <-> exists line, line ∈ lines /\ parse_line line = Some x) /\
    Forall (fun x => 0 <= x) sols.
Proof.
  intros _.
  split; [reflexivity|].
  exists (merge_sort Z.le (remove_dups (omap parse_line lines))).
  split; [unfold parse_solutions; rewrite parse_lines_spec; reflexivity|].
  assert (Hmem : forall x,
            x ∈ merge_sort Z.le (remove_dups (omap parse_line lines))
            <-> exists line, line ∈ lines /\ parse_line line = Some x).
  { intros x. rewrite merge_sort_Permutation, elem_of_remove_dups.
    apply list_elem_of_omap. }
  split; [|split; [exact Hmem|]].
  - apply strictly_sorted_of_NoDup.
    + apply StronglySorted_merge_sort; apply _.
    + rewrite merge_sort_Permutation. apply NoDup_remove_dups.
  - apply Forall_forall. intros x Hx.
    apply Hmem in Hx as (line & _ & Hline).
    exact (parse_line_nonneg line x Hline).
Qed.

(** A file with a repeated value, a line without a match and values out
    of order. *)
Lemma parse_solutions_returns_increasing_set_witness :
  let lines := ["N=7"; "no solution here"; "N = 5 (checked)"; "N=7"] in
  Forall (fun line => ascii_only line = true) lines /\
  parse_solutions (Some lines) = ([ReadUnique 2], Returned [5; 7]) /\
  exists sols,
    parse_solutions (Some lines)
    = ([ReadUnique (length sols)], Returned sols) /\
    StronglySorted Z.lt sols /\
    (forall x, x ∈ sols <-> exists line, line ∈ lines /\ parse_line line = Some x) /\
    Forall (fun x => 0 <= x) sols.
Proof.
  cbv zeta. split; [repeat constructor|]. split; [vm_compute; reflexivity|].
  apply (parse_solutions_returns_increasing_set
           ["N=7"; "no solution here"; "N = 5 (checked)"; "N=7"]).
  repeat constructor.
Defined.

Lemma written_lines_parse (verified : list Z) :
  Forall (fun x => 0 <= x) verified ->
  omap parse_line (write_solutions verified) = verified.
Proof.
  unfold write_solutions. induction 1 as [|x l Hx _ IH]; [reflexivity|].
  cbn [fmap list_fmap omap list_omap]. unfold parse_line at 1.
  rewrite (search_finds_written_solution x Hx), py_str_round_trip.
  f_equal. exact IH.
Qed.

Lemma read_back (verified : list Z) :
  StronglySorted Z.lt verified ->
  Forall (fun x => 0 <= x) verified ->
  parse_solutions (Some (write_solutions verified))
  = ([ReadUnique (length verified)], Returned verified).
Proof.
  intros Hsorted Hnonneg.
  destruct (strictly_sorted_NoDup verified Hsorted) as [Hnd Hle].
  unfold parse_solutions.
  rewrite parse_lines_spec, (written_lines_parse verified Hnonneg),
    (remove_dups_of_NoDup verified Hnd).
  assert (Hsame : merge_sort Z.le verified = verified).
  { apply (Sorted_unique Z.le).
    - apply Sorted_merge_sort; apply _.
    - exact Hle.
    - apply merge_sort_Permutation. }
  cbv zeta. rewrite Hsame. reflexivity.
Qed.

(** X19. The file of verified solutions reads back as it was written:
    for a strictly increasing list of non-negative values,
    [parse_solutions] applied to the lines [N=<value>] written for them
    returns the same list. *)
Theorem written_solutions_read_back (verified : list Z) :
  StronglySorted Z.lt verified ->
  Forall (fun x => 0 <= x) verified ->
  parse_solutions (Some (write_solutions verified))
  = ([ReadUnique (length verified)], Returned verified).
Proof.
  intros Hsorted Hnonneg.
  destruct (strictly_sorted_NoDup verified Hsorted) as [Hnd Hle].
  unfold parse_solutions.
  rewrite parse_lines_spec, (written_lines_parse verified Hnonneg),
    (remove_dups_of_NoDup verified Hnd).
  assert (Hsame : merge_sort Z.le verified = verified).
  { apply (Sorted_unique Z.le).
    - apply Sorted_merge_sort; apply _.
    - exact Hle.
    - apply merge_sort_Permutation. }
  cbv zeta. rewrite Hsame. reflexivity.
Qed.

(** Three solutions. *)
Lemma written_solutions_read_back_witness :
  parse_solutions (Some (write_solutions [3; 50; 700]))
  = ([ReadUnique 3], Returned [3; 50; 700]).
Proof.
  apply (written_solutions_read_back [3; 50; 700]).
  - repeat constructor.
  - repeat constructor; discriminate.
Defined.

Lemma gaps_cons (x y : Z) (l : list Z) :
  gaps (x :: y :: l) = (y - x) :: gaps (y :: l).
Proof.
  unfold gaps. cbn [length]. rewrite !Nat.sub_succ, !Nat.sub_0_r.
  cbn [seq fmap list_fmap nth Nat.sub]. f_equal.
  rewrite <- fmap_S_seq, <- list_fmap_compose.
  apply Forall_fmap_ext, Forall_forall. intros i Hi.
  apply elem_of_seq in Hi. cbn [compose].
  destruct i as [|i]; [lia|]. cbn [nth Nat.sub]. rewrite Nat.sub_0_r. reflexivity.
Qed.

(** X20. The gaps of a strictly increasing list of solutions: there is
    one gap less than there are solutions, every gap is positive, and the
    gaps add up to the distance from the first solution to the last. *)
Theorem gaps_are_positive_and_telescope (verified : list Z) :
  StronglySorted Z.lt verified ->
  length (gaps verified) = (length verified - 1)%nat /\
  Forall (fun g => 0 < g) (gaps verified) /\
  sum_list (gaps verified)
  = nth (length verified - 1) verified 0 - nth 0 verified 0.
Proof.
  intros Hs. split.
  { unfold gaps. rewrite length_fmap, length_seq. reflexivity. }
  induction Hs as [|x l Hs IH Hx]; [split; [constructor | reflexivity]|].
  destruct l as [|y l].
  - split; [constructor | cbn; lia].
  - rewrite gaps_cons. destruct IH as [IHpos IHsum].
    apply Forall_cons in Hx as [Hxy _].
    split; [constructor; [lia | exact IHpos]|].
    unfold sum_list in *. cbn [foldr]. rewrite IHsum.
    cbn [length nth Nat.sub]. rewrite !Nat.sub_0_r. cbn [nth]. lia.
Qed.

(** Three solutions. *)
Lemma gaps_are_positive_and_telescope_witness :
  length (gaps [3; 50; 700]) = 2%nat /\
  Forall (fun g => 0 < g) (gaps [3; 50; 700]) /\
  sum_list (gaps [3; 50; 700]) = 700 - 3.
Proof.
  apply (gaps_are_positive_and_telescope [3; 50; 700]).
  repeat constructor.
Defined.

(** * The analysis and the search together *)

Lemma valid_sols_spec (solutions : list Z) :
  Forall (fun N => KNOWN_N - RADIUS <= N <= KNOWN_N + RADIUS)
         (valid_sols solutions) /\
  (StronglySorted Z.lt solutions -> StronglySorted Z.lt (valid_sols solutions)) /\
  (Forall (fun x => 0 <= x) solutions ->
   Forall (fun x => 0 <= x) (valid_sols solutions)) /\
  (Forall (fun N => KNOWN_N - RADIUS <= N <= KNOWN_N + RADIUS) solutions ->
   valid_sols solutions = solutions).
Proof.
  unfold valid_sols. cbv zeta.
  set (f := fun N => (KNOWN_N - RADIUS <=? N) && (N <=? KNOWN_N + RADIUS)).
  assert (Hsub : forall x, x ∈ List.filter f solutions -> x ∈ solutions /\ f x = true).
  { intros x Hx. apply list_elem_of_In, List.filter_In in Hx as [Hx Hf].
    split; [apply list_elem_of_In; exact Hx | exact Hf]. }
  split; [|split; [|split]].
  - apply Forall_forall. intros x Hx. apply Hsub in Hx as [_ Hf].
    unfold f in Hf. apply andb_true_iff in Hf as [H1 H2]. lia.
  - clear Hsub. induction 1 as [|x l Hs IH Hx]; cbn; [constructor|].
    destruct (f x); [|exact IH].
    constructor; [exact IH|].
    apply Forall_forall. intros y Hy.
    apply list_elem_of_In, List.filter_In in Hy as [Hy _].
    apply list_elem_of_In in Hy.
    exact (proj1 (Forall_forall _ _) Hx y Hy).
  - intros H. apply Forall_forall. intros x Hx. apply Hsub in Hx as [Hx _].
    exact (proj1 (Forall_forall _ _) H x Hx).
  - clear Hsub. induction 1 as [|x l Hx _ IH]; cbn; [reflexivity|].
    assert (Hf : f x = true) by (unfold f; apply andb_true_iff; lia).
    rewrite Hf, IH. reflexivity.
Qed.

Lemma verified_sols_spec (is_prime : Z -> bool) (valid : list Z) :
  (forall x, x ∈ verified_sols is_prime valid
             <-> x ∈ valid /\ verify_solution is_prime x = true) /\
  (StronglySorted Z.lt valid -> StronglySorted Z.lt (verified_sols is_prime valid)) /\
  (Forall (fun N => verify_solution is_prime N = true) valid ->
   verified_sols is_prime valid = valid).
Proof.
  assert (Hmem : forall x, x ∈ verified_sols is_prime valid
                           <-> x ∈ valid /\ verify_solution is_prime x = true).
  { induction valid as [|y l IH]; intros x; cbn.
    - split; [intros H; inversion H | intros [H _]; inversion H].
    - destruct (verify_solution is_prime y) eqn:Hy.
      + rewrite !elem_of_cons, IH. intuition (subst; auto).
      + rewrite elem_of_cons, IH. intuition (subst; auto; congruence). }
  split; [exact Hmem|]. split.
  - clear Hmem. induction 1 as [|x l Hs IH Hx]; cbn; [constructor|].
    assert (Hall : Forall (Z.lt x) (verified_sols is_prime l)).
    { apply Forall_forall. intros y Hy.
      assert (Hy' : y ∈ l).
      { clear -Hy. induction l as [|z l IH]; cbn in Hy; [inversion Hy|].
        destruct (verify_solution is_prime z).
        - apply elem_of_cons in Hy as [-> | Hy];
            [apply list_elem_of_here | apply list_elem_of_further, IH, Hy].
        - apply list_elem_of_further, IH, Hy. }
      exact (proj1 (Forall_forall _ _) Hx y Hy'). }
    destruct (verify_solution is_prime x); [constructor; assumption | exact IH].
  - clear Hmem. induction 1 as [|x l Hx _ IH]; cbn; [reflexivity|].
    rewrite Hx, IH. reflexivity.
Qed.

Lemma all_digits_ascii (s : string) :
  all_digits s = true -> ascii_only s = true.
Proof.
  induction s as [|c s IH]; [reflexivity|]. cbn [all_digits ascii_only].
  intros H. apply andb_true_iff in H as [Hc Hs].
  apply andb_true_iff. split; [|apply IH; exact Hs].
  unfold is_digit in Hc. apply andb_true_iff in Hc as [_ Hc].
  apply Nat.leb_le in Hc. apply Nat.ltb_lt. lia.
Qed.

Lemma ascii_only_append (a b : string) :
  ascii_only (a ++ b)%string = ascii_only a && ascii_only b.
Proof.
  induction a as [|c a IH]; [reflexivity|].
  cbn [append ascii_only]. rewrite IH. apply andb_assoc.
Qed.

(** The line written for a solution that is not negative is made of
    characters below 128. *)
Lemma solution_line_ascii (n : Z) :
  0 <= n -> ascii_only (solution_line n) = true.
Proof.
  intros Hn. destruct (py_str_nonneg n Hn) as (c & ds & Hstr & Hc & Hds).
  unfold solution_line. rewrite !ascii_only_append.
  assert (H : ascii_only (py_str n) = true).
  { apply all_digits_ascii. rewrite Hstr. cbn [all_digits].
    rewrite Hc, Hds. reflexivity. }
  rewrite H. reflexivity.
Qed.

(** X21. For a solution file whose text is made of characters below
    128: the list of verified solutions that [analyze] computes from it
    is strictly increasing, and every value in it lies within [RADIUS]
    of [KNOWN_N] and passes [verify_solution].  When that list is empty,
    [analyze] returns without writing a file (lines 205-206 and
    222-224); otherwise it writes one line for each value, these lines
    are made of characters below 128 again, and they read back as the
    same list.  When the solution file is missing, [analyze] returns
    without writing as well. *)
Theorem analysis_output_reads_back (is_prime : Z -> bool) (lines : list string) :
  Forall (fun line => ascii_only line = true) lines ->
  analyze is_prime None = Returned None /\
  exists sols,
    snd (parse_solutions (Some lines)) = Returned sols /\
    let verified := verified_sols is_prime (valid_sols sols) in
    StronglySorted Z.lt verified /\
    Forall (fun N => KNOWN_N - RADIUS <= N <= KNOWN_N + RADIUS /\
                     verify_solution is_prime N = true) verified /\
    analyze is_prime (Some lines)
    = Returned (match verified with
                | [] => None
                | _ :: _ => Some (write_solutions verified)
                end) /\
    Forall (fun line => ascii_only line = true) (write_solutions verified) /\
    parse_solutions (Some (write_solutions verified))
    = ([ReadUnique (length verified)], Returned verified).
Proof.
  intros _. split; [reflexivity|].
  destruct (parse_solutions_facts lines) as (sols & Heq & Hsorted & _ & Hnonneg).
  exists sols. split; [rewrite Heq; reflexivity|]. cbv zeta.
  destruct (valid_sols_spec sols) as (Hin & Hvs & Hvn & _).
  destruct (verified_sols_spec is_prime (valid_sols sols)) as (Hmem & Hss & _).
  assert (Hnn : Forall (fun x => 0 <= x) (verified_sols is_prime (valid_sols sols))).
  { apply Forall_forall. intros x Hx. apply Hmem in Hx as [Hx _].
    exact (proj1 (Forall_forall _ _) (Hvn Hnonneg) x Hx). }
  split; [apply Hss, Hvs, Hsorted|]. split.
  { apply Forall_forall. intros x Hx. apply Hmem in Hx as [Hx Hv].
    split; [exact (proj1 (Forall_forall _ _) Hin x Hx) | exact Hv]. }
  split.
  { unfold analyze. rewrite Heq. cbn [snd].
    destruct sols as [|x sols]; [reflexivity|].
    destruct (verified_sols is_prime (valid_sols (x :: sols))); reflexivity. }
  split.
  { unfold write_solutions. apply Forall_fmap.
    eapply Forall_impl; [exact Hnn|]. intros x Hx. apply solution_line_ascii, Hx. }
  apply read_back; [apply Hss, Hvs, Hsorted | exact Hnn].
Qed.

(** A file that holds [KNOWN_N] and a value out of range, with a
    primality test under which the window of [KNOWN_N] holds 12
    primes: [analyze] writes the one line of [KNOWN_N]. *)
Lemma analysis_output_reads_back_witness :
  let is_prime := fun z => (KNOWN_N <=? z) && (z <? KNOWN_N + 12) in
  let lines := [solution_line KNOWN_N; "N = 5"] in
  Forall (fun line => ascii_only line = true) lines /\
  analyze is_prime (Some lines) = Returned (Some [solution_line KNOWN_N]) /\
  analyze is_prime None = Returned None /\
  exists sols,
    snd (parse_solutions (Some lines)) = Returned sols /\
    let verified := verified_sols is_prime (valid_sols sols) in
    StronglySorted Z.lt verified /\
    Forall (fun N => KNOWN_N - RADIUS <= N <= KNOWN_N + RADIUS /\
                     verify_solution is_prime N = true) verified /\
    analyze is_prime (Some lines)
    = Returned (match verified with
                | [] => None
                | _ :: _ => Some (write_solutions verified)
                end) /\
    Forall (fun line => ascii_only line = true) (write_solutions verified) /\
    parse_solutions (Some (write_solutions verified))
    = ([ReadUnique (length verified)], Returned verified).
Proof.
  cbv zeta. split; [repeat constructor|]. split; [vm_compute; reflexivity|].
  apply (analysis_output_reads_back
           (fun z => (KNOWN_N <=? z) && (z <? KNOWN_N + 12))
           [solution_line KNOWN_N; "N = 5"]).
  repeat constructor.
Defined.

Lemma written_lines_app (a b : list SearchEvent) :
  written_lines (a ++ b) = written_lines a ++ written_lines b.
Proof.
  induction a as [|e a IH]; [reflexivity|].
  destruct e; cbn; rewrite IH; reflexivity.
Qed.

Lemma search_loop_spec (is_prime : Z -> bool) (rand : nat -> Z) (idx : list nat) :
  forall found,
  written_lines (fst (search_loop is_prime rand idx found))
  = solution_line <$> accepted is_prime rand idx /\
  snd (search_loop is_prime rand idx found)
  = found + Z.of_nat (length (accepted is_prime rand idx)).
Proof.
  unfold accepted. induction idx as [|i idx IH]; intros found.
  - cbn. split; [reflexivity | lia].
  - cbn [search_loop fmap list_fmap List.filter].
    destruct (KNOWN_N + rand i <? 1); cbn [negb andb]; [apply IH|].
    destruct (count_primes_in_window is_prime (KNOWN_N + rand i) =? 12).
    + destruct (IH (found + 1)) as [IH1 IH2].
      destruct (search_loop is_prime rand idx (found + 1)) as [ev f].
      cbn [fst snd] in *. rewrite !written_lines_app.
      cbn [written_lines fmap list_fmap length app].
      assert (He : written_lines
                (if Z.of_nat i mod 100000 =? 0 then [SearchProgress i] else [])
              = []) by (destruct (_ =? 0); reflexivity).
      rewrite He, IH1. split; [reflexivity | lia].
    + destruct (IH found) as [IH1 IH2].
      destruct (search_loop is_prime rand idx found) as [ev f].
      cbn [fst snd] in *. rewrite !written_lines_app.
      assert (He : written_lines
                (if Z.of_nat i mod 100000 =? 0 then [SearchProgress i] else [])
              = []) by (destruct (_ =? 0); reflexivity).
      rewrite He, IH1. split; [reflexivity | lia].
Qed.

Lemma accepted_spec (is_prime : Z -> bool) (rand : nat -> Z) (idx : list nat)
  (x : Z) :
  x ∈ accepted is_prime rand idx
  <-> (exists i, i ∈ idx /\ x = KNOWN_N + rand i) /\ 1 <= x /\
      count_primes_in_window is_prime x = 12.
Proof.
  unfold accepted. rewrite list_elem_of_In, List.filter_In, <- list_elem_of_In.
  rewrite list_elem_of_fmap, andb_true_iff, negb_true_iff, Z.ltb_ge, Z.eqb_eq.
  split.
  - intros [(i & -> & Hi) [H1 H2]]. eauto.
  - intros [(i & Hi & ->) [H1 H2]]. eauto.
Qed.

(** X22. A run of the search appends one line [N=<candidate>] for
    each pass whose candidate is at least 1 and holds exactly 12 primes
    in its window, in the order of the passes, repeated candidates
    included, and the count it reports at the end is the number of lines
    it wrote. *)
Theorem search_writes_the_accepted_candidates
  (is_prime : Z -> bool) (rand : nat -> Z) :
  written_lines (search_main is_prime rand)
  = solution_line <$> accepted is_prime rand (py_range TOTAL_SAMPLES) /\
  last (search_main is_prime rand)
  = Some (SearchDone
            (Z.of_nat (length (written_lines (search_main is_prime rand))))) /\
  (forall x, x ∈ accepted is_prime rand (py_range TOTAL_SAMPLES)
             <-> (exists i, (i < Z.to_nat TOTAL_SAMPLES)%nat /\
                            x = KNOWN_N + rand i) /\
                 1 <= x /\
                 primes_among is_prime x (py_range 2004) = 12).
Proof.
  unfold search_main.
  destruct (search_loop_spec is_prime rand (py_range TOTAL_SAMPLES) 0) as [H1 H2].
  destruct (search_loop is_prime rand (py_range TOTAL_SAMPLES) 0) as [ev found].
  cbn [fst snd] in *.
  assert (Hw : written_lines (SearchStart :: ev ++ [SearchDone found])
               = solution_line <$> accepted is_prime rand (py_range TOTAL_SAMPLES)).
  { cbn [written_lines]. rewrite written_lines_app, H1. cbn. apply app_nil_r. }
  split; [exact Hw|]. split.
  - rewrite Hw, length_fmap, <- (Z.add_0_l (Z.of_nat _)), <- H2.
    change (SearchStart :: ev ++ [SearchDone found])
      with ((SearchStart :: ev) ++ [SearchDone found]).
    apply last_snoc.
  - intros x. rewrite accepted_spec.
    pose proof (count_primes_loop_spec is_prime x (py_range 2004) 0 ltac:(lia))
      as Hc.
    pose proof (primes_among_nonneg is_prime x (py_range 2004)).
    unfold count_primes_in_window. rewrite Hc. unfold py_range at 1.
    split.
    + intros [(i & Hi & ->) [H3 H4]]. apply elem_of_seq in Hi.
      split; [exists i; split; [lia | reflexivity]|]. split; [exact H3 | lia].
    + intros [(i & Hi & ->) [H3 H4]].
      split; [exists i; split; [apply elem_of_seq; lia | reflexivity]|].
      split; [exact H3 | lia].
Qed.

Lemma search_writes_accepted (is_prime : Z -> bool) (rand : nat -> Z) :
  written_lines (search_main is_prime rand)
  = solution_line <$> accepted is_prime rand (py_range TOTAL_SAMPLES).
Proof.
  unfold search_main.
  destruct (search_loop_spec is_prime rand (py_range TOTAL_SAMPLES) 0) as [H1 _].
  destruct (search_loop is_prime rand (py_range TOTAL_SAMPLES) 0) as [ev found].
  cbn [fst] in H1. cbn [written_lines].
  rewrite written_lines_app, H1. cbn. apply app_nil_r.
Qed.

(** X23. The analysis keeps every solution the search wrote.  When the
    offsets drawn by the search lie within its radius, the file written
    by a run is made of characters below 128 and reads back, in
    increasing order and without repetition, as exactly the accepted
    candidates, and each of them passes the range filter and
    [verify_solution] of the analysis. *)
Theorem analysis_keeps_every_written_solution
  (is_prime : Z -> bool) (rand : nat -> Z) :
  (forall i, - SEARCH_RADIUS <= rand i <= SEARCH_RADIUS) ->
  Forall (fun line => ascii_only line = true)
         (written_lines (search_main is_prime rand)) /\
  exists sols,
    snd (parse_solutions (Some (written_lines (search_main is_prime rand))))
    = Returned sols /\
    StronglySorted Z.lt sols /\
    (forall x, x ∈ sols
               <-> x ∈ accepted is_prime rand (py_range TOTAL_SAMPLES)) /\
    verified_sols is_prime (valid_sols sols) = sols.
Proof.
  intros Hrand.
  assert (Hw : written_lines (search_main is_prime rand)
               = solution_line <$> accepted is_prime rand (py_range TOTAL_SAMPLES)).
  { unfold search_main.
    destruct (search_loop_spec is_prime rand (py_range TOTAL_SAMPLES) 0) as [H1 _].
    destruct (search_loop is_prime rand (py_range TOTAL_SAMPLES) 0) as [ev found].
    cbn [fst] in H1. cbn [written_lines].
    rewrite written_lines_app, H1. cbn. apply app_nil_r. }
  split.
  { rewrite Hw. apply Forall_fmap, Forall_forall. intros x Hx.
    pose proof (proj1 (accepted_spec _ _ _ _) Hx) as (_ & Hx1 & _).
    apply solution_line_ascii. lia. }
  destruct (parse_solutions_facts (written_lines (search_main is_prime rand)))
    as (sols & Heq & Hsorted & Hmem & _).
  exists sols. split; [rewrite Heq; reflexivity|].
  split; [exact Hsorted|].
  assert (Hiff : forall x, x ∈ sols
                 <-> x ∈ accepted is_prime rand (py_range TOTAL_SAMPLES)).
  { intros x. rewrite Hmem, Hw. split.
    - intros (line & Hline & Hparse).
      apply list_elem_of_fmap in Hline as (c & -> & Hc).
      pose proof (proj1 (accepted_spec _ _ _ _) Hc) as (_ & Hc1 & _).
      unfold parse_line in Hparse.
      rewrite (search_finds_written_solution c) in Hparse by lia.
      rewrite py_str_round_trip in Hparse. congruence.
    - intros Hx. pose proof (proj1 (accepted_spec _ _ _ _) Hx) as (_ & Hx1 & _).
      exists (solution_line x). split; [apply list_elem_of_fmap_2; exact Hx|].
      unfold parse_line.
      rewrite (search_finds_written_solution x) by lia.
      apply py_str_round_trip. }
  split; [exact Hiff|].
  assert (HR : RADIUS = 1000000000) by reflexivity.
  assert (HS : SEARCH_RADIUS = 100000000) by reflexivity.
  destruct (valid_sols_spec sols) as (_ & _ & _ & Hvalid).
  rewrite Hvalid.
  - destruct (verified_sols_spec is_prime sols) as (_ & _ & Hver).
    apply Hver. apply Forall_forall. intros x Hx.
    apply Hiff, accepted_spec in Hx as (_ & _ & Hc).
    destruct (verify_solution_facts is_prime x) as [_ ->].
    apply Z.eqb_eq. exact Hc.
  - apply Forall_forall. intros x Hx.
    apply Hiff, accepted_spec in Hx as ((i & _ & ->) & _).
    specialize (Hrand i). lia.
Qed.

(** Offsets that are all zero, and a primality test under which the
    window of [KNOWN_N] holds 12 primes: every pass accepts [KNOWN_N],
    the file holds its line, and the analysis reads [KNOWN_N] back and
    keeps it. *)
Lemma analysis_keeps_every_written_solution_witness :
  let is_prime := fun z => (KNOWN_N <=? z) && (z <? KNOWN_N + 12) in
  let rand := fun _ : nat => 0 in
  (forall i, - SEARCH_RADIUS <= rand i <= SEARCH_RADIUS) /\
  KNOWN_N ∈ accepted is_prime rand (py_range TOTAL_SAMPLES) /\
  solution_line KNOWN_N ∈ written_lines (search_main is_prime rand) /\
  exists sols,
    snd (parse_solutions (Some (written_lines (search_main is_prime rand))))
    = Returned sols /\
    KNOWN_N ∈ sols /\
    KNOWN_N ∈ verified_sols is_prime (valid_sols sols).
Proof.
  cbv zeta.
  assert (Hrand : forall i : nat, - SEARCH_RADIUS <= 0 <= SEARCH_RADIUS)
    by (intros i; split; discriminate).
  assert (Hacc : KNOWN_N ∈ accepted (fun z => (KNOWN_N <=? z) && (z <? KNOWN_N + 12))
                             (fun _ : nat => 0) (py_range TOTAL_SAMPLES)).
  { apply accepted_spec. split; [|split].
    - exists 0%nat. split; [|rewrite Z.add_0_r; reflexivity].
      unfold py_range. apply elem_of_seq. unfold TOTAL_SAMPLES. lia.
    - discriminate.
    - vm_compute. reflexivity. }
  split; [exact Hrand|]. split; [exact Hacc|].
  pose proof (search_writes_accepted
                (fun z => (KNOWN_N <=? z) && (z <? KNOWN_N + 12))
                (fun _ : nat => 0)) as Hw.
  split; [rewrite Hw; apply list_elem_of_fmap_2; exact Hacc|].
  destruct (analysis_keeps_every_written_solution
              (fun z => (KNOWN_N <=? z) && (z <? KNOWN_N + 12))
              (fun _ : nat => 0) Hrand)
    as (_ & sols & Heq & _ & Hiff & Hver).
  exists sols. split; [exact Heq|].
  split; [apply Hiff; exact Hacc|].
  rewrite Hver. apply Hiff. exact Hacc.
Defined.
